(** * Energy visualizer backends: a shallow embedding of the aggregation core

    The repository ships three variants of the same Express backend:

    - [Influx]     : src/unnamed/part_000 (InfluxDB, mapping with a reverse
                     room index)
    - [Elastic]    : src/unnamed/part_001, first program (Elasticsearch)
    - [InfluxFlat] : src/unnamed/part_001, second program (InfluxDB, flat
                     mapping)

    The file first embeds the programs ([JS], [Mac], the energy arithmetic,
    [Dayjs], [Periods], the cache, the three program modules), then states
    the aggregation and the coverage of buckets the way the specification
    words them ([Spec], [Coverage]), and then proves the claims.

    Modelling conventions.

    - A JavaScript string is a sequence of UTF-16 code units below 256
      (Latin-1), carried by [string]; [\s] and [toLowerCase] are modelled on
      that range.
    - An energy value that the storage sends is a decimal numeral, an exact
      rational [Q].  The program modules compute on these values exactly;
      [Generic] gives the three aggregators over an arithmetic that is a
      parameter, and [Binary64] the arithmetic of the runtime: values read
      to the nearest binary64 number, [-] and [+=] rounded to nearest, with
      [NaN] and the infinities.  What depends on rounding or on the order
      of the additions is stated there.  A timestamp is the millisecond
      instant [new Date(_time)] evaluates to, an integer [Z].  A numeric
      room identifier is an integer.
    - An object literal used as a dictionary is the list of its own
      properties in creation order ([JS.jsobj]); reads go through the
      prototype chain ([JS.get]) and enumeration follows the engine's own
      property order ([JS.entries]).  The keys of the mapping tables are
      lower-case, so the method [hasOwnProperty] is never shadowed.
    - [null] and [undefined] are both [None].
    - A thrown exception is the [Thrown] outcome.
    - Storage is a parameter: the outcome of each query is an argument of
      the function that would issue it.
    - A loop that is not bounded by its input takes a number of iterations
      it may use ([fuel]) and answers [None] when they do not suffice. *)

From Stdlib Require Import ZArith QArith Qround Qabs List String Ascii Bool Lia Lqa.
From Stdlib Require Import Permutation Sorted DecimalString.
From Stdlib Require Floats.SpecFloat.
Import ListNotations.

(* ------------------------------------------------------------------ *)
(** * The JavaScript runtime, as far as the backends use it *)

Module JS.

Inductive error : Type :=
| TypeError
| StorageError.

Inductive outcome (A : Type) : Type :=
| Returned (a : A)
| Thrown (e : error).

Arguments Returned {A} a.
Arguments Thrown {A} e.

Definition bind {A B : Type} (m : outcome A) (k : A -> outcome B) : outcome B :=
  match m with
  | Returned a => k a
  | Thrown e => Thrown e
  end.

(** [try { body } catch (error) { handler }] *)
Definition try_catch {A : Type} (body : outcome A) (handler : error -> outcome A)
  : outcome A :=
  match body with
  | Returned a => Returned a
  | Thrown e => handler e
  end.

(** ** Strings *)

Definition code (c : ascii) : N := N_of_ascii c.

(** The members of the class [\s] below code unit 256. *)
Definition isWhiteSpace (c : ascii) : bool :=
  let n := code c in
  ((9 <=? n) && (n <=? 13) || (n =? 32) || (n =? 160))%N.

(** [String.prototype.toLowerCase] on one code unit: A-Z, and the Latin-1
    capitals U+00C0..U+00DE except the multiplication sign U+00D7. *)
Definition lowerChar (c : ascii) : ascii :=
  let n := code c in
  if ((65 <=? n) && (n <=? 90)
      || (192 <=? n) && (n <=? 222) && negb (n =? 215))%N
  then ascii_of_N (n + 32) else c.

Fixpoint toLowerCase (s : string) : string :=
  match s with
  | EmptyString => EmptyString
  | String c s' => String (lowerChar c) (toLowerCase s')
  end.

(** [s.replace(/[...]/g, "")] for a character class given as a predicate. *)
Fixpoint removeAll (cls : ascii -> bool) (s : string) : string :=
  match s with
  | EmptyString => EmptyString
  | String c s' =>
      if cls c then removeAll cls s' else String c (removeAll cls s')
  end.

(** Truthiness of a string value: only the empty string is falsy. *)
Definition truthy (s : string) : bool :=
  match s with
  | EmptyString => false
  | String _ _ => true
  end.

(** ** Objects used as dictionaries *)

(** Own properties, in creation order. *)
Definition jsobj (V : Type) : Type := list (string * V).

(** The property names every object literal inherits from
    [Object.prototype]. *)
Definition Object_prototype_keys : list string :=
  [ "constructor"; "__defineGetter__"; "__defineSetter__"; "hasOwnProperty";
    "__lookupGetter__"; "__lookupSetter__"; "isPrototypeOf";
    "propertyIsEnumerable"; "toString"; "valueOf"; "__proto__";
    "toLocaleString" ]%string.

Definition inherited (k : string) : bool :=
  existsb (String.eqb k) Object_prototype_keys.

(** The [length] property of an inherited member: the arity of the
    function, and nothing for [__proto__], which is [Object.prototype]
    itself. *)
Definition inheritedLength (k : string) : option Z :=
  if String.eqb k "__proto__" then None
  else if String.eqb k "__defineGetter__" || String.eqb k "__defineSetter__"
  then Some 2%Z
  else if String.eqb k "toString" || String.eqb k "valueOf"
          || String.eqb k "toLocaleString"
  then Some 0%Z
  else Some 1%Z.

Fixpoint getOwn {V : Type} (o : jsobj V) (k : string) : option V :=
  match o with
  | [] => None
  | (k', v) :: o' => if String.eqb k k' then Some v else getOwn o' k
  end.

Definition hasOwnProperty {V : Type} (o : jsobj V) (k : string) : bool :=
  match getOwn o k with
  | Some _ => true
  | None => false
  end.

(** What the read [o[k]] finds. *)
Inductive property (V : Type) : Type :=
| Own (v : V)
| Inherited
| Undefined.

Arguments Own {V} v.
Arguments Inherited {V}.
Arguments Undefined {V}.

Definition get {V : Type} (o : jsobj V) (k : string) : property V :=
  match getOwn o k with
  | Some v => Own v
  | None => if inherited k then Inherited else Undefined
  end.

Fixpoint update {V : Type} (o : jsobj V) (k : string) (v : V) : jsobj V :=
  match o with
  | [] => [(k, v)]
  | (k', v') :: o' =>
      if String.eqb k k' then (k', v) :: o' else (k', v') :: update o' k v
  end.

(** The write [o[k] = v] of a primitive value: an existing own property
    keeps its place, a new one goes last; writing a primitive to
    [__proto__] is ignored by the setter. *)
Definition set {V : Type} (o : jsobj V) (k : string) (v : V) : jsobj V :=
  if String.eqb k "__proto__" then o else update o k v.

(** *** Enumeration order

    [Object.keys] and [Object.entries] list array-index keys first, by
    ascending value, then the other keys in creation order. *)

Definition isDigit (c : ascii) : bool :=
  let n := code c in ((48 <=? n) && (n <=? 57))%N.

Fixpoint digitsValue (acc : N) (s : string) : option N :=
  match s with
  | EmptyString => Some acc
  | String c s' =>
      if isDigit c then digitsValue (acc * 10 + (code c - 48))%N s' else None
  end.

(** An array index is a canonical decimal numeral below 2^32 - 1. *)
Definition arrayIndex (k : string) : option N :=
  match k with
  | EmptyString => None
  | String c rest =>
      if (code c =? 48)%N && truthy rest then None
      else match digitsValue 0%N k with
           | Some n => if (n <? 4294967295)%N then Some n else None
           | None => None
           end
  end.

Fixpoint insertByIndex {V : Type} (e : N * (string * V))
  (l : list (N * (string * V))) : list (N * (string * V)) :=
  match l with
  | [] => [e]
  | e' :: l' =>
      if (fst e <=? fst e')%N then e :: l else e' :: insertByIndex e l'
  end.

Fixpoint indexed {V : Type} (o : jsobj V) : list (N * (string * V)) :=
  match o with
  | [] => []
  | (k, v) :: o' =>
      match arrayIndex k with
      | Some n => insertByIndex (n, (k, v)) (indexed o')
      | None => indexed o'
      end
  end.

Definition named {V : Type} (o : jsobj V) : jsobj V :=
  filter (fun kv => match arrayIndex (fst kv) with
                    | Some _ => false
                    | None => true
                    end) o.

Definition entries {V : Type} (o : jsobj V) : list (string * V) :=
  map snd (indexed o) ++ named o.

Definition keys {V : Type} (o : jsobj V) : list string :=
  map fst (entries o).

End JS.

Export JS (outcome, Returned, Thrown, TypeError, StorageError).

(* ------------------------------------------------------------------ *)
(** * Configuration constants (identical in the three programs) *)

Definition SUPPLY_MAC_NORMALIZED : string := "08:f9:e0:73:64:db".

Definition TIMEZONE : string := "Asia/Shanghai".

(* ------------------------------------------------------------------ *)
(** * MAC normalizers *)

Module Mac.

(** The class [[:\s-]]. *)
Definition isDelimiter (c : ascii) : bool :=
  let n := JS.code c in
  ((n =? 58) || JS.isWhiteSpace c || (n =? 45))%N.

(** part_000, [normalizeMacAddress]:
    [if (!mac) return null; return mac.replace(/[:\s-]/g, "").toLowerCase();] *)
Definition normalizeStrip (mac : option string) : option string :=
  match mac with
  | None => None
  | Some s =>
      if JS.truthy s
      then Some (JS.toLowerCase (JS.removeAll isDelimiter s))
      else None
  end.

(** part_001 (both programs), [normalizeMacAddress]: [mac.toLowerCase()].
    Calling a method on [null] or [undefined] throws. *)
Definition normalizeLower (mac : option string) : outcome string :=
  match mac with
  | None => Thrown TypeError
  | Some s => Returned (JS.toLowerCase s)
  end.

(** Textual renderings of a MAC address: the hexadecimal digits taken two by
    two, with [sep] between consecutive pairs. *)
Fixpoint render (sep : string) (digits : list ascii) : string :=
  match digits with
  | a :: b :: rest =>
      match rest with
      | [] => String a (String b EmptyString)
      | _ :: _ => String a (String b (sep ++ render sep rest))
      end
  | [a] => String a EmptyString
  | [] => EmptyString
  end.

Definition isHexDigit (c : ascii) : bool :=
  let n := JS.code c in
  ((48 <=? n) && (n <=? 57) || (65 <=? n) && (n <=? 70)
   || (97 <=? n) && (n <=? 102))%N.

(** Twelve hexadecimal digits, in any letter case. *)
Definition macDigits (digits : list ascii) : Prop :=
  List.length digits = 12%nat /\ forallb isHexDigit digits = true.

Definition sameDigits (d1 d2 : list ascii) : Prop :=
  map JS.lowerChar d1 = map JS.lowerChar d2.

End Mac.

(* ------------------------------------------------------------------ *)
(** * Energy arithmetic shared by the three aggregators *)

Record Energy : Type := mkEnergy { consumption : Q; supply : Q }.

(** [x.toFixed(3)] read back by [parseFloat]: the sign is set aside, the
    magnitude is rounded to the nearest multiple of 1/1000, the larger one on
    a tie. *)
Definition toFixed3 (x : Q) : Q :=
  if Qle_bool 0 x
  then Qmake (Qfloor (x * 1000 + (1 # 2))) 1000
  else - Qmake (Qfloor (- x * 1000 + (1 # 2))) 1000.

(** [Math.max(0, x)] *)
Definition mathMax0 (x : Q) : Q :=
  if Qle_bool x 0 then 0 else x.

(** [{ consumption: Math.max(0, parseFloat(c.toFixed(3))),
       supply: Math.max(0, parseFloat(s.toFixed(3))) }] *)
Definition report (consumptionEnergy supplyEnergy : Q) : Energy :=
  {| consumption := mathMax0 (toFixed3 consumptionEnergy);
     supply := mathMax0 (toFixed3 supplyEnergy) |}.

(** Running totals [(consumptionEnergy, supplyEnergy)], here as exact
    rationals; [Generic.totals] has them over the arithmetic of the
    runtime. *)
Definition totals : Type := (Q * Q)%type.

(** Where a device's delta goes. *)
Inductive target : Type :=
| ToSupply
| ToConsumption
| Dropped.

Definition credit (t : target) (energyDelta : Q) (acc : totals) : totals :=
  match t with
  | ToSupply => (fst acc, snd acc + energyDelta)
  | ToConsumption => (fst acc + energyDelta, snd acc)
  | Dropped => acc
  end.

(** A row of the time-series query: [{ mac_address, _value, _time }]. *)
Record Row : Type := mkRow
  { mac_address : option string;
    _value : Q;
    _time : Z }.

(** [readings.sort((a, b) => new Date(a._time) - new Date(b._time))]:
    a stable ascending sort on the instant. *)
Fixpoint insertByTime (r : Row) (l : list Row) : list Row :=
  match l with
  | [] => [r]
  | x :: l' =>
      if (_time r <=? _time x)%Z then r :: l else x :: insertByTime r l'
  end.

Definition sortByTime (readings : list Row) : list Row :=
  fold_right insertByTime [] readings.

(** [l[l.length - 1]] *)
Definition lastOf {A : Type} (l : list A) : option A :=
  nth_error l (List.length l - 1).

(** The body of the per-device callback up to [energyDelta]; [None] is the
    early [return] on fewer than two readings. *)
Definition energyDelta (readings : list Row) : option Q :=
  if (List.length readings <? 2)%nat then None
  else
    let sorted := sortByTime readings in
    match nth_error sorted 0, lastOf sorted with
    | Some firstReading, Some lastReading =>
        Some (_value lastReading - _value firstReading)
    | _, _ => None
    end.

(** [if (!o[k]) o[k] = []; o[k].push(x);]
    An inherited name is truthy, so no array is created and [push] is not a
    function. *)
Definition pushTo {A : Type} (o : JS.jsobj (list A)) (k : string) (x : A)
  : outcome (JS.jsobj (list A)) :=
  match JS.get o k with
  | JS.Own items => Returned (JS.update o k (items ++ [x]))
  | JS.Undefined => Returned (o ++ [(k, [x])])
  | JS.Inherited => Thrown TypeError
  end.

(** [data.forEach(...)] over a callback that may throw. *)
Fixpoint forEach {A S : Type} (f : S -> A -> outcome S) (l : list A) (s : S)
  : outcome S :=
  match l with
  | [] => Returned s
  | a :: l' => JS.bind (f s a) (forEach f l')
  end.

(** [roomId.toString() === room.toString()], for the room of the request. *)
Definition roomIs (room : option string) (roomId : string) : bool :=
  match room with
  | Some r => String.eqb roomId r
  | None => false
  end.

(** [if (room)] *)
Definition roomRequested (room : option string) : bool :=
  match room with
  | Some r => JS.truthy r
  | None => false
  end.

(** The callback of the per-device loop, on one entry [[mac, readings]]. *)
Definition addGroup (classify : string -> target) (acc : totals)
  (entry : string * list Row) : totals :=
  match energyDelta (snd entry) with
  | None => acc
  | Some delta => credit (classify (fst entry)) delta acc
  end.

(** The per-device loop shared by the two InfluxDB programs:
    [Object.entries(macGroups).forEach(([mac, readings]) => {...})]. *)
Definition sumGroups (classify : string -> target)
  (macGroups : JS.jsobj (list Row)) : totals :=
  fold_left (addGroup classify) (JS.entries macGroups) (0, 0).

(** A [room_id] as storage returns it: a number or a string. *)
Inductive scalar : Type :=
| Num (z : Z)
| Str (s : string).

Module Scalar.

Definition decimal (z : Z) : string :=
  DecimalString.NilZero.string_of_int (Z.to_int z).

Definition toString (v : scalar) : string :=
  match v with
  | Num z => decimal z
  | Str s => s
  end.

Definition truthy (v : scalar) : bool :=
  match v with
  | Num z => negb (z =? 0)%Z
  | Str s => JS.truthy s
  end.

End Scalar.

(** The classification chain of the two part_001 programs; the supply
    constant is compared as written. *)
Definition classifyFlat (macToRoomMap : JS.jsobj scalar) (room : option string)
  (normalizedMac : string) : target :=
  if String.eqb normalizedMac SUPPLY_MAC_NORMALIZED then ToSupply
  else if roomRequested room then
    match JS.getOwn macToRoomMap normalizedMac with
    | Some roomId =>
        if roomIs room (Scalar.toString roomId) then ToConsumption else Dropped
    | None => Dropped
    end
  else if JS.hasOwnProperty macToRoomMap normalizedMac then ToConsumption
  else Dropped.

(* ------------------------------------------------------------------ *)
(** * Calendar arithmetic: the part of dayjs the backends call *)

(** Modelled from the spec: dayjs and its utc and timezone plugins are
    dependencies that are not part of the sources.  Following section 3 of
    the specification the zone "Asia/Shanghai" is the fixed offset UTC+8; a
    dayjs value is the local wall-clock reading in that zone, and its
    instant is the number of milliseconds since the Unix epoch. *)
Module Dayjs.

Local Open Scope Z_scope.

(** [month] is zero-based as [d.month()] is; [date] is the day of the
    month. *)
Record t : Type := mk
  { year : Z; month : Z; date : Z;
    hour : Z; minute : Z; second : Z; millisecond : Z }.

Inductive unit : Type :=
| Hour
| Day
| Month
| Year.

Definition MS_PER_HOUR : Z := 3600000.
Definition MS_PER_DAY : Z := 86400000.

(** Offset of the zone, in milliseconds. *)
Definition utcOffset : Z := 8 * MS_PER_HOUR.

Definition isLeapYear (y : Z) : bool :=
  ((y mod 4 =? 0) && negb (y mod 100 =? 0)) || (y mod 400 =? 0).

Definition daysInMonth (y m : Z) : Z :=
  if m =? 1 then (if isLeapYear y then 29 else 28)
  else if (m =? 3) || (m =? 5) || (m =? 8) || (m =? 10) then 30
  else 31.

(** Days from 1970-01-01 to the given proleptic Gregorian date, [m]
    zero-based. *)
Definition daysFromCivil (y m d : Z) : Z :=
  let y' := if m <=? 1 then y - 1 else y in
  let era := y' / 400 in
  let yoe := y' - era * 400 in
  let mp := if m <=? 1 then m + 10 else m - 2 in
  let doy := (153 * mp + 2) / 5 + d - 1 in
  let doe := yoe * 365 + yoe / 4 - yoe / 100 + doy in
  era * 146097 + doe - 719468.

(** [d.valueOf()]: the instant, in milliseconds since the epoch. *)
Definition valueOf (d : t) : Z :=
  daysFromCivil (year d) (month d) (date d) * MS_PER_DAY
  + hour d * MS_PER_HOUR + minute d * 60000 + second d * 1000 + millisecond d
  - utcOffset.

(** A calendar date as the request carries it, ["YYYY-MM-DD"]; [isoMonth]
    counts from 1. *)
Record isoDate : Type := mkIso { isoYear : Z; isoMonth : Z; isoDay : Z }.

Definition wellFormed (i : isoDate) : Prop :=
  1 <= isoMonth i <= 12 /\
  1 <= isoDay i <= daysInMonth (isoYear i) (isoMonth i - 1).

(** [dayjs.tz(text, TIMEZONE)]: local midnight of a well-formed date. *)
Definition tz (i : isoDate) : t :=
  mk (isoYear i) (isoMonth i - 1) (isoDay i) 0 0 0 0.

Definition startOf (u : unit) (d : t) : t :=
  match u with
  | Hour => mk (year d) (month d) (date d) (hour d) 0 0 0
  | Day => mk (year d) (month d) (date d) 0 0 0 0
  | Month => mk (year d) (month d) 1 0 0 0 0
  | Year => mk (year d) 0 1 0 0 0 0
  end.

Definition endOf (u : unit) (d : t) : t :=
  match u with
  | Hour => mk (year d) (month d) (date d) (hour d) 59 59 999
  | Day => mk (year d) (month d) (date d) 23 59 59 999
  | Month => mk (year d) (month d) (daysInMonth (year d) (month d)) 23 59 59 999
  | Year => mk (year d) 11 31 23 59 59 999
  end.

(** The same wall-clock time on the following calendar day. *)
Definition nextDay (d : t) : t :=
  if date d <? daysInMonth (year d) (month d)
  then mk (year d) (month d) (date d + 1)
          (hour d) (minute d) (second d) (millisecond d)
  else if month d <? 11
  then mk (year d) (month d + 1) 1
          (hour d) (minute d) (second d) (millisecond d)
  else mk (year d + 1) 0 1 (hour d) (minute d) (second d) (millisecond d).

(** [d.add(1, unit)].  Adding a month or a year keeps the day of the month
    unless the target month is shorter. *)
Definition add1 (u : unit) (d : t) : t :=
  match u with
  | Hour =>
      if hour d <? 23
      then mk (year d) (month d) (date d)
              (hour d + 1) (minute d) (second d) (millisecond d)
      else nextDay (mk (year d) (month d) (date d)
                       0 (minute d) (second d) (millisecond d))
  | Day => nextDay d
  | Month =>
      let y := if month d <? 11 then year d else year d + 1 in
      let m := if month d <? 11 then month d + 1 else 0 in
      mk y m (Z.min (date d) (daysInMonth y m))
         (hour d) (minute d) (second d) (millisecond d)
  | Year =>
      mk (year d + 1) (month d)
         (Z.min (date d) (daysInMonth (year d + 1) (month d)))
         (hour d) (minute d) (second d) (millisecond d)
  end.

(** [a.isBefore(b)] *)
Definition isBefore (a b : t) : bool := valueOf a <? valueOf b.

(** [a.isSame(b, unit)]: [b] lies within [a]'s unit. *)
Definition isSame (a b : t) (u : unit) : bool :=
  (valueOf (startOf u a) <=? valueOf b) && (valueOf b <=? valueOf (endOf u a)).

(** *** [format] for the four patterns in use *)

Definition pad (width : nat) (z : Z) : string :=
  let s := Scalar.decimal z in
  (string_of_list_ascii (repeat "0"%char (width - String.length s)) ++ s)%string.

Definition monthName (m : Z) : string :=
  nth (Z.to_nat m)
    [ "January"; "February"; "March"; "April"; "May"; "June"; "July";
      "August"; "September"; "October"; "November"; "December" ]%string
    ""%string.

(** ["HH:00"] *)
Definition format_HH_00 (d : t) : string := (pad 2 (hour d) ++ ":00")%string.
(** ["MMM DD"] *)
Definition format_MMM_DD (d : t) : string :=
  (substring 0 3 (monthName (month d)) ++ " " ++ pad 2 (date d))%string.
(** ["MMMM"] *)
Definition format_MMMM (d : t) : string := monthName (month d).
(** ["YYYY"] *)
Definition format_YYYY (d : t) : string := pad 4 (year d).

End Dayjs.

(* ------------------------------------------------------------------ *)
(** * Calendar period generation (the same text in the three programs) *)

Module Periods.

Record Period : Type := mkPeriod
  { local : Dayjs.t;
    utcStart : Z;       (* the instant [toISOString()] prints *)
    utcEnd : Z;
    timestamp : string;
    fullTimestamp : Z;  (* the instant of [toDate()] *)
    period : Z }.

Record Config : Type := mkConfig
  { unit : Dayjs.unit;
    format : Dayjs.t -> string;
    start : Dayjs.t;
    end_ : Dayjs.t;
    getValue : Dayjs.t -> Z }.

Definition configs (localInputDate : Dayjs.t) : JS.jsobj Config :=
  [ ("hour"%string,
     mkConfig Dayjs.Hour Dayjs.format_HH_00
       (Dayjs.startOf Dayjs.Day localInputDate)
       (Dayjs.endOf Dayjs.Day localInputDate) Dayjs.hour);
    ("day"%string,
     mkConfig Dayjs.Day Dayjs.format_MMM_DD
       (Dayjs.startOf Dayjs.Month localInputDate)
       (Dayjs.endOf Dayjs.Month localInputDate) Dayjs.date);
    ("month"%string,
     mkConfig Dayjs.Month Dayjs.format_MMMM
       (Dayjs.startOf Dayjs.Year localInputDate)
       (Dayjs.endOf Dayjs.Year localInputDate) Dayjs.month);
    ("year"%string,
     mkConfig Dayjs.Year Dayjs.format_YYYY
       (Dayjs.tz (Dayjs.mkIso 2023 1 1))
       (Dayjs.endOf Dayjs.Year localInputDate) Dayjs.year) ].

Definition bucket (config : Config) (current : Dayjs.t) : Period :=
  {| local := current;
     utcStart := Dayjs.valueOf (Dayjs.startOf (unit config) current);
     utcEnd := Dayjs.valueOf (Dayjs.endOf (unit config) current);
     timestamp := format config current;
     fullTimestamp := Dayjs.valueOf current;
     period := getValue config current |}.

(** The [while] loop; [None] when [fuel] iterations were not enough. *)
Fixpoint collect (fuel : nat) (config : Config) (current : Dayjs.t)
  (periods : list Period) : option (list Period) :=
  match fuel with
  | O => None
  | S fuel' =>
      if Dayjs.isBefore current (end_ config)
         || Dayjs.isSame current (end_ config) (unit config)
      then collect fuel' config (Dayjs.add1 (unit config) current)
             (periods ++ [bucket config current])
      else Some periods
  end.

(** [getTimePeriods(period, dateRange, inputDate)].  An inherited property
    name makes [config] truthy with no [start], and the loop condition then
    calls a method of [undefined]. *)
Definition getTimePeriods {R : Type} (fuel : nat) (period : string)
  (dateRange : R) (inputDate : Dayjs.isoDate)
  : option (outcome (list Period)) :=
  let periods := [] in
  let localInputDate := Dayjs.tz inputDate in
  match JS.get (configs localInputDate) period with
  | JS.Undefined => Some (Returned periods)
  | JS.Inherited => Some (Thrown TypeError)
  | JS.Own config =>
      option_map Returned (collect fuel config (start config) periods)
  end.

(** [{ start, stop }] (named [{ gte, lte }] in the Elasticsearch program). *)
Record DateRange : Type := mkRange { rangeStart : Z; rangeStop : Z }.

Definition ranges (localDate : Dayjs.t) : JS.jsobj DateRange :=
  [ ("hour"%string,
     mkRange (Dayjs.valueOf (Dayjs.startOf Dayjs.Day localDate))
             (Dayjs.valueOf (Dayjs.endOf Dayjs.Day localDate)));
    ("day"%string,
     mkRange (Dayjs.valueOf (Dayjs.startOf Dayjs.Month localDate))
             (Dayjs.valueOf (Dayjs.endOf Dayjs.Month localDate)));
    ("month"%string,
     mkRange (Dayjs.valueOf (Dayjs.startOf Dayjs.Year localDate))
             (Dayjs.valueOf (Dayjs.endOf Dayjs.Year localDate)));
    ("year"%string,
     mkRange 1672531200000 (* 2023-01-01T00:00:00.000Z *)
             (Dayjs.valueOf (Dayjs.endOf Dayjs.Year localDate))) ].

(** What [ranges[period] || ranges.hour] evaluates to. *)
Inductive rangeValue : Type :=
| RangeOf (r : DateRange)
| InheritedMember.

Definition buildDateRangeQuery (period : string) (date : Dayjs.isoDate)
  : rangeValue :=
  let localDate := Dayjs.tz date in
  match JS.get (ranges localDate) period with
  | JS.Own r => RangeOf r
  | JS.Inherited => InheritedMember
  | JS.Undefined =>
      RangeOf (mkRange (Dayjs.valueOf (Dayjs.startOf Dayjs.Day localDate))
                       (Dayjs.valueOf (Dayjs.endOf Dayjs.Day localDate)))
  end.

End Periods.

(* ------------------------------------------------------------------ *)
(** * Storage rows, the mapping cache and the HTTP boundary *)

(** A field of a storage row: absent ([undefined]), [null], or a value. *)
Inductive field (A : Type) : Type :=
| Missing
| Null
| Value (v : A).

Arguments Missing {A}.
Arguments Null {A}.
Arguments Value {A} v.

(** A row of the [meters] measurement (or the [_source] of a hit of
    [meters_idx]). *)
Record MeterRow : Type := mkMeterRow
  { meter_mac : option string;
    room_id : field scalar }.

Definition CACHE_DURATION : Z := (5 * 60 * 1000)%Z.

(** The module-level variables [metersCache] and [cacheTimestamp]. *)
Record Cache (M : Type) : Type := mkCache
  { metersCache : option M;
    cacheTimestamp : option Z }.

Arguments mkCache {M} metersCache cacheTimestamp.
Arguments metersCache {M} c.
Arguments cacheTimestamp {M} c.

Definition emptyCache {M : Type} : Cache M := mkCache None None.

(** [metersCache && cacheTimestamp && now - cacheTimestamp < CACHE_DURATION];
    the result is the cached value when the test holds. *)
Definition cacheHit {M : Type} (now : Z) (cache : Cache M) : option M :=
  match metersCache cache, cacheTimestamp cache with
  | Some m, Some stamp =>
      if negb (stamp =? 0)%Z && (now - stamp <? CACHE_DURATION)%Z
      then Some m else None
  | _, _ => None
  end.

(** [getMetersMapping] around a loader for the rows: the cache test, the
    [try] block that queries storage and builds the mapping, the cache
    update, and the [catch] block [return metersCache || empty]. *)
Definition cachedMapping {M : Type} (empty : M)
  (build : list MeterRow -> outcome M)
  (now : Z) (query : outcome (list MeterRow)) (cache : Cache M)
  : outcome M * Cache M :=
  match cacheHit now cache with
  | Some m => (Returned m, cache)
  | None =>
      match JS.bind query build with
      | Returned mappingData =>
          (Returned mappingData, mkCache (Some mappingData) (Some now))
      | Thrown error =>
          (Returned match metersCache cache with
                    | Some m => m
                    | None => empty
                    end,
           cache)
      end
  end.

(** The flat mapping of the two part_001 programs:
    [if (meter_mac && room_id) macToRoomMap[normalizeMacAddress(meter_mac)] = room_id]. *)
Definition addFlat (macToRoomMap : JS.jsobj scalar) (row : MeterRow)
  : outcome (JS.jsobj scalar) :=
  match meter_mac row, room_id row with
  | Some mac, Value roomId =>
      if JS.truthy mac && Scalar.truthy roomId
      then JS.bind (Mac.normalizeLower (Some mac))
             (fun normalizedMac =>
                Returned (JS.set macToRoomMap normalizedMac roomId))
      else Returned macToRoomMap
  | _, _ => Returned macToRoomMap
  end.

Definition buildFlat (rows : list MeterRow) : outcome (JS.jsobj scalar) :=
  forEach addFlat rows [].

Definition getMetersMappingFlat :=
  cachedMapping (M := JS.jsobj scalar) [] buildFlat.

(** ** The [/api/data] request and response *)

Module Request.

(** What [dayjs(date).isValid()] makes of the [date] parameter. *)
Inductive dateText : Type :=
| Malformed
| Wellformed (d : Dayjs.isoDate).

Record t : Type := mk
  { period : option string;
    room : option string;
    date : option dateText }.

(** [["hour", "day", "month", "year"].includes(period)] *)
Definition validPeriod (period : string) : bool :=
  existsb (String.eqb period) ["hour"; "day"; "month"; "year"]%string.

End Request.

Module Report.

(** One element of [data]:
    [{ timestamp, fullTimestamp, period, utcStart, utcEnd, consumption, supply }]. *)
Record Entry : Type := mkEntry
  { timestamp : string;
    fullTimestamp : Z;
    period : Z;
    utcStart : Z;
    utcEnd : Z;
    energy : Energy }.

Definition entry (timePeriod : Periods.Period) (e : Energy) : Entry :=
  {| timestamp := Periods.timestamp timePeriod;
     fullTimestamp := Periods.fullTimestamp timePeriod;
     period := Periods.period timePeriod;
     utcStart := Periods.utcStart timePeriod;
     utcEnd := Periods.utcEnd timePeriod;
     energy := e |}.

(** [results.sort((a, b) => a.period - b.period)] *)
Fixpoint insertByPeriod (e : Entry) (l : list Entry) : list Entry :=
  match l with
  | [] => [e]
  | x :: l' =>
      if (period e <=? period x)%Z then e :: l else x :: insertByPeriod e l'
  end.

Definition sortByPeriod (results : list Entry) : list Entry :=
  fold_right insertByPeriod [] results.

Record Meta : Type := mkMeta
  { metaPeriod : string;
    metaRoom : option string;
    metaDate : Dayjs.isoDate;
    metaTimezone : string;
    totalRecords : nat;
    availableRooms : option (list string);
    macMappingCount : option nat }.

Inductive Body : Type :=
| Failure (error : string) (details : option JS.error)
| Data (data : list Entry) (message : option string) (meta : option Meta).

Record Response : Type := mkResponse { status : Z; body : Body }.

Definition badPeriod : Response :=
  mkResponse 400 (Failure "Invalid period. Use: hour, day, month, or year" None).

Definition badDate : Response :=
  mkResponse 400 (Failure "Invalid date format. Use YYYY-MM-DD." None).

(** The [catch] block of the handler. *)
Definition failed (e : JS.error) : Response :=
  mkResponse 500 (Failure "API request failed" (Some e)).

(** [res.json(body)] *)
Definition json (b : Body) : Response := mkResponse 200 b.

(** [keys.join(", ")] *)
Fixpoint join (l : list string) : string :=
  match l with
  | [] => ""
  | [k] => k
  | k :: l' => k ++ ", " ++ join l'
  end.

End Report.

(** The per-period body of [getEnergyReadings], given the energy computed
    from the period's query result. *)
Definition readPeriods (compute : Periods.Period -> outcome Energy)
  (timePeriods : list Periods.Period) : outcome (list Report.Entry) :=
  JS.bind
    (forEach (fun results timePeriod =>
                JS.bind (compute timePeriod) (fun e =>
                  Returned (results ++ [Report.entry timePeriod e])))
       timePeriods [])
    (fun results => Returned (Report.sortByPeriod results)).

Definition noEnergy : Energy := {| consumption := 0; supply := 0 |}.

(* ------------------------------------------------------------------ *)
(** * part_000: InfluxDB backend with the reverse room index *)

Module Influx.

Definition normalizeMacAddress := Mac.normalizeStrip.

Record MacInfo : Type := mkMacInfo { normalized : string; original : string }.

Record MappingData : Type := mkMappingData
  { macToRoomMap : JS.jsobj string;
    roomToMacsMap : JS.jsobj (list MacInfo);
    originalMacFormats : JS.jsobj string }.

Definition emptyMapping : MappingData := mkMappingData [] [] [].

(** The body of [rows.forEach] in [getMetersMapping]. *)
Definition addRow (m : MappingData) (row : MeterRow) : outcome MappingData :=
  match meter_mac row with
  | Some originalMac =>
      if JS.truthy originalMac then
        match room_id row with
        | Missing => Returned m
        | Null => Thrown TypeError (* [null.toString()] *)
        | Value v =>
            let roomId := Scalar.toString v in
            match normalizeMacAddress (Some originalMac) with
            | Some normalizedMac =>
                if JS.truthy normalizedMac then
                  JS.bind
                    (pushTo (roomToMacsMap m) roomId
                       (mkMacInfo normalizedMac originalMac))
                    (fun rooms =>
                       Returned
                         {| macToRoomMap :=
                              JS.set (macToRoomMap m) normalizedMac roomId;
                            roomToMacsMap := rooms;
                            originalMacFormats :=
                              JS.set (originalMacFormats m) normalizedMac
                                originalMac |})
                else Returned m
            | None => Returned m
            end
        end
      else Returned m
  | None => Returned m
  end.

Definition buildMapping (rows : list MeterRow) : outcome MappingData :=
  forEach addRow rows emptyMapping.

Definition getMetersMapping := cachedMapping emptyMapping buildMapping.

(** The classification chain inside [calculateEnergyFromInfluxData]. *)
Definition classify (macToRoomMap : JS.jsobj string) (room : option string)
  (normalizedMac : string) : target :=
  match normalizeMacAddress (Some SUPPLY_MAC_NORMALIZED) with
  | Some normalizedSupplyMac =>
      if String.eqb normalizedMac normalizedSupplyMac then ToSupply
      else if roomRequested room then
        match JS.get macToRoomMap normalizedMac with
        | JS.Own macRoom =>
            if JS.truthy macRoom && roomIs room macRoom
            then ToConsumption else Dropped
        | JS.Undefined => Dropped
        | JS.Inherited =>
            (* not reached: an inherited name never becomes a key of
               [macGroups], [pushTo] throws on it *)
            Dropped
        end
      else if JS.hasOwnProperty macToRoomMap normalizedMac then ToConsumption
      else Dropped
  | None => Dropped
  end.

(** [data.forEach((row) => { const normalizedMac = ...; if (normalizedMac) {...} })] *)
Definition groupRows (data : list Row) : outcome (JS.jsobj (list Row)) :=
  forEach
    (fun macGroups row =>
       match normalizeMacAddress (mac_address row) with
       | Some normalizedMac =>
           if JS.truthy normalizedMac
           then pushTo macGroups normalizedMac row
           else Returned macGroups
       | None => Returned macGroups
       end)
    data [].

Definition calculateEnergyFromInfluxData (data : list Row)
  (mappingData : MappingData) (room : option string) : outcome Energy :=
  JS.bind (groupRows data) (fun macGroups =>
    let sums := sumGroups (classify (macToRoomMap mappingData) room) macGroups in
    Returned (report (fst sums) (snd sums))).

(** The storage query of one period: bounds, MAC filter, rows or failure. *)
Definition Storage : Type := Z -> Z -> list string -> outcome (list Row).

(** [getEnergyReadings]; the batches of ten only bound how many queries are
    in flight, any failure is logged and thrown again. *)
Definition getEnergyReadings {R : Type} (fuel : nat) (collectRows : Storage)
  (period : string) (dateRange : R) (macFilter : list string)
  (inputDate : Dayjs.isoDate) (mappingData : MappingData)
  (room : option string) : option (outcome (list Report.Entry)) :=
  option_map
    (fun generated =>
       JS.bind generated
         (readPeriods (fun timePeriod =>
            JS.bind
              (collectRows (Periods.utcStart timePeriod)
                 (Periods.utcEnd timePeriod) macFilter)
              (fun data =>
                 if (0 <? List.length data)%nat
                 then calculateEnergyFromInfluxData data mappingData room
                 else Returned noEnergy))))
    (Periods.getTimePeriods fuel period dateRange inputDate).

(** The report for a room without meters. *)
Definition noMeters (period : string) (room : string) (date : Dayjs.isoDate)
  (mappingData : MappingData) : Report.Response :=
  Report.json
    (Report.Data []
       (Some ("No meters found for room " ++ room ++ ". Available rooms: "
              ++ Report.join (JS.keys (roomToMacsMap mappingData)))%string)
       (Some {| Report.metaPeriod := period;
                Report.metaRoom := Some room;
                Report.metaDate := date;
                Report.metaTimezone := TIMEZONE;
                Report.totalRecords := 0;
                Report.availableRooms :=
                  Some (JS.keys (roomToMacsMap mappingData));
                Report.macMappingCount := None |})).

(** What the room block of the handler decides: a MAC filter to query
    with, or the early response. *)
Definition roomFilter (period : string) (room : option string)
  (date : Dayjs.isoDate) (mappingData : MappingData)
  : outcome (list string + Report.Response) :=
  match room with
  | Some r =>
      if JS.truthy r then
        match JS.get (roomToMacsMap mappingData) r with
        | JS.Own macsForRoom =>
            if (0 <? List.length macsForRoom)%nat
            then Returned (inl (map original macsForRoom))
            else Returned (inr (noMeters period r date mappingData))
        | JS.Undefined => Returned (inr (noMeters period r date mappingData))
        | JS.Inherited =>
            (* [roomToMacsMap[room]] is an inherited member: with a positive
               [length] the [map] call is not a function *)
            match JS.inheritedLength r with
            | Some n =>
                if (0 <? n)%Z then Thrown TypeError
                else Returned (inr (noMeters period r date mappingData))
            | None => Returned (inr (noMeters period r date mappingData))
            end
        end
      else Returned (inl [])
  | None => Returned (inl [])
  end.

(** The handler of [GET /api/data].  [today] is the default date, [now] the
    clock, [meters] the outcome of the mapping query should it be issued. *)
Definition handleData (fuel : nat) (now : Z) (today : Dayjs.isoDate)
  (meters : outcome (list MeterRow)) (collectRows : Storage)
  (cache : Cache MappingData) (query : Request.t)
  : option (Report.Response * Cache MappingData) :=
  let period := match Request.period query with
                | Some p => p
                | None => "hour"%string
                end in
  let room := Request.room query in
  let date := match Request.date query with
              | Some d => d
              | None => Request.Wellformed today
              end in
  if negb (Request.validPeriod period) then Some (Report.badPeriod, cache)
  else
    match date with
    | Request.Malformed => Some (Report.badDate, cache)
    | Request.Wellformed date =>
        let (loaded, cache') := getMetersMapping now meters cache in
        match loaded with
        | Thrown e => Some (Report.failed e, cache')
        | Returned mappingData =>
            let dateRange := Periods.buildDateRangeQuery period date in
            match roomFilter period room date mappingData with
            | Thrown e => Some (Report.failed e, cache')
            | Returned (inr early) => Some (early, cache')
            | Returned (inl macFilter) =>
                match
                  getEnergyReadings fuel collectRows period dateRange
                    macFilter date mappingData room
                with
                | None => None
                | Some (Thrown e) => Some (Report.failed e, cache')
                | Some (Returned result) =>
                    Some
                      (Report.json
                         (Report.Data result None
                            (Some
                               {| Report.metaPeriod := period;
                                  Report.metaRoom := room;
                                  Report.metaDate := date;
                                  Report.metaTimezone := TIMEZONE;
                                  Report.totalRecords := List.length result;
                                  Report.availableRooms :=
                                    Some (JS.keys (roomToMacsMap mappingData));
                                  Report.macMappingCount :=
                                    Some (List.length
                                            (JS.keys (macToRoomMap mappingData)))
                               |})),
                       cache')
                end
            end
        end
    end.

End Influx.

(* ------------------------------------------------------------------ *)
(** * The room block and the reports shared by the two part_001 programs *)

(** [Object.entries(macToRoomMap)
       .filter(([mac, roomId]) => roomId.toString() === room.toString())
       .map(([mac]) => mac)] *)
Definition macsForRoomFlat (macToRoomMap : JS.jsobj scalar) (room : string)
  : list string :=
  map fst
    (filter (fun entry => String.eqb (Scalar.toString (snd entry)) room)
       (JS.entries macToRoomMap)).

Definition noMetersFlat : Report.Response :=
  Report.json
    (Report.Data [] (Some "No meters found for the selected room."%string) None).

Definition roomFilterFlat (macToRoomMap : JS.jsobj scalar)
  (room : option string) : list string + Report.Response :=
  match room with
  | Some r =>
      if JS.truthy r then
        let macsForRoom := macsForRoomFlat macToRoomMap r in
        if (0 <? List.length macsForRoom)%nat then inl macsForRoom
        else inr noMetersFlat
      else inl []
  | None => inl []
  end.

Definition reportFlat (period : string) (room : option string)
  (date : Dayjs.isoDate) (result : list Report.Entry) : Report.Response :=
  Report.json
    (Report.Data result None
       (Some {| Report.metaPeriod := period;
                Report.metaRoom := room;
                Report.metaDate := date;
                Report.metaTimezone := TIMEZONE;
                Report.totalRecords := List.length result;
                Report.availableRooms := None;
                Report.macMappingCount := None |})).

(** The handler of [GET /api/data] of the two part_001 programs, around
    their [getEnergyReadings]. *)
Definition handleDataFlat
  (getEnergyReadings :
     string -> Periods.rangeValue -> list string -> Dayjs.isoDate ->
     JS.jsobj scalar -> option string -> option (outcome (list Report.Entry)))
  (now : Z) (today : Dayjs.isoDate) (meters : outcome (list MeterRow))
  (cache : Cache (JS.jsobj scalar)) (query : Request.t)
  : option (Report.Response * Cache (JS.jsobj scalar)) :=
  let period := match Request.period query with
                | Some p => p
                | None => "hour"%string
                end in
  let room := Request.room query in
  let date := match Request.date query with
              | Some d => d
              | None => Request.Wellformed today
              end in
  if negb (Request.validPeriod period) then Some (Report.badPeriod, cache)
  else
    match date with
    | Request.Malformed => Some (Report.badDate, cache)
    | Request.Wellformed date =>
        let (loaded, cache') := getMetersMappingFlat now meters cache in
        match loaded with
        | Thrown e => Some (Report.failed e, cache')
        | Returned macToRoomMap =>
            let dateRange := Periods.buildDateRangeQuery period date in
            match roomFilterFlat macToRoomMap room with
            | inr early => Some (early, cache')
            | inl macFilter =>
                match
                  getEnergyReadings period dateRange macFilter date
                    macToRoomMap room
                with
                | None => None
                | Some (Thrown e) => Some (Report.failed e, cache')
                | Some (Returned result) =>
                    Some (reportFlat period room date result, cache')
                end
            end
        end
    end.

(* ------------------------------------------------------------------ *)
(** * part_001, second program: InfluxDB backend with a flat mapping *)

Module InfluxFlat.

Definition normalizeMacAddress := Mac.normalizeLower.

Definition getMetersMapping := getMetersMappingFlat.

(** The key [row.mac_address] of [macGroups[row.mac_address]]: a missing
    value is coerced to the property name ["undefined"]. *)
Definition propertyKey (mac : option string) : string :=
  match mac with
  | Some s => s
  | None => "undefined"
  end.

Definition groupRows (data : list Row) : outcome (JS.jsobj (list Row)) :=
  forEach (fun macGroups row => pushTo macGroups (propertyKey (mac_address row)) row)
    data [].

(** [normalizeMacAddress(macAddress)] on an enumerated key, which is always a
    string. *)
Definition normalizedKey (macAddress : string) : string :=
  JS.toLowerCase macAddress.

(** The classification chain on an enumerated key. *)
Definition classify (macToRoomMap : JS.jsobj scalar) (room : option string)
  (macAddress : string) : target :=
  classifyFlat macToRoomMap room (normalizedKey macAddress).

Definition calculateEnergyFromInfluxData (data : list Row)
  (macToRoomMap : JS.jsobj scalar) (room : option string) : outcome Energy :=
  JS.bind (groupRows data) (fun macGroups =>
    let sums := sumGroups (classify macToRoomMap room) macGroups in
    Returned (report (fst sums) (snd sums))).

Definition Storage : Type := Z -> Z -> list string -> outcome (list Row).

Definition getEnergyReadings {R : Type} (fuel : nat) (collectRows : Storage)
  (period : string) (dateRange : R) (macFilter : list string)
  (inputDate : Dayjs.isoDate) (macToRoomMap : JS.jsobj scalar)
  (room : option string) : option (outcome (list Report.Entry)) :=
  option_map
    (fun generated =>
       JS.bind generated
         (readPeriods (fun timePeriod =>
            JS.bind
              (collectRows (Periods.utcStart timePeriod)
                 (Periods.utcEnd timePeriod) macFilter)
              (fun data =>
                 if (0 <? List.length data)%nat
                 then calculateEnergyFromInfluxData data macToRoomMap room
                 else Returned noEnergy))))
    (Periods.getTimePeriods fuel period dateRange inputDate).

Definition handleData (fuel : nat) (now : Z) (today : Dayjs.isoDate)
  (meters : outcome (list MeterRow)) (collectRows : Storage) :=
  handleDataFlat (getEnergyReadings fuel collectRows) now today meters.

End InfluxFlat.

(* ------------------------------------------------------------------ *)
(** * part_001, first program: Elasticsearch backend *)

Module Elastic.

Definition normalizeMacAddress := Mac.normalizeLower.

Definition getMetersMapping := getMetersMappingFlat.

(** One hit of a [top_hits] aggregation: [_source.energy], [_source.log_datetime]. *)
Record Hit : Type := mkHit { energy : Q; log_datetime : Z }.

(** One bucket of the [by_mac] terms aggregation. *)
Record MacBucket : Type := mkMacBucket
  { key : string;
    first_energy : list Hit;
    last_energy : list Hit }.

(** [if (firstReading && lastReading)
       energyDelta = lastReading._source.energy - firstReading._source.energy] *)
Definition bucketDelta (macBucket : MacBucket) : option Q :=
  match hd_error (first_energy macBucket), hd_error (last_energy macBucket) with
  | Some firstReading, Some lastReading =>
      Some (energy lastReading - energy firstReading)
  | _, _ => None
  end.

(** The callback of [buckets.forEach]. *)
Definition addBucket (macToRoomMap : JS.jsobj scalar) (room : option string)
  (acc : totals) (macBucket : MacBucket) : totals :=
  let normalizedMac := JS.toLowerCase (key macBucket) in
  match bucketDelta macBucket with
  | Some delta =>
      credit (classifyFlat macToRoomMap room normalizedMac) delta acc
  | None => acc
  end.

Definition calculateEnergyFromBuckets (buckets : list MacBucket)
  (macToRoomMap : JS.jsobj scalar) (room : option string) : Energy :=
  let sums := fold_left (addBucket macToRoomMap room) buckets (0, 0) in
  report (fst sums) (snd sums).

(** The search of one period: bounds, MAC filter, and the buckets of
    [response.aggregations?.by_mac?.buckets] when present, or failure. *)
Definition Storage : Type :=
  Z -> Z -> list string -> outcome (option (list MacBucket)).

Definition getEnergyReadings {R : Type} (fuel : nat) (search : Storage)
  (period : string) (dateRange : R) (macFilter : list string)
  (inputDate : Dayjs.isoDate) (macToRoomMap : JS.jsobj scalar)
  (room : option string) : option (outcome (list Report.Entry)) :=
  option_map
    (fun generated =>
       JS.bind generated
         (readPeriods (fun timePeriod =>
            JS.bind
              (search (Periods.utcStart timePeriod)
                 (Periods.utcEnd timePeriod) macFilter)
              (fun buckets =>
                 match buckets with
                 | Some (b :: bs) =>
                     Returned
                       (calculateEnergyFromBuckets (b :: bs) macToRoomMap room)
                 | _ => Returned noEnergy
                 end))))
    (Periods.getTimePeriods fuel period dateRange inputDate).

Definition handleData (fuel : nat) (now : Z) (today : Dayjs.isoDate)
  (meters : outcome (list MeterRow)) (search : Storage) :=
  handleDataFlat (getEnergyReadings fuel search) now today meters.

End Elastic.

(* ------------------------------------------------------------------ *)
(** * The aggregation as section 4.5 of the specification words it

    Readings are grouped by device; a group of fewer than two readings
    contributes zero; otherwise the delta is the value of the latest
    reading minus the value of the earliest one; the delta is classified
    and added to one of the two totals, which are rounded and clamped at
    the end. *)

Module Spec.

Section Aggregate.

(** The device a row is attributed to; [None] when the row is skipped. *)
Variable deviceOf : Row -> option string.
Variable classify : string -> target.

Definition belongsTo (device : string) (r : Row) : bool :=
  match deviceOf r with
  | Some d => String.eqb d device
  | None => false
  end.

Definition readingsOf (device : string) (data : list Row) : list Row :=
  filter (belongsTo device) data.

Definition devices (data : list Row) : list string :=
  nodup string_dec
    (flat_map (fun r => match deviceOf r with
                        | Some d => [d]
                        | None => []
                        end) data).

(** The reading with the least timestamp, the first such in the list. *)
Fixpoint earliest (readings : list Row) : option Row :=
  match readings with
  | [] => None
  | r :: rest =>
      match earliest rest with
      | None => Some r
      | Some best => if (_time r <=? _time best)%Z then Some r else Some best
      end
  end.

(** The reading with the greatest timestamp, the last such in the list. *)
Fixpoint latest (readings : list Row) : option Row :=
  match readings with
  | [] => None
  | r :: rest =>
      match latest rest with
      | None => Some r
      | Some best => if (_time best <? _time r)%Z then Some r else Some best
      end
  end.

Definition delta (readings : list Row) : Q :=
  if (List.length readings <? 2)%nat then 0
  else match earliest readings, latest readings with
       | Some e, Some l => _value l - _value e
       | _, _ => 0
       end.

Definition sums (data : list Row) : totals :=
  fold_left
    (fun acc device => credit (classify device) (delta (readingsOf device data)) acc)
    (devices data) (0, 0).

Definition aggregate (data : list Row) : Energy :=
  report (fst (sums data)) (snd (sums data)).

(** Some row carries a device name that an object inherits from
    [Object.prototype]. *)
Definition inheritedName (data : list Row) : bool :=
  existsb (fun r => match deviceOf r with
                    | Some d => JS.inherited d
                    | None => false
                    end) data.

End Aggregate.

(** The groups of the specification: every device with its readings. *)
Definition groups (deviceOf : Row -> option string) (data : list Row)
  : JS.jsobj (list Row) :=
  map (fun d => (d, readingsOf deviceOf d data)) (devices deviceOf data).

(** Timestamps are pairwise distinct within each device group. *)
Definition distinctTimes (deviceOf : Row -> option string) (data : list Row)
  : Prop :=
  forall device, NoDup (map _time (readingsOf deviceOf device data)).

(** Ascending order of the instants. *)
Definition byTime (a b : Row) : Prop := (_time a <= _time b)%Z.

End Spec.

(** ** The grouping loop, seen through the device key of a row *)

(** The callback of [data.forEach] once the device key is known. *)
Definition byDevice (deviceOf : Row -> option string)
  (macGroups : JS.jsobj (list Row)) (row : Row)
  : outcome (JS.jsobj (list Row)) :=
  match deviceOf row with
  | Some k => pushTo macGroups k row
  | None => Returned macGroups
  end.

(** No own key of the object is a name inherited from [Object.prototype]. *)
Definition ownKeysPlain (g : JS.jsobj (list Row)) : Prop :=
  forall k, In k (map fst g) -> JS.inherited k = false.

(** How a group grows: what was there, followed by the new rows. *)
Definition grown (before : option (list Row)) (rows : list Row)
  : option (list Row) :=
  match before, rows with
  | Some old, _ => Some (old ++ rows)
  | None, [] => None
  | None, _ :: _ => Some rows
  end.

(** The device key of a row in part_000: the normalized address when it is
    truthy. *)
Definition influxDevice (r : Row) : option string :=
  match Influx.normalizeMacAddress (mac_address r) with
  | Some normalizedMac =>
      if JS.truthy normalizedMac then Some normalizedMac else None
  | None => None
  end.

(** The device key of a row in the second program of part_001: the address
    as stored. *)
Definition flatDevice (r : Row) : option string :=
  Some (InfluxFlat.propertyKey (mac_address r)).

(** The supply meter as each program recognises it among its device keys. *)
Definition influxSupply (normalizedMac : string) : bool :=
  match Influx.normalizeMacAddress (Some SUPPLY_MAC_NORMALIZED) with
  | Some normalizedSupplyMac => String.eqb normalizedMac normalizedSupplyMac
  | None => false
  end.

Definition flatSupply (macAddress : string) : bool :=
  String.eqb (JS.toLowerCase macAddress) SUPPLY_MAC_NORMALIZED.

(** The rows of the devices selected by [keep]; a row without a device goes
    with [orphans]. *)
Definition rowsWhere (deviceOf : Row -> option string) (keep : string -> bool)
  (orphans : bool) (data : list Row) : list Row :=
  filter (fun r => match deviceOf r with
                   | Some d => keep d
                   | None => orphans
                   end) data.

Definition withoutSupply (deviceOf : Row -> option string)
  (isSupply : string -> bool) : list Row -> list Row :=
  rowsWhere deviceOf (fun d => negb (isSupply d)) true.

Definition onlySupply (deviceOf : Row -> option string)
  (isSupply : string -> bool) : list Row -> list Row :=
  rowsWhere deviceOf isSupply false.

(** [f] applied to the value a call returns. *)
Definition returning {A B : Type} (f : A -> B) (m : outcome A) : outcome B :=
  JS.bind m (fun a => Returned (f a)).

(* ------------------------------------------------------------------ *)
(** * What section 3 of the specification asks of a sequence of buckets *)

Module Coverage.

Import Periods.

(** Each bucket ends on the millisecond before the next one starts. *)
Definition contiguous (ps : list Period) : Prop :=
  forall i p q,
    nth_error ps i = Some p -> nth_error ps (S i) = Some q ->
    (utcEnd p + 1 = utcStart q)%Z.

(** The buckets are contiguous, start at [from] and stop right before
    [till]. *)
Definition covers (ps : list Period) (from till : Z) : Prop :=
  contiguous ps
  /\ (exists p, nth_error ps 0 = Some p /\ utcStart p = from)
  /\ (exists q, nth_error ps (List.length ps - 1) = Some q
                /\ (utcEnd q + 1 = till)%Z).

(** The instant of local midnight at the start of a date. *)
Definition localMidnight (i : Dayjs.isoDate) : Z := Dayjs.valueOf (Dayjs.tz i).

(** The integers [from], [from + 1], ... ([count] of them). *)
Definition upFrom (from : Z) (count : nat) : list Z :=
  map (fun i => (from + Z.of_nat i)%Z) (seq 0 count).

(** The number of days of the month of a date. *)
Definition lengthOfMonth (D : Dayjs.isoDate) : Z :=
  Dayjs.daysInMonth (Dayjs.isoYear D) (Dayjs.isoMonth D - 1).

(** The entries of [configs] for the granularities [hour] and [day]. *)
Definition hourConfig (D : Dayjs.isoDate) : Config :=
  mkConfig Dayjs.Hour Dayjs.format_HH_00
    (Dayjs.startOf Dayjs.Day (Dayjs.tz D)) (Dayjs.endOf Dayjs.Day (Dayjs.tz D))
    Dayjs.hour.

Definition dayConfig (D : Dayjs.isoDate) : Config :=
  mkConfig Dayjs.Day Dayjs.format_MMM_DD
    (Dayjs.startOf Dayjs.Month (Dayjs.tz D))
    (Dayjs.endOf Dayjs.Month (Dayjs.tz D)) Dayjs.date.

(** The local wall-clock reading [h]:00 on the date. *)
Definition atHour (D : Dayjs.isoDate) (h : Z) : Dayjs.t :=
  Dayjs.mk (Dayjs.isoYear D) (Dayjs.isoMonth D - 1) (Dayjs.isoDay D) h 0 0 0.

(** Local midnight on day [d] of the month of the date. *)
Definition atDay (D : Dayjs.isoDate) (d : Z) : Dayjs.t :=
  Dayjs.mk (Dayjs.isoYear D) (Dayjs.isoMonth D - 1) d 0 0 0 0.

End Coverage.

(* ------------------------------------------------------------------ *)
(** * Sample inputs *)

Module AggExamples.

Definition macA : option string := Some "AA:BB:CC:DD:EE:01"%string.
Definition macB : option string := Some "aa-bb-cc-dd-ee-02"%string.
Definition supplyMac : option string := Some "08:F9:E0:73:64:DB"%string.

(** A mapping table that also lists the supply meter. *)
Definition mapping : Influx.MappingData :=
  Influx.mkMappingData
    [("aabbccddee01", "1"); ("aabbccddee02", "2"); ("08f9e07364db", "3")]%string
    [] [].

Definition flatMapping : JS.jsobj scalar :=
  [("aa:bb:cc:dd:ee:01", Num 1); ("aa-bb-cc-dd-ee-02", Str "2");
   ("08:f9:e0:73:64:db", Num 3)]%string.

(** The end-to-end scenario of section 8 of the specification, with the
    supply meter also present in the mapping table. *)
Definition scenario : list Row :=
  [ mkRow macA 5 1750068000000;
    mkRow supplyMac 50 1750068000000;
    mkRow macA (75 # 10) 1750071540000;
    mkRow supplyMac 58 1750071540000 ].

(** A meter that was reset (10 down to 5) next to one that gained 8. *)
Definition rollover : list Row :=
  [ mkRow macA 10 1; mkRow macB 2 2; mkRow macA 5 3; mkRow macB 10 4 ].

Definition hitAt (e : Q) (t : Z) : Elastic.Hit := Elastic.mkHit e t.

End AggExamples.

Definition someDate : Dayjs.isoDate := Dayjs.mkIso 2025 6 16.

Module CacheExamples.

Definition lastKnown : Influx.MappingData :=
  Influx.mkMappingData [("aabbccddee01", "1")]%string
    [("1", [Influx.mkMacInfo "aabbccddee01" "AA:BB:CC:DD:EE:01"])]%string
    [("aabbccddee01", "AA:BB:CC:DD:EE:01")]%string.

(** Loaded at instant 1000, looked up five minutes later. *)
Definition stale : Cache Influx.MappingData :=
  mkCache (Some lastKnown) (Some 1000%Z).

Definition staleFlat : Cache (JS.jsobj scalar) :=
  mkCache (Some [("aa:bb:cc:dd:ee:01"%string, Num 1)]) (Some 1000%Z).

Definition later : Z := (1000 + CACHE_DURATION)%Z.

End CacheExamples.

Module RoomExamples.

Definition meters : list MeterRow :=
  [ mkMeterRow (Some "AA:BB:CC:DD:EE:01"%string) (Value (Num 1));
    mkMeterRow (Some "AA:BB:CC:DD:EE:02"%string) (Value (Num 2)) ].

(** The mapping the rows above load in part_000. *)
Definition loaded : Influx.MappingData :=
  Eval vm_compute in
    match Influx.buildMapping meters with
    | Returned m => m
    | Thrown _ => Influx.emptyMapping
    end.

(** A request for room 9 on [someDate], by the hour. *)
Definition room9 : Request.t :=
  Request.mk (Some "hour"%string) (Some "9"%string)
    (Some (Request.Wellformed someDate)).

Definition noRows : Influx.Storage := fun _ _ _ => Returned [].
Definition noBuckets : Elastic.Storage := fun _ _ _ => Returned None.

End RoomExamples.

(* ------------------------------------------------------------------ *)
(** * What the mapping loaders keep of the meters table *)

(** No own key of a table of lists is a name inherited from
    [Object.prototype]. *)
Definition plainKeys {A : Type} (g : JS.jsobj (list A)) : Prop :=
  forall k, In k (map fst g) -> JS.inherited k = false.

(** A list in a table after more items were pushed to it. *)
Definition extended {A : Type} (before : option (list A)) (items : list A)
  : option (list A) :=
  match before, items with
  | Some old, _ => Some (old ++ items)
  | None, [] => None
  | None, _ :: _ => Some items
  end.

Module Meters.

(** What the callback of [rows.forEach] in part_000 does with one row. *)
Inductive verdict : Type :=
| Skips
| Throws
| Assigns (normalizedMac roomId originalMac : string).

(** A row without address or without [room_id] is skipped; [null.toString()]
    throws; an address that normalizes to nothing is skipped; [push] on a
    member inherited from [Object.prototype] throws. *)
Definition verdictOf (row : MeterRow) : verdict :=
  match meter_mac row, room_id row with
  | Some originalMac, Null => if JS.truthy originalMac then Throws else Skips
  | Some originalMac, Value v =>
      match Influx.normalizeMacAddress (Some originalMac) with
      | Some normalizedMac =>
          if JS.truthy normalizedMac then
            if JS.inherited (Scalar.toString v) then Throws
            else Assigns normalizedMac (Scalar.toString v) originalMac
          else Skips
      | None => Skips
      end
  | _, _ => Skips
  end.

(** The row assigns a room to the normalized address. *)
Definition assignsTo (normalizedMac : string) (row : MeterRow) : bool :=
  match verdictOf row with
  | Assigns k _ _ => String.eqb k normalizedMac
  | _ => false
  end.

Definition throws (rows : list MeterRow) : bool :=
  existsb (fun row => match verdictOf row with
                      | Throws => true
                      | _ => false
                      end) rows.

(** The room and the display form that the last row for a normalized
    address assigns. *)
Fixpoint lastAssigned (normalizedMac : string) (rows : list MeterRow)
  : option (string * string) :=
  match rows with
  | [] => None
  | row :: rest =>
      match lastAssigned normalizedMac rest with
      | Some a => Some a
      | None =>
          match verdictOf row with
          | Assigns k roomId originalMac =>
              if String.eqb k normalizedMac then Some (roomId, originalMac)
              else None
          | _ => None
          end
      end
  end.

(** The devices that the rows assign to a room, one per row, in row
    order. *)
Definition listedUnder (room : string) (rows : list MeterRow)
  : list Influx.MacInfo :=
  flat_map (fun row => match verdictOf row with
                       | Assigns k roomId originalMac =>
                           if String.eqb roomId room
                           then [Influx.mkMacInfo k originalMac] else []
                       | _ => []
                       end) rows.

(** What the callback of the two part_001 programs records for a row:
    nothing unless both the address and the room are truthy. *)
Definition flatAssignment (row : MeterRow) : option (string * scalar) :=
  match meter_mac row, room_id row with
  | Some mac, Value roomId =>
      if JS.truthy mac && Scalar.truthy roomId
      then Some (JS.toLowerCase mac, roomId) else None
  | _, _ => None
  end.

Definition assignsToFlat (normalizedMac : string) (row : MeterRow) : bool :=
  match flatAssignment row with
  | Some (k, _) => String.eqb k normalizedMac
  | None => false
  end.

Fixpoint lastAssignedFlat (normalizedMac : string) (rows : list MeterRow)
  : option scalar :=
  match rows with
  | [] => None
  | row :: rest =>
      match lastAssignedFlat normalizedMac rest with
      | Some a => Some a
      | None =>
          match flatAssignment row with
          | Some (k, roomId) =>
              if String.eqb k normalizedMac then Some roomId else None
          | None => None
          end
      end
  end.

(** Sample rows: one device listed twice under two display forms, a row
    without room, and a row for room 0. *)
Definition sample : list MeterRow :=
  [ mkMeterRow (Some "AA:BB:CC:DD:EE:01"%string) (Value (Num 1));
    mkMeterRow (Some "AA:BB:CC:DD:EE:02"%string) (Value (Str "2"));
    mkMeterRow (Some "aa-bb-cc-dd-ee-01"%string) (Value (Num 2));
    mkMeterRow (Some "AA:BB:CC:DD:EE:03"%string) Missing;
    mkMeterRow (Some "AA:BB:CC:DD:EE:04"%string) (Value (Num 0)) ].

(** The tables that part_000 loads from [sample]. *)
Definition sampleTables : Influx.MappingData :=
  Eval vm_compute in
    match Influx.buildMapping sample with
    | Returned m => m
    | Thrown _ => Influx.emptyMapping
    end.

Definition sampleFlat : JS.jsobj scalar :=
  Eval vm_compute in
    match buildFlat sample with
    | Returned m => m
    | Thrown _ => []
    end.

End Meters.

(* ------------------------------------------------------------------ *)
(** * The order in which the known rooms are listed *)

Module RoomList.

(** The key is an array index: [Object.keys] lists such keys first. *)
Definition isIndex (k : string) : bool :=
  match JS.arrayIndex k with
  | Some _ => true
  | None => false
  end.

Definition see (seen : list string) (k : string) : list string :=
  if existsb (String.eqb k) seen then seen else seen ++ [k].

(** The names of a list, each once, in the order of first appearance. *)
Definition firstSeen (names : list string) : list string :=
  fold_left see names [].

(** The rooms that the rows of the meters table assign, row by row. *)
Definition roomsAssigned (rows : list MeterRow) : list string :=
  flat_map (fun row => match Meters.verdictOf row with
                       | Meters.Assigns _ roomId _ => [roomId]
                       | _ => []
                       end) rows.

(** Ascending order of two array indices. *)
Definition byIndex (a b : string) : Prop :=
  match JS.arrayIndex a, JS.arrayIndex b with
  | Some x, Some y => (x <= y)%N
  | _, _ => False
  end.

(** Ascending order of the entries that [JS.indexed] keeps with their
    index. *)
Definition indexOrder {V : Type} (a b : N * (string * V)) : Prop :=
  (fst a <= fst b)%N.

(** Rooms 10, "lab", 2 and 1, in this order. *)
Definition shuffled : list MeterRow :=
  [ mkMeterRow (Some "AA:BB:CC:DD:EE:10"%string) (Value (Num 10));
    mkMeterRow (Some "AA:BB:CC:DD:EE:0A"%string) (Value (Str "lab"));
    mkMeterRow (Some "AA:BB:CC:DD:EE:02"%string) (Value (Num 2));
    mkMeterRow (Some "AA:BB:CC:DD:EE:01"%string) (Value (Str "1")) ].

Definition shuffledTables : Influx.MappingData :=
  Eval vm_compute in
    match Influx.buildMapping shuffled with
    | Returned m => m
    | Thrown _ => Influx.emptyMapping
    end.

End RoomList.

(* ------------------------------------------------------------------ *)
(** * The two longer granularities *)

Module Spans.

Import Periods.

(** The entries of [configs] for the granularities [month] and [year]. *)
Definition monthConfig (D : Dayjs.isoDate) : Config :=
  mkConfig Dayjs.Month Dayjs.format_MMMM
    (Dayjs.startOf Dayjs.Year (Dayjs.tz D)) (Dayjs.endOf Dayjs.Year (Dayjs.tz D))
    Dayjs.month.

Definition yearConfig (D : Dayjs.isoDate) : Config :=
  mkConfig Dayjs.Year Dayjs.format_YYYY
    (Dayjs.tz (Dayjs.mkIso 2023 1 1)) (Dayjs.endOf Dayjs.Year (Dayjs.tz D))
    Dayjs.year.

(** Local midnight on the first day of month [m] (zero-based) of year [y]. *)
Definition firstOf (y m : Z) : Dayjs.t := Dayjs.mk y m 1 0 0 0 0.

(** The instant at which the local year [y] starts. *)
Definition newYear (y : Z) : Z := Dayjs.valueOf (firstOf y 0).

(** The first year of the yearly view. *)
Definition FIRST_YEAR : Z := 2023.

(** The number of years the yearly view shows for a date. *)
Definition yearsShown (D : Dayjs.isoDate) : nat :=
  Z.to_nat (Dayjs.isoYear D - FIRST_YEAR + 1).

Definition monthNames : list string :=
  [ "January"; "February"; "March"; "April"; "May"; "June"; "July";
    "August"; "September"; "October"; "November"; "December" ]%string.

(** The range of a view as [buildDateRangeQuery] gives it, when it is one. *)
Definition rangeOf (period : string) (D : Dayjs.isoDate) : option DateRange :=
  match buildDateRangeQuery period D with
  | RangeOf r => Some r
  | InheritedMember => None
  end.

End Spans.

(* ------------------------------------------------------------------ *)
(** * part_000: the colon format of a normalized address *)

(** The code units that [.] does not match in a regular expression without
    the [s] flag, below code unit 256. *)
Definition isLineTerminator (c : ascii) : bool :=
  let n := JS.code c in ((n =? 10) || (n =? 13))%N.

(** [s.replace(/(.{2})/g, "$1:")]: from the left, every two consecutive
    code units that [.] matches get a colon after them; a code unit at which
    no such pair starts is copied. *)
Fixpoint colonAfterPairs (s : string) : string :=
  match s with
  | EmptyString => EmptyString
  | String a s' =>
      match s' with
      | EmptyString => s
      | String b rest =>
          if negb (isLineTerminator a) && negb (isLineTerminator b)
          then String a (String b (String ":" (colonAfterPairs rest)))
          else String a (colonAfterPairs s')
      end
  end.

(** [s.slice(0, -1)] *)
Fixpoint dropLast (s : string) : string :=
  match s with
  | EmptyString => EmptyString
  | String a s' =>
      match s' with
      | EmptyString => EmptyString
      | String _ _ => String a (dropLast s')
      end
  end.

(** [formatMacAddress]:
    [if (!normalizedMac || normalizedMac.length !== 12) return normalizedMac;
     return normalizedMac.replace(/(.{2})/g, "$1:").slice(0, -1);] *)
Definition formatMacAddress (normalizedMac : option string) : option string :=
  match normalizedMac with
  | None => None
  | Some s =>
      if negb (JS.truthy s) || negb (String.length s =? 12)%nat
      then Some s
      else Some (dropLast (colonAfterPairs s))
  end.

(** A code unit that stripping and lower-casing leave alone. *)
Definition settled (c : ascii) : Prop :=
  Mac.isDelimiter c = false /\ JS.lowerChar c = c.

(* ------------------------------------------------------------------ *)
(** * Which devices a consumption total can count *)

Module Selection.

(** part_000: with a room requested, the devices that the forward table
    maps to that room; without one, the devices that it maps at all. *)
Definition influx (macToRoomMap : JS.jsobj string) (room : option string)
  (normalizedMac : string) : bool :=
  if roomRequested room then
    match JS.getOwn macToRoomMap normalizedMac with
    | Some macRoom => roomIs room macRoom
    | None => false
    end
  else JS.hasOwnProperty macToRoomMap normalizedMac.

(** part_001: the same on the lower-cased address, the room compared as
    text. *)
Definition flat (macToRoomMap : JS.jsobj scalar) (room : option string)
  (macAddress : string) : bool :=
  if roomRequested room then
    match JS.getOwn macToRoomMap (JS.toLowerCase macAddress) with
    | Some roomId => roomIs room (Scalar.toString roomId)
    | None => false
    end
  else JS.hasOwnProperty macToRoomMap (JS.toLowerCase macAddress).

(** Two rows that carry the same reading of the same device of part_000,
    whatever the display form of the address. *)
Definition sameReading (r r' : Row) : Prop :=
  Influx.normalizeMacAddress (mac_address r)
  = Influx.normalizeMacAddress (mac_address r')
  /\ _value r = _value r' /\ _time r = _time r'.

(** Two rows that carry the same reading of the same device, for a program
    that attributes rows by [deviceOf]. *)
Definition related (deviceOf : Row -> option string) (r r' : Row) : Prop :=
  deviceOf r = deviceOf r' /\ _value r = _value r' /\ _time r = _time r'.

(** The rows of [AggExamples.scenario] with the addresses written in other
    display forms. *)
Definition restyled : list Row :=
  [ mkRow (Some "aabbccddee01"%string) 5 1750068000000;
    mkRow (Some "08-f9-e0-73-64-db"%string) 50 1750068000000;
    mkRow (Some "aa-bb-cc-dd-ee-01"%string) (75 # 10) 1750071540000;
    mkRow (Some "08F9E07364DB"%string) 58 1750071540000 ].

End Selection.

(* ------------------------------------------------------------------ *)
(** * Sample views and stores *)

(** The callback of the loop in [readPeriods]. *)
Definition readStep (compute : Periods.Period -> outcome Energy)
  (results : list Report.Entry) (timePeriod : Periods.Period)
  : outcome (list Report.Entry) :=
  JS.bind (compute timePeriod) (fun e =>
    Returned (results ++ [Report.entry timePeriod e])).

Module Views.

(** The hourly buckets of [someDate]. *)
Definition hoursOfSomeDate : list Periods.Period :=
  Eval vm_compute in
    match Periods.getTimePeriods 32 "hour" tt someDate with
    | Some (Returned periods) => periods
    | _ => []
    end.

(** A request for all rooms on [someDate], by the hour. *)
Definition allRooms : Request.t :=
  Request.mk (Some "hour"%string) None (Some (Request.Wellformed someDate)).

(** A store that fails on the bucket starting at 2025-06-16T03:00 local
    time and has no rows otherwise. *)
Definition failsAtThree : Influx.Storage :=
  fun start _ _ =>
    if (start =? 1750014000000)%Z then Thrown StorageError else Returned [].

(** A store that returns, for the same bucket, one reading of a device
    named like a member of [Object.prototype]. *)
Definition poisonedAtThree : Influx.Storage :=
  fun start _ _ =>
    if (start =? 1750014000000)%Z
    then Returned [mkRow (Some "constructor"%string) 1 1750014000000]
    else Returned [].

(** Ascending order of the sort keys of a report. *)
Definition ascending (keys : list Z) : Prop := StronglySorted Z.le keys.

End Views.

(* ------------------------------------------------------------------ *)
(** * The shape of an answer of [/api/data] *)

Module Answers.

(** A 400 carries an error without details, a 500 the fixed error with
    details, a 200 data whose [meta.totalRecords], when there is a [meta],
    counts the entries. *)
Definition wellShaped (response : Report.Response) : Prop :=
  match Report.body response with
  | Report.Failure _ None => Report.status response = 400%Z
  | Report.Failure error (Some _) =>
      Report.status response = 500%Z
      /\ error = "API request failed"%string
  | Report.Data data _ meta =>
      Report.status response = 200%Z
      /\ match meta with
         | Some meta => Report.totalRecords meta = List.length data
         | None => data = []
         end
  end.

(** The date a request is answered for, when it has one: its [date]
    parameter, or the current date. *)
Definition dateOf (today : Dayjs.isoDate) (query : Request.t)
  : option Dayjs.isoDate :=
  match Request.date query with
  | Some (Request.Wellformed D) => Some D
  | Some Request.Malformed => None
  | None => Some today
  end.

(** The date is well formed and the loop of the view is given enough
    iterations. *)
Definition answerable (fuel : nat) (today : Dayjs.isoDate) (query : Request.t)
  : Prop :=
  forall D,
    dateOf today query = Some D ->
    Dayjs.wellFormed D /\ (32 <= fuel)%nat /\ (Spans.yearsShown D < fuel)%nat.

End Answers.

(* ------------------------------------------------------------------ *)
(** * The aggregators over the arithmetic of the runtime

    The totals of an aggregator are JavaScript numbers: [-] and [+=] are
    binary64 operations, rounded to nearest, and the additions are made in
    the order in which the groups are enumerated.  The definitions below
    give the three aggregators once more, over an arithmetic that is a
    parameter; with exact rationals they are the aggregators of the
    program modules above, with [Binary64.arithmetic] they compute what
    the runtime computes. *)

(** An object without its values: its own keys, in creation order. *)
Definition unvalued {V : Type} (o : JS.jsobj V) : JS.jsobj unit :=
  map (fun kv => (fst kv, tt)) o.

Module Numbers.

Record arithmetic : Type := mkArithmetic
  { number : Type;
    zero : number;
    (** the number the program holds for a value the storage sent *)
    read : Q -> number;
    (** [a - b] *)
    minus : number -> number -> number;
    (** [a + b] *)
    plus : number -> number -> number;
    (** [Math.max(0, parseFloat(x.toFixed(3)))] *)
    shown : number -> number }.

(** Exact rationals, the arithmetic of the program modules. *)
Definition exact : arithmetic :=
  {| number := Q;
     zero := 0;
     read := fun q => q;
     minus := Qminus;
     plus := Qplus;
     shown := fun x => mathMax0 (toFixed3 x) |}.

End Numbers.

Module Binary64.

Import SpecFloat.

Definition prec : Z := 53.
Definition emax : Z := 1024.

Definition number : Type := spec_float.

Definition positiveZero : number := S754_zero false.

(** An integer as an operand that has not been rounded. *)
Definition integer (z : Z) : number :=
  match z with
  | Z0 => S754_zero false
  | Zpos p => S754_finite false p 0
  | Zneg p => S754_finite true p 0
  end.

(** The binary64 number nearest to a rational, ties to even: what the
    runtime holds after reading a decimal numeral. *)
Definition ofQ (q : Q) : number :=
  SFdiv prec emax (integer (Qnum q)) (integer (Zpos (Qden q))).

Definition plus : number -> number -> number := SFadd prec emax.
Definition minus : number -> number -> number := SFsub prec emax.

(** The rational a finite number stands for. *)
Definition magnitude (m : positive) (e : Z) : Q :=
  match e with
  | Zneg p => Zpos m # Pos.pow 2 p
  | _ => inject_Z (Zpos m * 2 ^ e)
  end.

(** [Math.max(0, parseFloat(x.toFixed(3)))].  [toFixed] rounds the exact
    value of [x] to three decimals, the larger one on a tie, and prints
    [x] itself from 1e21 on; [Math.max] keeps [NaN]. *)
Definition shown (x : number) : number :=
  match x with
  | S754_nan => S754_nan
  | S754_infinity negative => if negative then positiveZero else x
  | S754_zero _ => positiveZero
  | S754_finite negative m e =>
      if negative then positiveZero
      else if Qle_bool (inject_Z (10 ^ 21)) (magnitude m e) then x
      else
        let printed := toFixed3 (magnitude m e) in
        if Qle_bool printed 0 then positiveZero else ofQ printed
  end.

(** Neither [NaN] nor an infinity. *)
Definition finite (x : number) : bool :=
  match x with
  | S754_zero _ | S754_finite _ _ _ => true
  | _ => false
  end.

Definition arithmetic : Numbers.arithmetic :=
  {| Numbers.number := number;
     Numbers.zero := positiveZero;
     Numbers.read := ofQ;
     Numbers.minus := minus;
     Numbers.plus := plus;
     Numbers.shown := shown |}.

End Binary64.

Module Generic.

Import Numbers.

Section Over.

Variable N : arithmetic.

Record Energy : Type := mkEnergy
  { consumption : number N;
    supply : number N }.

Definition report (consumptionEnergy supplyEnergy : number N) : Energy :=
  {| consumption := shown N consumptionEnergy;
     supply := shown N supplyEnergy |}.

Definition totals : Type := (number N * number N)%type.

Definition credit (t : target) (energyDelta : number N) (acc : totals)
  : totals :=
  match t with
  | ToSupply => (fst acc, plus N (snd acc) energyDelta)
  | ToConsumption => (plus N (fst acc) energyDelta, snd acc)
  | Dropped => acc
  end.

(** The body of the per-device callback up to [energyDelta]; [None] is the
    early [return] on fewer than two readings. *)
Definition energyDelta (readings : list Row) : option (number N) :=
  if (List.length readings <? 2)%nat then None
  else
    let sorted := sortByTime readings in
    match nth_error sorted 0, lastOf sorted with
    | Some firstReading, Some lastReading =>
        Some (minus N (read N (_value lastReading))
                (read N (_value firstReading)))
    | _, _ => None
    end.

Definition addGroup (classify : string -> target) (acc : totals)
  (entry : string * list Row) : totals :=
  match energyDelta (snd entry) with
  | None => acc
  | Some delta => credit (classify (fst entry)) delta acc
  end.

Definition sumGroups (classify : string -> target)
  (macGroups : JS.jsobj (list Row)) : totals :=
  fold_left (addGroup classify) (JS.entries macGroups) (zero N, zero N).

(** part_000 *)
Definition calculateEnergyFromInfluxData (data : list Row)
  (mappingData : Influx.MappingData) (room : option string)
  : outcome Energy :=
  JS.bind (Influx.groupRows data) (fun macGroups =>
    let sums :=
      sumGroups (Influx.classify (Influx.macToRoomMap mappingData) room)
        macGroups in
    Returned (report (fst sums) (snd sums))).

(** part_001, second program *)
Definition calculateEnergyFromInfluxDataFlat (data : list Row)
  (macToRoomMap : JS.jsobj scalar) (room : option string) : outcome Energy :=
  JS.bind (InfluxFlat.groupRows data) (fun macGroups =>
    let sums := sumGroups (InfluxFlat.classify macToRoomMap room) macGroups in
    Returned (report (fst sums) (snd sums))).

(** part_001, first program *)
Definition bucketDelta (macBucket : Elastic.MacBucket) : option (number N) :=
  match hd_error (Elastic.first_energy macBucket),
        hd_error (Elastic.last_energy macBucket) with
  | Some firstReading, Some lastReading =>
      Some (minus N (read N (Elastic.energy lastReading))
              (read N (Elastic.energy firstReading)))
  | _, _ => None
  end.

Definition addBucket (macToRoomMap : JS.jsobj scalar) (room : option string)
  (acc : totals) (macBucket : Elastic.MacBucket) : totals :=
  let normalizedMac := JS.toLowerCase (Elastic.key macBucket) in
  match bucketDelta macBucket with
  | Some delta =>
      credit (classifyFlat macToRoomMap room normalizedMac) delta acc
  | None => acc
  end.

Definition calculateEnergyFromBuckets (buckets : list Elastic.MacBucket)
  (macToRoomMap : JS.jsobj scalar) (room : option string) : Energy :=
  let sums :=
    fold_left (addBucket macToRoomMap room) buckets (zero N, zero N) in
  report (fst sums) (snd sums).

(** ** What section 4.5 of the specification says of a total *)

(** The delta of a group: the value of its latest reading minus the value
    of its earliest one; nothing for fewer than two readings. *)
Definition contribution (readings : list Row) : option (number N) :=
  if (List.length readings <? 2)%nat then None
  else match Spec.earliest readings, Spec.latest readings with
       | Some e, Some l => Some (minus N (read N (_value l)) (read N (_value e)))
       | _, _ => None
       end.

Definition goesTo (t t' : target) : bool :=
  match t, t' with
  | ToSupply, ToSupply => true
  | ToConsumption, ToConsumption => true
  | Dropped, Dropped => true
  | _, _ => false
  end.

(** The deltas that a list of groups adds to the total [t], in the order
    of the list. *)
Definition creditedTo (classify : string -> target) (t : target)
  (groups : list (string * list Row)) : list (number N) :=
  flat_map (fun entry =>
              if goesTo (classify (fst entry)) t
              then match contribution (snd entry) with
                   | Some delta => [delta]
                   | None => []
                   end
              else [])
    groups.

(** The same for the buckets of an Elasticsearch response: the energy of
    the last hit minus the energy of the first hit, nothing for a bucket
    without hits. *)
Definition creditedBuckets (macToRoomMap : JS.jsobj scalar)
  (room : option string) (t : target) (buckets : list Elastic.MacBucket)
  : list (number N) :=
  flat_map (fun macBucket =>
              if goesTo
                   (classifyFlat macToRoomMap room
                      (JS.toLowerCase (Elastic.key macBucket))) t
              then match Elastic.first_energy macBucket,
                         Elastic.last_energy macBucket with
                   | earliest :: _, latest :: _ =>
                       [minus N (read N (Elastic.energy latest))
                          (read N (Elastic.energy earliest))]
                   | _, _ => []
                   end
              else [])
    buckets.

(** A total: the deltas added one after the other, starting from zero. *)
Definition total (deltas : list (number N)) : number N :=
  fold_left (plus N) deltas (zero N).

End Over.

Arguments consumption {N} e.
Arguments supply {N} e.

End Generic.

(** The energy of the program modules, as a result over exact rationals. *)
Definition exactEnergy (e : Energy) : Generic.Energy Numbers.exact :=
  Generic.mkEnergy Numbers.exact (consumption e) (supply e).

(** The aggregators of the runtime. *)
Module Doubles.

Definition Energy : Type := Generic.Energy Binary64.arithmetic.

Definition calculateEnergyFromInfluxData :=
  Generic.calculateEnergyFromInfluxData Binary64.arithmetic.

Definition calculateEnergyFromInfluxDataFlat :=
  Generic.calculateEnergyFromInfluxDataFlat Binary64.arithmetic.

Definition calculateEnergyFromBuckets :=
  Generic.calculateEnergyFromBuckets Binary64.arithmetic.

(** Three meters that gain 0.1, 0.2 and 0.5125 kWh within a bucket. *)
Definition macC : option string := Some "AA:BB:CC:DD:EE:03"%string.

Definition threeMeters : Influx.MappingData :=
  Influx.mkMappingData
    [("aabbccddee01", "1"); ("aabbccddee02", "1"); ("aabbccddee03", "2")]%string
    [] [].

Definition threeMetersFlat : JS.jsobj scalar :=
  [("aa:bb:cc:dd:ee:01", Num 1); ("aa-bb-cc-dd-ee-02", Num 1);
   ("aa:bb:cc:dd:ee:03", Num 2)]%string.

Definition gains : list Row :=
  [ mkRow AggExamples.macA 0 1; mkRow AggExamples.macA (1 # 10) 2;
    mkRow AggExamples.macB 0 3; mkRow AggExamples.macB (2 # 10) 4;
    mkRow macC 0 5; mkRow macC (5125 # 10000) 6 ].

(** The same rows in the opposite order. *)
Definition gainsReversed : list Row :=
  [ mkRow macC (5125 # 10000) 6; mkRow macC 0 5;
    mkRow AggExamples.macB (2 # 10) 4; mkRow AggExamples.macB 0 3;
    mkRow AggExamples.macA (1 # 10) 2; mkRow AggExamples.macA 0 1 ].

(** The same gains as the buckets of an Elasticsearch response. *)
Definition gainBuckets : list Elastic.MacBucket :=
  [ Elastic.mkMacBucket "AA:BB:CC:DD:EE:01"
      [AggExamples.hitAt 0 1] [AggExamples.hitAt (1 # 10) 2];
    Elastic.mkMacBucket "aa-bb-cc-dd-ee-02"
      [AggExamples.hitAt 0 3] [AggExamples.hitAt (2 # 10) 4];
    Elastic.mkMacBucket "AA:BB:CC:DD:EE:03"
      [AggExamples.hitAt 0 5] [AggExamples.hitAt (5125 # 10000) 6] ].

(** The supply meter, stored without delimiters and listed in the mapping
    under room 3. *)
Definition undelimited : string := "08F9E07364DB".

Definition undelimitedBucket : Elastic.MacBucket :=
  Elastic.mkMacBucket undelimited
    [AggExamples.hitAt 50 1] [AggExamples.hitAt 58 2].

Definition undelimitedRows : list Row :=
  [ mkRow (Some undelimited) 50 1; mkRow (Some undelimited) 58 2 ].

Definition undelimitedMapping : JS.jsobj scalar :=
  [("08f9e07364db"%string, Num 3)].

End Doubles.

(* ------------------------------------------------------------------ *)
(** * Properties of the MAC normalizers *)

Module MacFacts.

Import Mac.

Ltac by_cases_on_char c :=
  destruct c as [[] [] [] [] [] [] [] []]; vm_compute; reflexivity.

Lemma lowerChar_idem (c : ascii) : JS.lowerChar (JS.lowerChar c) = JS.lowerChar c.
Proof. by_cases_on_char c. Qed.

Lemma isDelimiter_lowerChar (c : ascii) :
  isDelimiter (JS.lowerChar c) = isDelimiter c.
Proof. by_cases_on_char c. Qed.

Lemma hex_not_delimiter (c : ascii) :
  isHexDigit c = true -> isDelimiter c = false.
Proof.
  destruct c as [[] [] [] [] [] [] [] []]; vm_compute; intro H;
    first [ reflexivity | discriminate H ].
Qed.

Lemma toLowerCase_idem (s : string) :
  JS.toLowerCase (JS.toLowerCase s) = JS.toLowerCase s.
Proof.
  induction s as [|c s IH]; simpl; [reflexivity|].
  now rewrite lowerChar_idem, IH.
Qed.

Lemma toLowerCase_app (s1 s2 : string) :
  JS.toLowerCase (s1 ++ s2) = (JS.toLowerCase s1 ++ JS.toLowerCase s2)%string.
Proof.
  induction s1 as [|c s1 IH]; simpl; [reflexivity|]. now rewrite IH.
Qed.

Lemma removeAll_app (cls : ascii -> bool) (s1 s2 : string) :
  JS.removeAll cls (s1 ++ s2)
  = (JS.removeAll cls s1 ++ JS.removeAll cls s2)%string.
Proof.
  induction s1 as [|c s1 IH]; simpl; [reflexivity|].
  destruct (cls c); simpl; now rewrite IH.
Qed.

Lemma removeAll_idem (cls : ascii -> bool) (s : string) :
  JS.removeAll cls (JS.removeAll cls s) = JS.removeAll cls s.
Proof.
  induction s as [|c s IH]; simpl; [reflexivity|].
  destruct (cls c) eqn:E; simpl; [assumption|].
  now rewrite E, IH.
Qed.

Lemma removeAll_toLowerCase (s : string) :
  JS.removeAll isDelimiter (JS.toLowerCase s)
  = JS.toLowerCase (JS.removeAll isDelimiter s).
Proof.
  induction s as [|c s IH]; simpl; [reflexivity|].
  rewrite isDelimiter_lowerChar.
  destruct (isDelimiter c); simpl; now rewrite IH.
Qed.

(** On its own non-empty results the stripping normalizer is the identity. *)
Lemma normalizeStrip_fixpoint (x y : string) :
  normalizeStrip (Some x) = Some y ->
  JS.truthy y = true ->
  normalizeStrip (Some y) = Some y.
Proof.
  unfold normalizeStrip. destruct (JS.truthy x); [|discriminate].
  intros [= <-] Hy. rewrite Hy. f_equal.
  now rewrite removeAll_toLowerCase, removeAll_idem, toLowerCase_idem.
Qed.

Lemma toLowerCase_string_of_list (l : list ascii) :
  JS.toLowerCase (string_of_list_ascii l)
  = string_of_list_ascii (map JS.lowerChar l).
Proof. induction l as [|c l IH]; simpl; [reflexivity|]. now rewrite IH. Qed.

(** Stripping a rendering leaves the digits, whatever the separator, as
    long as the separator is made of delimiters. *)
Lemma removeAll_render (sep : string) :
  JS.removeAll isDelimiter sep = EmptyString ->
  forall digits,
    forallb isHexDigit digits = true ->
    JS.removeAll isDelimiter (render sep digits) = string_of_list_ascii digits.
Proof.
  intros Hsep digits.
  enough (H : (forallb isHexDigit digits = true ->
               JS.removeAll isDelimiter (render sep digits)
               = string_of_list_ascii digits)
              /\ forall a, forallb isHexDigit (a :: digits) = true ->
                           JS.removeAll isDelimiter (render sep (a :: digits))
                           = string_of_list_ascii (a :: digits))
    by apply H.
  induction digits as [|b rest [IH1 IH2]].
  - split; [reflexivity|].
    intros a Ha. simpl in *. rewrite andb_true_r in Ha.
    now rewrite (hex_not_delimiter _ Ha).
  - split; [apply IH2|].
    intros a Ha. cbn [forallb] in Ha.
    apply andb_prop in Ha as [Ha Hrest].
    pose proof Hrest as Hrest'. cbn [forallb] in Hrest'.
    apply andb_prop in Hrest' as [Hb Hrest'].
    destruct rest as [|c rest'].
    + simpl. now rewrite (hex_not_delimiter _ Ha), (hex_not_delimiter _ Hb).
    + change (render sep (a :: b :: c :: rest'))
        with (String a (String b (sep ++ render sep (c :: rest')))).
      cbn [JS.removeAll].
      rewrite (hex_not_delimiter _ Ha), (hex_not_delimiter _ Hb).
      rewrite removeAll_app, Hsep. cbn [append].
      now rewrite (IH1 Hrest').
Qed.

Lemma render_truthy (sep : string) (digits : list ascii) :
  digits <> [] -> JS.truthy (render sep digits) = true.
Proof.
  destruct digits as [|a [|b [|c rest]]]; intros H; try reflexivity.
  now contradiction H.
Qed.

Lemma normalizeStrip_render (sep : string) (digits : list ascii) :
  JS.removeAll isDelimiter sep = EmptyString ->
  macDigits digits ->
  normalizeStrip (Some (render sep digits))
  = Some (string_of_list_ascii (map JS.lowerChar digits)).
Proof.
  intros Hsep [Hlen Hhex]. unfold normalizeStrip.
  rewrite render_truthy by (intros ->; discriminate Hlen).
  now rewrite (removeAll_render _ Hsep _ Hhex), toLowerCase_string_of_list.
Qed.

Lemma string_of_list_truthy (l : list ascii) :
  l <> [] -> JS.truthy (string_of_list_ascii l) = true.
Proof. destruct l; [now intros []|reflexivity]. Qed.

End MacFacts.

Module MacRenderFacts.

Import Mac.

Lemma toLowerCase_render (sep : string) (digits : list ascii) :
  JS.toLowerCase (render sep digits)
  = render (JS.toLowerCase sep) (map JS.lowerChar digits).
Proof.
  enough (H : JS.toLowerCase (render sep digits)
              = render (JS.toLowerCase sep) (map JS.lowerChar digits)
              /\ forall a,
                  JS.toLowerCase (render sep (a :: digits))
                  = render (JS.toLowerCase sep) (map JS.lowerChar (a :: digits)))
    by apply H.
  induction digits as [|b rest [IH1 IH2]].
  - split; [reflexivity|]. intros a. reflexivity.
  - split; [apply IH2|].
    intros a. destruct rest as [|c rest']; [reflexivity|].
    change (render sep (a :: b :: c :: rest'))
      with (String a (String b (sep ++ render sep (c :: rest')))).
    cbn [JS.toLowerCase]. rewrite MacFacts.toLowerCase_app, IH1. reflexivity.
Qed.

Lemma separator_is_delimiter (sep : string) :
  In sep [":"; "-"; ""]%string ->
  JS.removeAll isDelimiter sep = EmptyString.
Proof.
  intros [<-|[<-|[<-|[]]]]; reflexivity.
Qed.

(** The loader of the flat mapping never calls the lower-casing normalizer
    on a missing value: it cannot throw. *)
Lemma addFlat_returns (m : JS.jsobj scalar) (row : MeterRow) :
  exists m', addFlat m row = Returned m'.
Proof.
  unfold addFlat.
  destruct (meter_mac row) as [mac|]; [|now eexists].
  destruct (room_id row) as [| |v]; try now eexists.
  destruct (JS.truthy mac && Scalar.truthy v); now eexists.
Qed.

Lemma buildFlat_returns (rows : list MeterRow) :
  exists m, buildFlat rows = Returned m.
Proof.
  unfold buildFlat. generalize (@nil (string * scalar)).
  induction rows as [|row rows IH]; intros m; simpl; [now eexists|].
  destruct (addFlat_returns m row) as [m' ->]. simpl. apply IH.
Qed.

End MacRenderFacts.

(** C5, as stated, fails in the two part_001 programs: their normalizer
    keeps the delimiters, so the colon-delimited and the delimiter-free
    rendering of one address stay different. *)
Lemma lowercase_normalizer_keeps_delimiters :
  Elastic.normalizeMacAddress (Some "AA:BB:CC:DD:EE:FF"%string)
  = Returned "aa:bb:cc:dd:ee:ff"%string
  /\ InfluxFlat.normalizeMacAddress (Some "aabbccddeeff"%string)
     = Returned "aabbccddeeff"%string
  /\ Mac.normalizeLower (Some "AA:BB:CC:DD:EE:FF"%string)
     <> Mac.normalizeLower (Some "aabbccddeeff"%string).
Proof.
  repeat split; try reflexivity. discriminate.
Qed.

(** C5 (amended).  Normalization is idempotent and insensitive to letter
    case in every program: in part_000 on the renderings of twelve
    hexadecimal digits and on any text [x] with a non-empty normal form, in
    the two part_001 programs on any text [z].  It is insensitive to the
    delimiter in part_000 only, where the colon-delimited, hyphen-delimited
    and delimiter-free renderings of the same digits all normalize to the
    lower-cased digits. *)
Theorem normalize_idempotent_on_mac_forms
  (digits digits' : list ascii) (sep sep' : string) (x y z : string) :
  Mac.macDigits digits -> Mac.macDigits digits' ->
  Mac.sameDigits digits digits' ->
  In sep [":"; "-"; ""]%string -> In sep' [":"; "-"; ""]%string ->
  Influx.normalizeMacAddress (Some x) = Some y -> JS.truthy y = true ->
  (* part_000 *)
  Influx.normalizeMacAddress (Some y) = Some y
  /\ Influx.normalizeMacAddress
       (Influx.normalizeMacAddress (Some (Mac.render sep digits)))
     = Influx.normalizeMacAddress (Some (Mac.render sep digits))
  /\ Influx.normalizeMacAddress (Some (Mac.render sep digits))
     = Some (string_of_list_ascii (map JS.lowerChar digits))
  /\ Influx.normalizeMacAddress (Some (Mac.render sep digits))
     = Influx.normalizeMacAddress (Some (Mac.render sep' digits'))
  (* part_001, both programs *)
  /\ JS.bind (Elastic.normalizeMacAddress (Some z))
       (fun n => Elastic.normalizeMacAddress (Some n))
     = Elastic.normalizeMacAddress (Some z)
  /\ JS.bind (InfluxFlat.normalizeMacAddress (Some z))
       (fun n => InfluxFlat.normalizeMacAddress (Some n))
     = InfluxFlat.normalizeMacAddress (Some z)
  /\ Elastic.normalizeMacAddress (Some (Mac.render sep digits))
     = Elastic.normalizeMacAddress (Some (Mac.render sep digits'))
  /\ InfluxFlat.normalizeMacAddress (Some (Mac.render sep digits))
     = InfluxFlat.normalizeMacAddress (Some (Mac.render sep digits')).
Proof.
  intros Hd Hd' Hsame Hsep Hsep' Hxy Hy.
  unfold Influx.normalizeMacAddress, Elastic.normalizeMacAddress,
    InfluxFlat.normalizeMacAddress in *.
  pose proof (MacRenderFacts.separator_is_delimiter _ Hsep) as Ds.
  pose proof (MacRenderFacts.separator_is_delimiter _ Hsep') as Ds'.
  assert (Hlower : JS.toLowerCase (Mac.render sep digits)
                   = JS.toLowerCase (Mac.render sep digits')).
  { rewrite !MacRenderFacts.toLowerCase_render. now rewrite Hsame. }
  rewrite !(MacFacts.normalizeStrip_render _ _ Ds Hd).
  rewrite (MacFacts.normalizeStrip_render _ _ Ds' Hd').
  repeat split.
  - exact (MacFacts.normalizeStrip_fixpoint _ _ Hxy Hy).
  - apply (MacFacts.normalizeStrip_fixpoint (Mac.render sep digits)).
    + exact (MacFacts.normalizeStrip_render _ _ Ds Hd).
    + apply MacFacts.string_of_list_truthy.
      destruct Hd as [Hlen _]. destruct digits; [discriminate Hlen|discriminate].
  - now rewrite Hsame.
  - simpl. now rewrite MacFacts.toLowerCase_idem.
  - simpl. now rewrite MacFacts.toLowerCase_idem.
  - simpl. now rewrite Hlower.
  - simpl. now rewrite Hlower.
Qed.

Lemma normalize_idempotent_on_mac_forms_witness :
  Influx.normalizeMacAddress (Some "AA:BB:CC:DD:EE:FF"%string)
  = Influx.normalizeMacAddress (Some "aa-bb-cc-dd-ee-ff"%string)
  /\ Influx.normalizeMacAddress (Some "08:F9:E0:73:64:DB"%string)
     = Some "08f9e07364db"%string
  /\ Influx.normalizeMacAddress (Some "08f9e07364db"%string)
     = Some "08f9e07364db"%string.
Proof.
  pose proof
    (normalize_idempotent_on_mac_forms
       (list_ascii_of_string "AABBCCDDEEFF") (list_ascii_of_string "aabbccddeeff")
       ":" "-" "08:F9:E0:73:64:DB" "08f9e07364db" "AA-bb"
       (conj eq_refl eq_refl) (conj eq_refl eq_refl) eq_refl
       (or_introl eq_refl) (or_intror (or_introl eq_refl))
       eq_refl eq_refl) as (H1 & _ & _ & H4 & _).
  split; [exact H4|]. split; [reflexivity|exact H1].
Defined.

(** C9, as stated, fails in the two part_001 programs: their normalizer
    calls [toLowerCase] on the argument and throws on a missing one. *)
Lemma lowercase_normalizer_throws_on_null :
  Elastic.normalizeMacAddress None = Thrown TypeError
  /\ InfluxFlat.normalizeMacAddress None = Thrown TypeError.
Proof. split; reflexivity. Qed.

(** C9 (amended).  In part_000 the normalizer returns null for a null and
    for an empty argument.  In the two part_001 programs it returns the
    empty string for the empty string; it is not defined on null, and the
    mapping loader, which guards the call by the truthiness of the address,
    never throws. *)
Theorem normalize_null_and_empty :
  Influx.normalizeMacAddress None = None
  /\ Influx.normalizeMacAddress (Some EmptyString) = None
  /\ Elastic.normalizeMacAddress (Some EmptyString) = Returned EmptyString
  /\ InfluxFlat.normalizeMacAddress (Some EmptyString) = Returned EmptyString
  /\ forall rows, exists m, buildFlat rows = Returned m.
Proof.
  repeat split. apply MacRenderFacts.buildFlat_returns.
Qed.

(* ------------------------------------------------------------------ *)
(** * Facts about objects used as dictionaries *)

Module ObjFacts.

Section Obj.

Context {V : Type}.

Implicit Types (o : JS.jsobj V) (k : string) (v : V).

Lemma getOwn_In o k v : JS.getOwn o k = Some v -> In (k, v) o.
Proof.
  induction o as [|[k' v'] o IH]; simpl; [discriminate|].
  destruct (String.eqb_spec k k') as [->|Hne].
  - intros [= ->]. now left.
  - intros H. right. now apply IH.
Qed.

Lemma getOwn_None o k : JS.getOwn o k = None <-> ~ In k (map fst o).
Proof.
  induction o as [|[k' v'] o IH]; simpl; [tauto|].
  destruct (String.eqb_spec k k') as [->|Hne].
  - split; [discriminate|]. intros H. exfalso. apply H. now left.
  - rewrite IH. split.
    + intros H [E|H']; [now apply Hne|now apply H].
    + intros H H'. apply H. now right.
Qed.

Lemma In_getOwn o k v :
  NoDup (map fst o) -> In (k, v) o -> JS.getOwn o k = Some v.
Proof.
  induction o as [|[k' v'] o IH]; simpl; [now intros _ []|].
  intros Hnd [E|Hin].
  - injection E as -> ->. now rewrite String.eqb_refl.
  - inversion Hnd as [|? ? Hnotin Hnd']; subst.
    destruct (String.eqb_spec k k') as [->|Hne].
    + exfalso. apply Hnotin. now apply (in_map fst) in Hin.
    + now apply IH.
Qed.

(** Two objects with the same own properties list them in some order. *)
Lemma same_properties_Permutation o1 o2 :
  NoDup (map fst o1) -> NoDup (map fst o2) ->
  (forall k, JS.getOwn o1 k = JS.getOwn o2 k) ->
  Permutation o1 o2.
Proof.
  intros H1 H2 Hsame.
  apply NoDup_Permutation.
  - now apply NoDup_map_inv in H1.
  - now apply NoDup_map_inv in H2.
  - intros [k v]. split; intros Hin.
    + apply getOwn_In. rewrite <- Hsame. now apply In_getOwn.
    + apply getOwn_In. rewrite Hsame. now apply In_getOwn.
Qed.

Lemma keys_update o k v :
  map fst (JS.update o k v)
  = if JS.hasOwnProperty o k then map fst o else map fst o ++ [k].
Proof.
  unfold JS.hasOwnProperty.
  induction o as [|[k' v'] o IH]; simpl; [reflexivity|].
  destruct (String.eqb_spec k k') as [->|Hne]; simpl; [reflexivity|].
  rewrite IH. now destruct (JS.getOwn o k).
Qed.

Lemma getOwn_update_same o k v :
  JS.getOwn (JS.update o k v) k = Some v.
Proof.
  induction o as [|[k' v'] o IH]; simpl.
  - now rewrite String.eqb_refl.
  - destruct (String.eqb_spec k k') as [->|Hne]; simpl.
    + now rewrite String.eqb_refl.
    + destruct (String.eqb_spec k k'); [contradiction|assumption].
Qed.

Lemma getOwn_update_other o k k' v :
  k' <> k -> JS.getOwn (JS.update o k v) k' = JS.getOwn o k'.
Proof.
  intros Hne.
  induction o as [|[k1 v1] o IH]; simpl.
  - destruct (String.eqb_spec k' k); [contradiction|reflexivity].
  - destruct (String.eqb_spec k k1) as [->|Hne1]; simpl.
    + destruct (String.eqb_spec k' k1); [contradiction|reflexivity].
    + now rewrite IH.
Qed.

Lemma getOwn_app_new o k v k' :
  JS.getOwn o k = None ->
  JS.getOwn (o ++ [(k, v)]) k'
  = if String.eqb k' k then Some v else JS.getOwn o k'.
Proof.
  intros Hnone.
  induction o as [|[k1 v1] o IH]; simpl in *; [reflexivity|].
  destruct (String.eqb_spec k k1) as [->|Hne1]; [discriminate|].
  destruct (String.eqb_spec k' k1) as [->|Hne2].
  - destruct (String.eqb_spec k1 k); [congruence|reflexivity].
  - now apply IH.
Qed.

(** *** Enumeration lists every own property once *)

Lemma insertByIndex_Permutation (e : N * (string * V)) l :
  Permutation (JS.insertByIndex e l) (e :: l).
Proof.
  induction l as [|e' l IH]; simpl; [reflexivity|].
  destruct (fst e <=? fst e')%N; [reflexivity|].
  rewrite IH. apply perm_swap.
Qed.

Lemma entries_Permutation o : Permutation (JS.entries o) o.
Proof.
  unfold JS.entries, JS.named.
  induction o as [|[k v] o IH]; simpl; [reflexivity|].
  destruct (JS.arrayIndex k) as [n|]; simpl.
  - rewrite insertByIndex_Permutation. simpl. now apply perm_skip.
  - rewrite <- Permutation_middle. now apply perm_skip.
Qed.

End Obj.

End ObjFacts.

(* ------------------------------------------------------------------ *)
(** * Facts about the running totals *)

Module TotalsFacts.

Lemma Qplus_swap (a b c : Q) : a + b + c = a + c + b.
Proof.
  destruct a as [an ad], b as [bn bd], c as [cn cd].
  unfold Qplus; simpl. f_equal.
  - rewrite !Pos2Z.inj_mul. ring.
  - lia.
Qed.

Lemma Qplus_zero (a : Q) : a + 0 = a.
Proof. destruct a as [an ad]. unfold Qplus; simpl. f_equal; lia. Qed.

Lemma credit_zero (t : target) (acc : totals) : credit t 0 acc = acc.
Proof.
  destruct t, acc as [c s]; simpl; now rewrite ?Qplus_zero.
Qed.

Lemma credit_swap (t1 t2 : target) (d1 d2 : Q) (acc : totals) :
  credit t1 d1 (credit t2 d2 acc) = credit t2 d2 (credit t1 d1 acc).
Proof.
  destruct t1, t2, acc as [c s]; simpl; try reflexivity;
    f_equal; apply Qplus_swap.
Qed.

Lemma fold_left_Permutation {A S : Type} (f : S -> A -> S) :
  (forall s a b, f (f s a) b = f (f s b) a) ->
  forall l l', Permutation l l' ->
  forall s, fold_left f l s = fold_left f l' s.
Proof.
  intros Hswap l l' Hperm.
  induction Hperm as [|x l l' _ IH|x y l|l l' l'' _ IH1 _ IH2]; intros s; simpl.
  - reflexivity.
  - apply IH.
  - now rewrite Hswap.
  - now rewrite IH1, IH2.
Qed.

Lemma addGroup_swap classify acc e1 e2 :
  addGroup classify (addGroup classify acc e1) e2
  = addGroup classify (addGroup classify acc e2) e1.
Proof.
  unfold addGroup.
  destruct (energyDelta (snd e1)), (energyDelta (snd e2)); try reflexivity.
  apply credit_swap.
Qed.

Lemma sumGroups_Permutation classify (g g' : JS.jsobj (list Row)) :
  Permutation g g' ->
  sumGroups classify g = fold_left (addGroup classify) g' (0, 0).
Proof.
  intros Hperm. unfold sumGroups.
  apply fold_left_Permutation; [intros; apply addGroup_swap|].
  now rewrite ObjFacts.entries_Permutation.
Qed.

End TotalsFacts.

(* ------------------------------------------------------------------ *)
(** * Sorting by time and the two endpoints *)

Module SortFacts.

Lemma lastOf_cons (x y : Row) (l : list Row) :
  lastOf (x :: y :: l) = lastOf (y :: l).
Proof.
  unfold lastOf. simpl. now rewrite Nat.sub_0_r.
Qed.

Lemma insertByTime_nonempty r l : insertByTime r l <> [].
Proof.
  destruct l as [|x l]; simpl; [discriminate|].
  destruct (_time r <=? _time x)%Z; discriminate.
Qed.

Lemma insertByTime_Permutation r l : Permutation (insertByTime r l) (r :: l).
Proof.
  induction l as [|x l IH]; simpl; [reflexivity|].
  destruct (_time r <=? _time x)%Z; [reflexivity|].
  rewrite IH. apply perm_swap.
Qed.

Lemma sortByTime_Permutation l : Permutation (sortByTime l) l.
Proof.
  induction l as [|r l IH]; simpl; [reflexivity|].
  rewrite insertByTime_Permutation. now apply perm_skip.
Qed.

Lemma insertByTime_sorted r l :
  StronglySorted Spec.byTime l -> StronglySorted Spec.byTime (insertByTime r l).
Proof.
  induction l as [|x l IH]; intros Hs; simpl.
  - constructor; constructor.
  - inversion Hs as [|? ? Hs' Hall]; subst.
    destruct (Z.leb_spec (_time r) (_time x)) as [Hle|Hgt].
    + constructor; [assumption|]. constructor; [exact Hle|].
      eapply Forall_impl; [|exact Hall].
      intros a Ha. unfold Spec.byTime in *. lia.
    + constructor; [now apply IH|].
      apply (Permutation_Forall (Permutation_sym (insertByTime_Permutation r l))).
      constructor; [unfold Spec.byTime; lia|assumption].
Qed.

Lemma sortByTime_sorted l : StronglySorted Spec.byTime (sortByTime l).
Proof.
  induction l as [|r l IH]; simpl; [constructor|].
  now apply insertByTime_sorted.
Qed.

(** The first element after sorting is the earliest reading. *)
Lemma hd_insertByTime r l :
  nth_error (insertByTime r l) 0
  = match nth_error l 0 with
    | None => Some r
    | Some best => if (_time r <=? _time best)%Z then Some r else Some best
    end.
Proof.
  destruct l as [|x l]; simpl; [reflexivity|].
  now destruct (_time r <=? _time x)%Z.
Qed.

Lemma first_sorted_earliest l :
  nth_error (sortByTime l) 0 = Spec.earliest l.
Proof.
  induction l as [|r l IH]; [reflexivity|].
  change (sortByTime (r :: l)) with (insertByTime r (sortByTime l)).
  rewrite hd_insertByTime, IH. reflexivity.
Qed.

Lemma lastOf_In (l : list Row) x : lastOf l = Some x -> In x l.
Proof. unfold lastOf. apply nth_error_In. Qed.

Lemma lastOf_insertByTime r l :
  StronglySorted Spec.byTime l ->
  lastOf (insertByTime r l)
  = match lastOf l with
    | None => Some r
    | Some best => if (_time best <? _time r)%Z then Some r else Some best
    end.
Proof.
  induction l as [|x l IH]; intros Hs; [reflexivity|].
  inversion Hs as [|? ? Hs' Hall]; subst.
  simpl insertByTime.
  destruct (Z.leb_spec (_time r) (_time x)) as [Hle|Hgt].
  - rewrite lastOf_cons.
    destruct (lastOf (x :: l)) as [best|] eqn:E.
    + assert (Hb : (_time x <= _time best)%Z).
      { apply lastOf_In in E. destruct E as [<-|Hin]; [lia|].
        rewrite Forall_forall in Hall. now apply Hall. }
      destruct (Z.ltb_spec (_time best) (_time r)); [lia|reflexivity].
    + apply nth_error_None in E. simpl in E. lia.
  - specialize (IH Hs').
    destruct (insertByTime r l) as [|y l'] eqn:Eins;
      [now apply insertByTime_nonempty in Eins|].
    rewrite lastOf_cons, IH.
    destruct l as [|z l0].
    + simpl. destruct (Z.ltb_spec (_time x) (_time r)); [reflexivity|lia].
    + now rewrite lastOf_cons.
Qed.

Lemma last_sorted_latest l :
  lastOf (sortByTime l) = Spec.latest l.
Proof.
  induction l as [|r l IH]; [reflexivity|].
  change (sortByTime (r :: l)) with (insertByTime r (sortByTime l)).
  rewrite lastOf_insertByTime by apply sortByTime_sorted.
  rewrite IH. reflexivity.
Qed.

Lemma sortByTime_length l : List.length (sortByTime l) = List.length l.
Proof. apply Permutation_length, sortByTime_Permutation. Qed.

(** The delta the code computes is the delta of the specification; the
    early return is a contribution of zero. *)
Lemma energyDelta_spec readings :
  energyDelta readings
  = if (List.length readings <? 2)%nat then None
    else Some (Spec.delta readings).
Proof.
  unfold energyDelta, Spec.delta.
  destruct (List.length readings <? 2)%nat eqn:Hlen; [reflexivity|].
  rewrite first_sorted_earliest, last_sorted_latest.
  destruct readings as [|r rest]; [discriminate Hlen|].
  simpl. destruct (Spec.earliest rest), (Spec.latest rest);
    repeat match goal with |- context [if ?b then _ else _] => destruct b end;
    reflexivity.
Qed.

Lemma addGroup_spec classify acc device readings :
  addGroup classify acc (device, readings)
  = credit (classify device) (Spec.delta readings) acc.
Proof.
  unfold addGroup. simpl. rewrite energyDelta_spec.
  unfold Spec.delta.
  destruct (List.length readings <? 2)%nat; [|reflexivity].
  now rewrite TotalsFacts.credit_zero.
Qed.

End SortFacts.

(* ------------------------------------------------------------------ *)
(** * Grouping rows by device *)

Module GroupFacts.

Section Grouping.

Variable deviceOf : Row -> option string.

Lemma pushTo_plain g k row :
  JS.inherited k = false ->
  NoDup (map fst g) -> ownKeysPlain g ->
  exists g1,
    pushTo g k row = Returned g1
    /\ NoDup (map fst g1) /\ ownKeysPlain g1
    /\ forall k', JS.getOwn g1 k'
                  = if String.eqb k' k then grown (JS.getOwn g k) [row]
                    else JS.getOwn g k'.
Proof.
  intros Hk Hnd Hplain. unfold pushTo, JS.get.
  destruct (JS.getOwn g k) as [old|] eqn:Hget.
  - eexists. split; [reflexivity|].
    assert (Hkeys : map fst (JS.update g k (old ++ [row])) = map fst g).
    { rewrite ObjFacts.keys_update. unfold JS.hasOwnProperty. now rewrite Hget. }
    repeat split.
    + now rewrite Hkeys.
    + intros k'. rewrite Hkeys. apply Hplain.
    + intros k'. destruct (String.eqb_spec k' k) as [->|Hne].
      * apply ObjFacts.getOwn_update_same.
      * now apply ObjFacts.getOwn_update_other.
  - rewrite Hk. eexists. split; [reflexivity|].
    assert (Hnotin : ~ In k (map fst g)) by now apply ObjFacts.getOwn_None.
    repeat split.
    + rewrite map_app. simpl.
      apply NoDup_app_remove_l with (l := []).
      apply Permutation_NoDup with (l := k :: map fst g).
      * simpl. apply Permutation_cons_append.
      * now constructor.
    + intros k'. rewrite map_app, in_app_iff. simpl.
      intros [Hin|[<-|[]]]; [now apply Hplain|assumption].
    + intros k'. now apply ObjFacts.getOwn_app_new.
Qed.

Lemma pushTo_inherited g k row :
  JS.inherited k = true -> ownKeysPlain g ->
  pushTo g k row = Thrown TypeError.
Proof.
  intros Hk Hplain. unfold pushTo, JS.get.
  destruct (JS.getOwn g k) as [old|] eqn:Hget.
  - apply ObjFacts.getOwn_In in Hget. apply (in_map fst) in Hget.
    apply Hplain in Hget. simpl in Hget. congruence.
  - now rewrite Hk.
Qed.

Lemma grown_assoc before row rows :
  grown (grown before [row]) rows = grown before (row :: rows).
Proof.
  destruct before as [old|]; simpl.
  - now rewrite <- app_assoc.
  - reflexivity.
Qed.

(** The grouping loop throws exactly when some row carries an inherited
    name; otherwise every group holds the rows of its device, in order. *)
Lemma forEach_step data : forall g,
  NoDup (map fst g) -> ownKeysPlain g ->
  if Spec.inheritedName deviceOf data
  then forEach (byDevice deviceOf) data g = Thrown TypeError
  else exists g',
      forEach (byDevice deviceOf) data g = Returned g'
      /\ NoDup (map fst g')
      /\ forall k, JS.getOwn g' k
                   = grown (JS.getOwn g k) (Spec.readingsOf deviceOf k data).
Proof.
  induction data as [|row rest IH]; intros g Hnd Hplain.
  - simpl. exists g. repeat split; [assumption|].
    intros k. destruct (JS.getOwn g k); simpl; [now rewrite app_nil_r|reflexivity].
  - cbn [Spec.inheritedName existsb forEach].
    unfold byDevice at 1 3.
    unfold Spec.readingsOf, Spec.belongsTo. cbn [filter].
    destruct (deviceOf row) as [d|] eqn:Hd.
    + destruct (JS.inherited d) eqn:Hinh; cbn [orb].
      * now rewrite pushTo_inherited.
      * destruct (pushTo_plain g d row Hinh Hnd Hplain)
          as (g1 & -> & Hnd1 & Hplain1 & Hget1).
        cbn [JS.bind]. specialize (IH g1 Hnd1 Hplain1).
        fold (Spec.inheritedName deviceOf rest).
        destruct (Spec.inheritedName deviceOf rest); [exact IH|].
        destruct IH as (g' & Hrun & Hnd' & Hget').
        exists g'. repeat split; [assumption|assumption|].
        intros k. rewrite Hget', Hget1.
        rewrite (String.eqb_sym d k).
        destruct (String.eqb_spec k d) as [->|Hne];
          [apply grown_assoc|reflexivity].
    + cbn [orb JS.bind]. apply IH; assumption.
Qed.

Lemma devices_In d data :
  In d (Spec.devices deviceOf data) <-> Spec.readingsOf deviceOf d data <> [].
Proof.
  unfold Spec.devices. rewrite nodup_In, in_flat_map.
  unfold Spec.readingsOf, Spec.belongsTo. split.
  - intros (r & Hin & Hd) Hempty.
    assert (Hr : In r (filter (fun r => match deviceOf r with
                                        | Some d0 => String.eqb d0 d
                                        | None => false
                                        end) data)).
    { apply filter_In. split; [assumption|].
      destruct (deviceOf r) as [d0|]; [|now destruct Hd].
      destruct Hd as [->|[]]. apply String.eqb_refl. }
    rewrite Hempty in Hr. exact Hr.
  - intros Hne.
    destruct (filter _ data) as [|r rs] eqn:E; [now contradiction Hne|].
    assert (Hr : In r (r :: rs)) by now left.
    rewrite <- E in Hr. apply filter_In in Hr as [Hin Hb].
    exists r. split; [assumption|].
    destruct (deviceOf r) as [d0|]; [|discriminate].
    apply String.eqb_eq in Hb. subst. now left.
Qed.

Lemma groups_keys data :
  map fst (Spec.groups deviceOf data) = Spec.devices deviceOf data.
Proof.
  unfold Spec.groups. rewrite map_map. simpl. apply map_id.
Qed.

Lemma groups_getOwn data k :
  JS.getOwn (Spec.groups deviceOf data) k
  = grown None (Spec.readingsOf deviceOf k data).
Proof.
  destruct (in_dec string_dec k (Spec.devices deviceOf data)) as [Hin|Hnotin].
  - assert (Hne := proj1 (devices_In k data) Hin).
    destruct (Spec.readingsOf deviceOf k data) as [|r rs] eqn:E;
      [now contradiction Hne|].
    simpl. rewrite <- E.
    apply ObjFacts.In_getOwn.
    + rewrite groups_keys. apply NoDup_nodup.
    + unfold Spec.groups. apply in_map_iff. now exists k.
  - assert (Hnone : JS.getOwn (Spec.groups deviceOf data) k = None).
    { apply ObjFacts.getOwn_None. now rewrite groups_keys. }
    rewrite Hnone.
    destruct (Spec.readingsOf deviceOf k data) as [|r rs] eqn:E; [reflexivity|].
    exfalso. apply Hnotin, devices_In. now rewrite E.
Qed.

(** The groups the loop builds are those of the specification, listed in
    some order. *)
Lemma groups_refine data :
  if Spec.inheritedName deviceOf data
  then forEach (byDevice deviceOf) data [] = Thrown TypeError
  else exists g,
      forEach (byDevice deviceOf) data [] = Returned g /\ Permutation g (Spec.groups deviceOf data).
Proof.
  pose proof (forEach_step data [] (NoDup_nil _)) as H.
  destruct (Spec.inheritedName deviceOf data).
  - apply H. intros k [].
  - destruct H as (g & Hrun & Hnd & Hget); [intros k []|].
    exists g. split; [assumption|].
    apply ObjFacts.same_properties_Permutation.
    + assumption.
    + rewrite groups_keys. apply NoDup_nodup.
    + intros k. now rewrite Hget, groups_getOwn.
Qed.

Variable classify : string -> target.

(** Summing the groups of the code gives the totals of the specification. *)
Lemma sums_refine data g :
  Permutation g (Spec.groups deviceOf data) ->
  sumGroups classify g = Spec.sums deviceOf classify data.
Proof.
  intros Hperm. rewrite (TotalsFacts.sumGroups_Permutation classify _ _ Hperm).
  unfold Spec.groups, Spec.sums.
  generalize (Spec.devices deviceOf data). generalize ((0, 0) : totals).
  intros acc l. revert acc.
  induction l as [|d l IH]; intros acc; simpl; [reflexivity|].
  now rewrite SortFacts.addGroup_spec, IH.
Qed.

End Grouping.

End GroupFacts.

(* ------------------------------------------------------------------ *)
(** * The two InfluxDB aggregators refine the specification *)

Module Refinement.

Lemma forEach_ext {A S : Type} (f f' : S -> A -> outcome S) :
  (forall s a, f s a = f' s a) ->
  forall l s, forEach f l s = forEach f' l s.
Proof.
  intros Hext l. induction l as [|a l IH]; intros s; simpl; [reflexivity|].
  rewrite Hext. destruct (f' s a); simpl; [apply IH|reflexivity].
Qed.

Lemma influx_groupRows data :
  Influx.groupRows data = forEach (byDevice influxDevice) data [].
Proof.
  unfold Influx.groupRows. apply forEach_ext.
  intros g row. unfold byDevice, influxDevice.
  destruct (Influx.normalizeMacAddress (mac_address row)) as [k|]; [|reflexivity].
  now destruct (JS.truthy k).
Qed.

Lemma flat_groupRows data :
  InfluxFlat.groupRows data = forEach (byDevice flatDevice) data [].
Proof. reflexivity. Qed.

(** part_000 *)
Lemma influx_refines data mappingData room :
  Influx.calculateEnergyFromInfluxData data mappingData room
  = if Spec.inheritedName influxDevice data then Thrown TypeError
    else Returned
           (Spec.aggregate influxDevice
              (Influx.classify (Influx.macToRoomMap mappingData) room) data).
Proof.
  unfold Influx.calculateEnergyFromInfluxData. rewrite influx_groupRows.
  pose proof (GroupFacts.groups_refine influxDevice data) as H.
  destruct (Spec.inheritedName influxDevice data).
  - now rewrite H.
  - destruct H as (g & -> & Hperm). simpl.
    now rewrite (GroupFacts.sums_refine influxDevice _ data g Hperm).
Qed.

(** part_001, second program *)
Lemma flat_refines data macToRoomMap room :
  InfluxFlat.calculateEnergyFromInfluxData data macToRoomMap room
  = if Spec.inheritedName flatDevice data then Thrown TypeError
    else Returned
           (Spec.aggregate flatDevice (InfluxFlat.classify macToRoomMap room)
              data).
Proof.
  unfold InfluxFlat.calculateEnergyFromInfluxData. rewrite flat_groupRows.
  pose proof (GroupFacts.groups_refine flatDevice data) as H.
  destruct (Spec.inheritedName flatDevice data).
  - now rewrite H.
  - destruct H as (g & -> & Hperm). simpl.
    now rewrite (GroupFacts.sums_refine flatDevice _ data g Hperm).
Qed.

End Refinement.

(* ------------------------------------------------------------------ *)
(** * The specification does not depend on the order of the rows *)

Module OrderFacts.

Lemma earliest_least readings e :
  Spec.earliest readings = Some e ->
  In e readings /\ forall r, In r readings -> (_time e <= _time r)%Z.
Proof.
  revert e. induction readings as [|x rest IH]; intros e; simpl; [discriminate|].
  destruct (Spec.earliest rest) as [best|] eqn:E.
  - destruct (IH best eq_refl) as [Hin Hmin].
    destruct (Z.leb_spec (_time x) (_time best)) as [Hle|Hgt]; intros [= <-].
    + split; [now left|]. intros r [<-|Hr]; [lia|].
      specialize (Hmin r Hr). lia.
    + split; [now right|]. intros r [<-|Hr]; [lia|now apply Hmin].
  - intros [= <-]. destruct rest as [|y rest'].
    + split; [now left|]. intros r [<-|[]]. lia.
    + exfalso. simpl in E. destruct (Spec.earliest rest') as [b|];
        [destruct (_time y <=? _time b)%Z|]; discriminate E.
Qed.

Lemma latest_greatest readings l :
  Spec.latest readings = Some l ->
  In l readings /\ forall r, In r readings -> (_time r <= _time l)%Z.
Proof.
  revert l. induction readings as [|x rest IH]; intros l; simpl; [discriminate|].
  destruct (Spec.latest rest) as [best|] eqn:E.
  - destruct (IH best eq_refl) as [Hin Hmax].
    destruct (Z.ltb_spec (_time best) (_time x)) as [Hlt|Hge]; intros [= <-].
    + split; [now left|]. intros r [<-|Hr]; [lia|].
      specialize (Hmax r Hr). lia.
    + split; [now right|]. intros r [<-|Hr]; [lia|now apply Hmax].
  - intros [= <-]. destruct rest as [|y rest'].
    + split; [now left|]. intros r [<-|[]]. lia.
    + exfalso. simpl in E. destruct (Spec.latest rest') as [b|];
        [destruct (_time b <? _time y)%Z|]; discriminate E.
Qed.

Lemma earliest_some readings :
  readings <> [] -> exists e, Spec.earliest readings = Some e.
Proof.
  destruct readings as [|x rest]; [now intros []|]. intros _. simpl.
  destruct (Spec.earliest rest) as [b|];
    [destruct (_time x <=? _time b)%Z|]; eauto.
Qed.

Lemma latest_some readings :
  readings <> [] -> exists l, Spec.latest readings = Some l.
Proof.
  destruct readings as [|x rest]; [now intros []|]. intros _. simpl.
  destruct (Spec.latest rest) as [b|];
    [destruct (_time b <? _time x)%Z|]; eauto.
Qed.

Lemma distinct_times_inj readings a b :
  NoDup (map _time readings) ->
  In a readings -> In b readings -> _time a = _time b -> a = b.
Proof.
  induction readings as [|x rest IH]; simpl; [now intros _ []|].
  intros Hnd Ha Hb Hab. inversion Hnd as [|? ? Hnotin Hnd']; subst.
  destruct Ha as [<-|Ha], Hb as [<-|Hb]; try reflexivity.
  - exfalso. apply Hnotin. rewrite Hab. now apply in_map.
  - exfalso. apply Hnotin. rewrite <- Hab. now apply in_map.
  - now apply IH.
Qed.

Section Order.

Variable deviceOf : Row -> option string.
Variable classify : string -> target.

Lemma readingsOf_Permutation d data data' :
  Permutation data data' ->
  Permutation (Spec.readingsOf deviceOf d data) (Spec.readingsOf deviceOf d data').
Proof.
  intros Hperm. unfold Spec.readingsOf.
  induction Hperm as [|x l l' _ IH|x y l|l l' l'' _ IH1 _ IH2]; simpl.
  - reflexivity.
  - destruct (Spec.belongsTo deviceOf d x); [now apply perm_skip|assumption].
  - destruct (Spec.belongsTo deviceOf d x), (Spec.belongsTo deviceOf d y);
      try reflexivity. apply perm_swap.
  - now rewrite IH1.
Qed.

Lemma devices_Permutation data data' :
  Permutation data data' ->
  Permutation (Spec.devices deviceOf data) (Spec.devices deviceOf data').
Proof.
  intros Hperm. apply NoDup_Permutation.
  - apply NoDup_nodup.
  - apply NoDup_nodup.
  - intros d. rewrite !GroupFacts.devices_In.
    pose proof (readingsOf_Permutation d _ _ Hperm) as Hp.
    split; intros Hne Hempty; apply Hne.
    + rewrite Hempty in Hp. now apply Permutation_nil, Permutation_sym.
    + rewrite Hempty in Hp. now apply Permutation_nil.
Qed.

Lemma inheritedName_Permutation data data' :
  Permutation data data' ->
  Spec.inheritedName deviceOf data = Spec.inheritedName deviceOf data'.
Proof.
  intros Hperm. unfold Spec.inheritedName.
  induction Hperm as [|x l l' _ IH|x y l|l l' l'' _ IH1 _ IH2]; simpl.
  - reflexivity.
  - now rewrite IH.
  - rewrite !orb_assoc. f_equal. apply orb_comm.
  - now rewrite IH1.
Qed.

Lemma fold_credit_ext (f f' : string -> Q) l :
  (forall d, In d l -> f d = f' d) ->
  forall acc,
    fold_left (fun acc d => credit (classify d) (f d) acc) l acc
    = fold_left (fun acc d => credit (classify d) (f' d) acc) l acc.
Proof.
  induction l as [|d l IH]; intros Hext acc; simpl; [reflexivity|].
  rewrite (Hext d) by now left.
  apply IH. intros d' Hd'. apply Hext. now right.
Qed.

End Order.

End OrderFacts.

(* ------------------------------------------------------------------ *)
(** * The supply meter and the consumption total *)

Module SupplyFacts.

(** A component of the totals that the steps on dropped elements leave
    alone is the same after dropping them. *)
Lemma fold_filter {A : Type} (F : totals -> A -> totals) (sel : totals -> Q)
  (keep : A -> bool) :
  (forall a acc, keep a = false -> sel (F acc a) = sel acc) ->
  (forall a acc acc', sel acc = sel acc' -> sel (F acc a) = sel (F acc' a)) ->
  forall l acc acc',
    sel acc = sel acc' ->
    sel (fold_left F l acc) = sel (fold_left F (filter keep l) acc').
Proof.
  intros Hdrop Hcongr l.
  induction l as [|a l IH]; intros acc acc' Hsel; simpl; [assumption|].
  destruct (keep a) eqn:Hkeep; simpl.
  - apply IH. now apply Hcongr.
  - apply IH. now rewrite Hdrop.
Qed.

Lemma fst_credit_congr t v (acc acc' : totals) :
  fst acc = fst acc' -> fst (credit t v acc) = fst (credit t v acc').
Proof. intros H. destruct t; simpl; now rewrite ?H. Qed.

Lemma snd_credit_congr t v (acc acc' : totals) :
  snd acc = snd acc' -> snd (credit t v acc) = snd (credit t v acc').
Proof. intros H. destruct t; simpl; now rewrite ?H. Qed.

Section Selection.

Variable deviceOf : Row -> option string.
Variable classify : string -> target.
Variable keep : string -> bool.
Variable orphans : bool.
Variable sel : totals -> Q.

Hypothesis sel_drop :
  forall d v acc, keep d = false -> sel (credit (classify d) v acc) = sel acc.
Hypothesis sel_congr :
  forall t v acc acc', sel acc = sel acc' ->
                       sel (credit t v acc) = sel (credit t v acc').

Lemma readingsOf_rowsWhere d data :
  Spec.readingsOf deviceOf d (rowsWhere deviceOf keep orphans data)
  = if keep d then Spec.readingsOf deviceOf d data else [].
Proof.
  unfold Spec.readingsOf, rowsWhere, Spec.belongsTo.
  induction data as [|r data IH]; simpl; [now destruct (keep d)|].
  destruct (deviceOf r) as [d0|] eqn:Hd.
  - destruct (String.eqb_spec d0 d) as [->|Hne].
    + destruct (keep d) eqn:Hk; simpl.
      * rewrite Hd, String.eqb_refl. now rewrite IH.
      * assumption.
    + destruct (keep d0); simpl; [|assumption].
      rewrite Hd. destruct (String.eqb_spec d0 d); [contradiction|assumption].
  - destruct orphans; simpl; [|assumption]. now rewrite Hd.
Qed.

Lemma devices_rowsWhere data :
  Permutation (filter keep (Spec.devices deviceOf data))
    (Spec.devices deviceOf (rowsWhere deviceOf keep orphans data)).
Proof.
  apply NoDup_Permutation.
  - apply NoDup_filter, NoDup_nodup.
  - apply NoDup_nodup.
  - intros d. rewrite filter_In, !GroupFacts.devices_In, readingsOf_rowsWhere.
    destruct (keep d); [tauto|]. split; [now intros [_ H]|now intros []].
Qed.

Lemma sums_rowsWhere data :
  sel (Spec.sums deviceOf classify data)
  = sel (Spec.sums deviceOf classify (rowsWhere deviceOf keep orphans data)).
Proof.
  unfold Spec.sums.
  rewrite (fold_filter
             (fun acc d =>
                credit (classify d)
                  (Spec.delta (Spec.readingsOf deviceOf d data)) acc)
             sel keep
             (fun a acc Hk => sel_drop a _ acc Hk)
             (fun a acc acc' H => sel_congr _ _ acc acc' H)
             (Spec.devices deviceOf data) (0, 0) (0, 0) eq_refl).
  rewrite (TotalsFacts.fold_left_Permutation
             (fun acc d =>
                credit (classify d)
                  (Spec.delta (Spec.readingsOf deviceOf d data)) acc)
             (fun s a b => TotalsFacts.credit_swap _ _ _ _ s)
             _ _ (devices_rowsWhere data)).
  f_equal. apply OrderFacts.fold_credit_ext.
  intros d Hd. rewrite readingsOf_rowsWhere.
  destruct (keep d) eqn:Hk; [reflexivity|].
  exfalso. apply GroupFacts.devices_In in Hd.
  rewrite readingsOf_rowsWhere, Hk in Hd. now apply Hd.
Qed.

Lemma inheritedName_rowsWhere data :
  (forall d, keep d = false -> JS.inherited d = false) ->
  Spec.inheritedName deviceOf (rowsWhere deviceOf keep orphans data)
  = Spec.inheritedName deviceOf data.
Proof.
  intros Hplain. unfold Spec.inheritedName, rowsWhere.
  induction data as [|r data IH]; simpl; [reflexivity|].
  destruct (deviceOf r) as [d|] eqn:Hd.
  - destruct (keep d) eqn:Hk; simpl.
    + now rewrite Hd, IH.
    + now rewrite (Hplain d Hk), IH.
  - destruct orphans; simpl; [now rewrite Hd, IH|assumption].
Qed.

End Selection.

(** ** The three classification chains put the supply meter first *)

Lemma influx_classify_supply m room d :
  influxSupply d = true -> Influx.classify m room d = ToSupply.
Proof.
  unfold influxSupply, Influx.classify.
  destruct (Influx.normalizeMacAddress (Some SUPPLY_MAC_NORMALIZED));
    [|discriminate].
  now intros ->.
Qed.

Lemma influx_classify_other m room d :
  influxSupply d = false -> Influx.classify m room d <> ToSupply.
Proof.
  unfold influxSupply, Influx.classify.
  destruct (Influx.normalizeMacAddress (Some SUPPLY_MAC_NORMALIZED));
    [|discriminate].
  intros ->.
  destruct (roomRequested room).
  - destruct (JS.get m d) as [v| |]; try discriminate.
    destruct (JS.truthy v && roomIs room v); discriminate.
  - destruct (JS.hasOwnProperty m d); discriminate.
Qed.

Lemma flat_classify_supply m room d :
  flatSupply d = true -> InfluxFlat.classify m room d = ToSupply.
Proof.
  unfold flatSupply, InfluxFlat.classify, classifyFlat,
    InfluxFlat.normalizedKey.
  now intros ->.
Qed.

Lemma flat_classify_other m room d :
  flatSupply d = false -> InfluxFlat.classify m room d <> ToSupply.
Proof.
  unfold flatSupply, InfluxFlat.classify, classifyFlat,
    InfluxFlat.normalizedKey.
  intros ->.
  destruct (roomRequested room).
  - destruct (JS.getOwn m (JS.toLowerCase d)) as [v|]; try discriminate.
    destruct (roomIs room (Scalar.toString v)); discriminate.
  - destruct (JS.hasOwnProperty m (JS.toLowerCase d)); discriminate.
Qed.

Lemma fst_credit_supply v acc : fst (credit ToSupply v acc) = fst acc.
Proof. reflexivity. Qed.

Lemma snd_credit_not_supply t v acc :
  t <> ToSupply -> snd (credit t v acc) = snd acc.
Proof. destruct t; [now intros []|reflexivity|reflexivity]. Qed.

Lemma influxSupply_plain d : influxSupply d = true -> JS.inherited d = false.
Proof.
  unfold influxSupply. simpl. intros H. apply String.eqb_eq in H. now subst.
Qed.

Lemma flatSupply_plain d : flatSupply d = true -> JS.inherited d = false.
Proof.
  unfold flatSupply. intros H.
  destruct (JS.inherited d) eqn:E; [|reflexivity].
  unfold JS.inherited in E. apply existsb_exists in E as (k & Hk & Heq).
  apply String.eqb_eq in Heq. subst k.
  simpl in Hk.
  repeat (destruct Hk as [<-|Hk]; [discriminate H|]). now destruct Hk.
Qed.

End SupplyFacts.

(* ------------------------------------------------------------------ *)
(** * The aggregators over any arithmetic *)

Module GenericFacts.

Import Numbers.

(** With distinct timestamps the endpoints of a group depend on the set of
    its readings only. *)
Lemma endpoints_Permutation readings readings' :
  Permutation readings readings' ->
  NoDup (map _time readings) ->
  Spec.earliest readings = Spec.earliest readings'
  /\ Spec.latest readings = Spec.latest readings'.
Proof.
  intros Hperm Hnd.
  destruct readings as [|x rest].
  { apply Permutation_nil in Hperm. now subst. }
  assert (Hne : x :: rest <> []) by discriminate.
  assert (Hne' : readings' <> []).
  { intros ->. apply Permutation_sym, Permutation_nil in Hperm. discriminate. }
  destruct (OrderFacts.earliest_some _ Hne) as [e He].
  destruct (OrderFacts.earliest_some _ Hne') as [e' He'].
  destruct (OrderFacts.latest_some _ Hne) as [l Hl].
  destruct (OrderFacts.latest_some _ Hne') as [l' Hl'].
  rewrite He, He', Hl, Hl'.
  apply OrderFacts.earliest_least in He as [Hein Hemin], He' as [Hein' Hemin'].
  apply OrderFacts.latest_greatest in Hl as [Hlin Hlmax], Hl' as [Hlin' Hlmax'].
  assert (Hee : e = e').
  { apply (OrderFacts.distinct_times_inj (x :: rest)); try assumption.
    - now apply (Permutation_in _ (Permutation_sym Hperm)).
    - apply Z.le_antisymm.
      + apply Hemin. now apply (Permutation_in _ (Permutation_sym Hperm)).
      + apply Hemin'. now apply (Permutation_in _ Hperm). }
  assert (Hll : l = l').
  { apply (OrderFacts.distinct_times_inj (x :: rest)); try assumption.
    - now apply (Permutation_in _ (Permutation_sym Hperm)).
    - apply Z.le_antisymm.
      + apply Hlmax'. now apply (Permutation_in _ Hperm).
      + apply Hlmax. now apply (Permutation_in _ (Permutation_sym Hperm)). }
  now subst.
Qed.

(** A list of entries whose values are a function of their keys. *)
Lemma entries_of_keys {V : Type} (f : string -> V) (l : list (string * V)) :
  (forall e, In e l -> snd e = f (fst e)) ->
  l = map (fun k => (k, f k)) (map fst l).
Proof.
  induction l as [|[k v] l IH]; intros H; simpl; [reflexivity|].
  rewrite <- IH by (intros e He; apply H; now right).
  f_equal. f_equal. exact (H (k, v) (or_introl eq_refl)).
Qed.

Lemma getOwn_Permutation {V : Type} (o1 o2 : JS.jsobj V) (k : string) :
  NoDup (map fst o1) -> Permutation o1 o2 ->
  JS.getOwn o1 k = JS.getOwn o2 k.
Proof.
  intros Hnd Hperm.
  assert (Hnd2 : NoDup (map fst o2)).
  { apply (Permutation_NoDup (l := map fst o1)); [|assumption].
    now apply Permutation_map. }
  destruct (JS.getOwn o1 k) as [v|] eqn:E1.
  - symmetry. apply ObjFacts.In_getOwn; [assumption|].
    apply (Permutation_in _ Hperm). now apply ObjFacts.getOwn_In.
  - symmetry. apply ObjFacts.getOwn_None.
    apply ObjFacts.getOwn_None in E1. intros Hin. apply E1.
    apply (Permutation_in _ (Permutation_sym (Permutation_map fst Hperm))).
    exact Hin.
Qed.

(** A single own property is enumerated as it is. *)
Lemma entries_single {V : Type} (k : string) (v : V) :
  JS.entries [(k, v)] = [(k, v)].
Proof.
  unfold JS.entries, JS.named. simpl.
  now destruct (JS.arrayIndex k).
Qed.

(** *** The keys of an object decide the order of its enumeration *)

Section Keys.

Context {V : Type}.

Lemma unvalued_keys (o : JS.jsobj V) :
  unvalued o = map (fun k => (k, tt)) (map fst o).
Proof. unfold unvalued. now rewrite map_map. Qed.

Lemma insertByIndex_unvalued (e : N * (string * V)) l :
  map (fun e => (fst e, (fst (snd e), tt))) (JS.insertByIndex e l)
  = JS.insertByIndex (fst e, (fst (snd e), tt))
      (map (fun e => (fst e, (fst (snd e), tt))) l).
Proof.
  induction l as [|e' l IH]; simpl; [reflexivity|].
  destruct (fst e <=? fst e')%N; simpl; [reflexivity|now rewrite IH].
Qed.

Lemma indexed_unvalued (o : JS.jsobj V) :
  map (fun e => (fst e, (fst (snd e), tt))) (JS.indexed o)
  = JS.indexed (unvalued o).
Proof.
  induction o as [|[k v] o IH]; simpl; [reflexivity|].
  destruct (JS.arrayIndex k) as [n|]; [|exact IH].
  now rewrite insertByIndex_unvalued, IH.
Qed.

Lemma keys_unvalued (o : JS.jsobj V) : JS.keys o = JS.keys (unvalued o).
Proof.
  unfold JS.keys, JS.entries. rewrite !map_app, !map_map. f_equal.
  - rewrite <- indexed_unvalued, map_map. reflexivity.
  - unfold JS.named, unvalued.
    induction o as [|[k v] o IH]; simpl; [reflexivity|].
    destruct (JS.arrayIndex k); simpl; now rewrite IH.
Qed.

Lemma hasOwnProperty_unvalued (o : JS.jsobj V) k :
  JS.hasOwnProperty o k = JS.hasOwnProperty (unvalued o) k.
Proof.
  unfold JS.hasOwnProperty, unvalued.
  induction o as [|[k' v] o IH]; simpl; [reflexivity|].
  now destruct (String.eqb k k').
Qed.

End Keys.

Lemma keys_of_keys {V V' : Type} (o : JS.jsobj V) (o' : JS.jsobj V') :
  map fst o = map fst o' -> JS.keys o = JS.keys o'.
Proof.
  intros H. rewrite (keys_unvalued o), (keys_unvalued o').
  now rewrite !unvalued_keys, H.
Qed.

Lemma hasOwnProperty_keys {V V' : Type} (o : JS.jsobj V) (o' : JS.jsobj V') k :
  map fst o = map fst o' -> JS.hasOwnProperty o k = JS.hasOwnProperty o' k.
Proof.
  intros H.
  rewrite (hasOwnProperty_unvalued o), (hasOwnProperty_unvalued o').
  now rewrite !unvalued_keys, H.
Qed.

(** The keys after a push. *)
Lemma pushTo_keys {A : Type} (g g1 : JS.jsobj (list A)) k (x : A) :
  pushTo g k x = Returned g1 ->
  map fst g1 = if JS.hasOwnProperty g k then map fst g else map fst g ++ [k].
Proof.
  unfold pushTo, JS.get, JS.hasOwnProperty.
  destruct (JS.getOwn g k) as [items|] eqn:E.
  - intros [= <-]. rewrite ObjFacts.keys_update.
    unfold JS.hasOwnProperty. now rewrite E.
  - destruct (JS.inherited k); [discriminate|].
    intros [= <-]. now rewrite map_app.
Qed.

(** The keys of the groups depend on the devices of the rows, in the
    order of the rows. *)
Lemma grouping_keys (deviceOf : Row -> option string) (data : list Row) :
  forall data' g0 g0' g g',
    map fst g0 = map fst g0' ->
    map deviceOf data = map deviceOf data' ->
    forEach (byDevice deviceOf) data g0 = Returned g ->
    forEach (byDevice deviceOf) data' g0' = Returned g' ->
    map fst g = map fst g'.
Proof.
  induction data as [|row data IH]; intros [|row' data'] g0 g0' g g' Hkeys Hdev;
    try discriminate.
  - simpl. intros [= <-] [= <-]. exact Hkeys.
  - cbn [map] in Hdev. injection Hdev as Hrow Hrest.
    cbn [forEach]. unfold byDevice at 1 3. rewrite <- Hrow.
    destruct (deviceOf row) as [k|].
    + destruct (pushTo g0 k row) as [g1|] eqn:E1; [|discriminate].
      destruct (pushTo g0' k row') as [g1'|] eqn:E1'; [|discriminate].
      cbn [JS.bind]. apply IH; [|assumption].
      rewrite (pushTo_keys _ _ _ _ E1), (pushTo_keys _ _ _ _ E1').
      rewrite (hasOwnProperty_keys g0 g0' k Hkeys), Hkeys. reflexivity.
    + cbn [JS.bind]. now apply IH.
Qed.

Section Over.

Variable N : arithmetic.

(** The delta the code computes on the sorted group is the delta between
    the latest and the earliest reading. *)
Lemma energyDelta_contribution readings :
  Generic.energyDelta N readings = Generic.contribution N readings.
Proof.
  unfold Generic.energyDelta, Generic.contribution.
  destruct (List.length readings <? 2)%nat; [reflexivity|]. cbv zeta.
  now rewrite SortFacts.first_sorted_earliest, SortFacts.last_sorted_latest.
Qed.

Lemma contribution_Permutation readings readings' :
  Permutation readings readings' ->
  NoDup (map _time readings) ->
  Generic.contribution N readings = Generic.contribution N readings'.
Proof.
  intros Hperm Hnd. unfold Generic.contribution.
  rewrite <- (Permutation_length Hperm).
  destruct (endpoints_Permutation _ _ Hperm Hnd) as [-> ->].
  reflexivity.
Qed.

(** The loop over the groups adds to each total the deltas classified to
    it, in the order of the enumeration. *)
Lemma fold_addGroup classify (l : list (string * list Row)) :
  forall acc,
    fold_left (Generic.addGroup N classify) l acc
    = (fold_left (plus N) (Generic.creditedTo N classify ToConsumption l)
         (fst acc),
       fold_left (plus N) (Generic.creditedTo N classify ToSupply l)
         (snd acc)).
Proof.
  induction l as [|[k readings] l IH]; intros [c s]; [reflexivity|].
  cbn [fold_left Generic.creditedTo flat_map]. rewrite IH.
  unfold Generic.addGroup. cbn [fst snd].
  rewrite energyDelta_contribution. rewrite !fold_left_app.
  destruct (Generic.contribution N readings) as [delta|];
    destruct (classify k); reflexivity.
Qed.

Lemma sumGroups_credited classify g :
  Generic.sumGroups N classify g
  = (Generic.total N (Generic.creditedTo N classify ToConsumption (JS.entries g)),
     Generic.total N (Generic.creditedTo N classify ToSupply (JS.entries g))).
Proof. unfold Generic.sumGroups. now rewrite fold_addGroup. Qed.

Lemma fold_addBucket m room (l : list Elastic.MacBucket) :
  forall acc,
    fold_left (Generic.addBucket N m room) l acc
    = (fold_left (plus N) (Generic.creditedBuckets N m room ToConsumption l)
         (fst acc),
       fold_left (plus N) (Generic.creditedBuckets N m room ToSupply l)
         (snd acc)).
Proof.
  induction l as [|b l IH]; intros [c s]; [reflexivity|].
  cbn [fold_left Generic.creditedBuckets flat_map]. rewrite IH.
  unfold Generic.addBucket, Generic.bucketDelta. cbv zeta.
  rewrite !fold_left_app.
  destruct (Elastic.first_energy b) as [|f fs],
    (Elastic.last_energy b) as [|h hs];
    destruct (classifyFlat m room (JS.toLowerCase (Elastic.key b)));
    reflexivity.
Qed.

(** part_001, first program: the totals are the sums, in the order of the
    response, of the deltas of the buckets classified to them. *)
Lemma buckets_decomposed buckets m room :
  Generic.calculateEnergyFromBuckets N buckets m room
  = Generic.report N
      (Generic.total N (Generic.creditedBuckets N m room ToConsumption buckets))
      (Generic.total N (Generic.creditedBuckets N m room ToSupply buckets)).
Proof.
  unfold Generic.calculateEnergyFromBuckets. cbv zeta.
  now rewrite fold_addBucket.
Qed.

(** The deltas of the entries under one key. *)
Lemma credited_single classify t k (l : list (string * list Row)) :
  NoDup (map fst l) ->
  (forall k', Generic.goesTo (classify k') t = String.eqb k' k) ->
  Generic.creditedTo N classify t l
  = match JS.getOwn l k with
    | Some readings =>
        match Generic.contribution N readings with
        | Some delta => [delta]
        | None => []
        end
    | None => []
    end.
Proof.
  intros Hnd Honly.
  assert (Hnone : forall l', ~ In k (map fst l') ->
                             Generic.creditedTo N classify t l' = []).
  { induction l' as [|[k' v'] l' IH']; intros Hnotin; [reflexivity|].
    cbn [Generic.creditedTo flat_map fst snd]. rewrite Honly.
    destruct (String.eqb_spec k' k) as [->|Hne].
    - exfalso. apply Hnotin. now left.
    - apply IH'. intros Hin. apply Hnotin. now right. }
  induction l as [|[k' v'] l IH]; [reflexivity|].
  inversion Hnd as [|? ? Hnotin Hnd']; subst.
  cbn [Generic.creditedTo flat_map fst snd JS.getOwn]. rewrite Honly.
  rewrite (String.eqb_sym k k').
  destruct (String.eqb_spec k' k) as [->|Hne].
  - fold (Generic.creditedTo N classify t l).
    rewrite (Hnone l Hnotin). apply app_nil_r.
  - now apply IH.
Qed.

Section Grouping.

Variable deviceOf : Row -> option string.

(** What the grouping loop returns on rows without an inherited name. *)
Lemma grouped data :
  Spec.inheritedName deviceOf data = false ->
  exists g,
    forEach (byDevice deviceOf) data [] = Returned g
    /\ NoDup (map fst g)
    /\ Permutation g (Spec.groups deviceOf data).
Proof.
  intros Hplain.
  pose proof (GroupFacts.groups_refine deviceOf data) as H.
  rewrite Hplain in H. destruct H as (g & Hrun & Hperm).
  exists g. split; [assumption|]. split; [|assumption].
  apply (Permutation_NoDup (l := map fst (Spec.groups deviceOf data))).
  - now apply Permutation_map, Permutation_sym.
  - rewrite GroupFacts.groups_keys. apply NoDup_nodup.
Qed.

Lemma entry_readings data g e :
  Permutation g (Spec.groups deviceOf data) ->
  In e (JS.entries g) ->
  snd e = Spec.readingsOf deviceOf (fst e) data.
Proof.
  intros Hperm Hin.
  apply (Permutation_in _ (ObjFacts.entries_Permutation g)) in Hin.
  apply (Permutation_in _ Hperm) in Hin.
  unfold Spec.groups in Hin. apply in_map_iff in Hin as (d & <- & _).
  reflexivity.
Qed.

Lemma entries_by_keys data g :
  Permutation g (Spec.groups deviceOf data) ->
  JS.entries g
  = map (fun k => (k, Spec.readingsOf deviceOf k data)) (JS.keys g).
Proof.
  intros Hperm. unfold JS.keys.
  apply (entries_of_keys (fun k => Spec.readingsOf deviceOf k data)).
  intros e. now apply entry_readings.
Qed.

Lemma credited_by_keys classify t data (ks : list string) :
  Generic.creditedTo N classify t
    (map (fun k => (k, Spec.readingsOf deviceOf k data)) ks)
  = flat_map (fun k =>
                if Generic.goesTo (classify k) t
                then match Generic.contribution N
                             (Spec.readingsOf deviceOf k data) with
                     | Some delta => [delta]
                     | None => []
                     end
                else []) ks.
Proof.
  induction ks as [|k ks IH]; [reflexivity|].
  cbn [map Generic.creditedTo flat_map fst snd].
  fold (Generic.creditedTo N classify t
          (map (fun k => (k, Spec.readingsOf deviceOf k data)) ks)).
  now rewrite IH.
Qed.

Lemma credited_keys_Permutation classify t data data' (ks : list string) :
  Permutation data data' ->
  Spec.distinctTimes deviceOf data ->
  Generic.creditedTo N classify t
    (map (fun k => (k, Spec.readingsOf deviceOf k data)) ks)
  = Generic.creditedTo N classify t
      (map (fun k => (k, Spec.readingsOf deviceOf k data')) ks).
Proof.
  intros Hperm Hdistinct. rewrite !credited_by_keys.
  apply flat_map_ext. intros k.
  now rewrite (contribution_Permutation _ _
                 (OrderFacts.readingsOf_Permutation deviceOf k _ _ Hperm)
                 (Hdistinct k)).
Qed.

(** A permutation of the rows with distinct timestamps in each group
    credits the same deltas to each total, in some order. *)
Lemma credited_Permutation classify t data data' g g' :
  Permutation data data' ->
  Spec.distinctTimes deviceOf data ->
  Permutation g (Spec.groups deviceOf data) ->
  Permutation g' (Spec.groups deviceOf data') ->
  Permutation (Generic.creditedTo N classify t (JS.entries g))
    (Generic.creditedTo N classify t (JS.entries g')).
Proof.
  intros Hperm Hdistinct Hg Hg'.
  assert (Hflat : forall l l' : list (string * list Row),
            Permutation l l' ->
            Permutation (Generic.creditedTo N classify t l)
              (Generic.creditedTo N classify t l')).
  { intros l l' H. unfold Generic.creditedTo. now apply Permutation_flat_map. }
  rewrite (Hflat _ _ (ObjFacts.entries_Permutation g)).
  rewrite (Hflat _ _ (ObjFacts.entries_Permutation g')).
  rewrite (Hflat _ _ Hg), (Hflat _ _ Hg').
  unfold Spec.groups.
  rewrite (credited_keys_Permutation classify t data data' _ Hperm Hdistinct).
  apply Hflat, Permutation_map.
  now apply OrderFacts.devices_Permutation.
Qed.

(** When the groups are moreover enumerated in the same order, the same
    deltas are credited in the same order. *)
Lemma credited_same_order classify t data data' g g' :
  Permutation data data' ->
  Spec.distinctTimes deviceOf data ->
  Permutation g (Spec.groups deviceOf data) ->
  Permutation g' (Spec.groups deviceOf data') ->
  JS.keys g = JS.keys g' ->
  Generic.creditedTo N classify t (JS.entries g)
  = Generic.creditedTo N classify t (JS.entries g').
Proof.
  intros Hperm Hdistinct Hg Hg' Hkeys.
  rewrite (entries_by_keys data g Hg), (entries_by_keys data' g' Hg').
  rewrite Hkeys.
  now apply credited_keys_Permutation.
Qed.

(** Rows of one device form one group, in the order of arrival. *)
Lemma one_device_grows data k : forall old,
  (forall r, In r data -> deviceOf r = Some k) ->
  forEach (byDevice deviceOf) data [(k, old)] = Returned [(k, old ++ data)].
Proof.
  induction data as [|r data IH]; intros old Hall.
  - simpl. now rewrite app_nil_r.
  - cbn [forEach]. unfold byDevice at 1.
    rewrite (Hall r (or_introl eq_refl)).
    unfold pushTo, JS.get. cbn [JS.getOwn]. rewrite String.eqb_refl.
    cbn [JS.update JS.bind]. rewrite String.eqb_refl.
    rewrite IH by (intros r' Hr'; apply Hall; now right).
    now rewrite <- app_assoc.
Qed.

Lemma one_device_grouped data k :
  JS.inherited k = false ->
  data <> [] ->
  (forall r, In r data -> deviceOf r = Some k) ->
  forEach (byDevice deviceOf) data [] = Returned [(k, data)].
Proof.
  intros Hplain Hne Hall. destruct data as [|r data]; [contradiction|].
  cbn [forEach]. unfold byDevice at 1.
  rewrite (Hall r (or_introl eq_refl)).
  unfold pushTo, JS.get. cbn [JS.getOwn]. rewrite Hplain.
  cbn [JS.bind app].
  now rewrite one_device_grows by (intros r' Hr'; apply Hall; now right).
Qed.

End Grouping.

(** part_000: the totals are the sums, in the order in which the groups
    are enumerated, of the deltas classified to them. *)
Lemma influx_decomposed data mappingData room :
  Generic.calculateEnergyFromInfluxData N data mappingData room
  = returning
      (fun macGroups =>
         let classify :=
           Influx.classify (Influx.macToRoomMap mappingData) room in
         Generic.report N
           (Generic.total N
              (Generic.creditedTo N classify ToConsumption
                 (JS.entries macGroups)))
           (Generic.total N
              (Generic.creditedTo N classify ToSupply
                 (JS.entries macGroups))))
      (Influx.groupRows data).
Proof.
  unfold Generic.calculateEnergyFromInfluxData, returning.
  destruct (Influx.groupRows data) as [g|e]; [|reflexivity].
  cbn [JS.bind]. cbv zeta. now rewrite sumGroups_credited.
Qed.

(** part_001, second program *)
Lemma flat_decomposed data macToRoomMap room :
  Generic.calculateEnergyFromInfluxDataFlat N data macToRoomMap room
  = returning
      (fun macGroups =>
         let classify := InfluxFlat.classify macToRoomMap room in
         Generic.report N
           (Generic.total N
              (Generic.creditedTo N classify ToConsumption
                 (JS.entries macGroups)))
           (Generic.total N
              (Generic.creditedTo N classify ToSupply
                 (JS.entries macGroups))))
      (InfluxFlat.groupRows data).
Proof.
  unfold Generic.calculateEnergyFromInfluxDataFlat, returning.
  destruct (InfluxFlat.groupRows data) as [g|e]; [|reflexivity].
  cbn [JS.bind]. cbv zeta. now rewrite sumGroups_credited.
Qed.

End Over.

(** With exact rationals the aggregators are those of the program
    modules. *)
Lemma influx_exact data mappingData room :
  Generic.calculateEnergyFromInfluxData exact data mappingData room
  = returning exactEnergy
      (Influx.calculateEnergyFromInfluxData data mappingData room).
Proof.
  unfold Generic.calculateEnergyFromInfluxData,
    Influx.calculateEnergyFromInfluxData, returning.
  now destruct (Influx.groupRows data).
Qed.

Lemma flat_exact data macToRoomMap room :
  Generic.calculateEnergyFromInfluxDataFlat exact data macToRoomMap room
  = returning exactEnergy
      (InfluxFlat.calculateEnergyFromInfluxData data macToRoomMap room).
Proof.
  unfold Generic.calculateEnergyFromInfluxDataFlat,
    InfluxFlat.calculateEnergyFromInfluxData, returning.
  now destruct (InfluxFlat.groupRows data).
Qed.

Lemma buckets_exact buckets macToRoomMap room :
  Generic.calculateEnergyFromBuckets exact buckets macToRoomMap room
  = exactEnergy (Elastic.calculateEnergyFromBuckets buckets macToRoomMap room).
Proof. reflexivity. Qed.

(** The supply meter, as the classification chains recognise it. *)
Lemma influx_supply_key macToRoomMap room k :
  Influx.classify macToRoomMap room k = ToSupply
  <-> k = "08f9e07364db"%string.
Proof.
  unfold Influx.classify. cbn.
  destruct (String.eqb_spec k "08f9e07364db") as [->|Hne].
  - tauto.
  - split; [|contradiction].
    destruct (roomRequested room).
    + destruct (JS.get macToRoomMap k) as [macRoom| |]; try discriminate.
      destruct (JS.truthy macRoom && roomIs room macRoom); discriminate.
    + destruct (JS.hasOwnProperty macToRoomMap k); discriminate.
Qed.

Lemma flat_supply_key macToRoomMap room k :
  classifyFlat macToRoomMap room k = ToSupply
  <-> k = SUPPLY_MAC_NORMALIZED.
Proof.
  unfold classifyFlat.
  destruct (String.eqb_spec k SUPPLY_MAC_NORMALIZED) as [->|Hne].
  - tauto.
  - split; [|contradiction].
    destruct (roomRequested room).
    + destruct (JS.getOwn macToRoomMap k) as [roomId|]; try discriminate.
      destruct (roomIs room (Scalar.toString roomId)); discriminate.
    + destruct (JS.hasOwnProperty macToRoomMap k); discriminate.
Qed.

(** Removing the groups of a key that is not classified to a total does
    not change what is credited to it. *)
Lemma credited_without (N : arithmetic) classify t (drop : string -> bool)
  (l : list (string * list Row)) :
  (forall k, drop k = true -> Generic.goesTo (classify k) t = false) ->
  Generic.creditedTo N classify t l
  = Generic.creditedTo N classify t
      (filter (fun entry => negb (drop (fst entry))) l).
Proof.
  intros Hdrop. induction l as [|[k v] l IH]; [reflexivity|].
  cbn [filter fst]. destruct (drop k) eqn:E; cbn [negb].
  - cbn [Generic.creditedTo flat_map fst]. rewrite (Hdrop k E).
    exact IH.
  - cbn [Generic.creditedTo flat_map fst snd].
    fold (Generic.creditedTo N classify t l).
    fold (Generic.creditedTo N classify t
            (filter (fun entry => negb (drop (fst entry))) l)).
    now rewrite IH.
Qed.

Lemma creditedBuckets_without (N : arithmetic) m room t
  (drop : string -> bool) (l : list Elastic.MacBucket) :
  (forall k, drop k = true ->
             Generic.goesTo (classifyFlat m room (JS.toLowerCase k)) t = false) ->
  Generic.creditedBuckets N m room t l
  = Generic.creditedBuckets N m room t
      (filter (fun b => negb (drop (Elastic.key b))) l).
Proof.
  intros Hdrop. induction l as [|b l IH]; [reflexivity|].
  cbn [filter]. destruct (drop (Elastic.key b)) eqn:E; cbn [negb].
  - cbn [Generic.creditedBuckets flat_map]. rewrite (Hdrop _ E).
    exact IH.
  - cbn [Generic.creditedBuckets flat_map].
    fold (Generic.creditedBuckets N m room t l).
    fold (Generic.creditedBuckets N m room t
            (filter (fun b => negb (drop (Elastic.key b))) l)).
    now rewrite IH.
Qed.

End GenericFacts.

(** ** Binary64 *)

Module Binary64Facts.

Import SpecFloat.

(** A finite number minus itself is [+0]. *)
Lemma minus_self (x : Binary64.number) :
  Binary64.finite x = true ->
  Binary64.minus x x = Binary64.positiveZero.
Proof.
  destruct x as [s|s| |s m e]; try discriminate; intros _.
  - now destruct s.
  - unfold Binary64.minus, SFsub. cbv zeta. now rewrite Z.sub_diag.
Qed.

(** 0.1 is read as 0x1.999999999999ap-4. *)
Example one_tenth :
  Binary64.ofQ (1 # 10) = S754_finite false 7205759403792794 (-56).
Proof. vm_compute. reflexivity. Qed.

(** 0.1 + 0.2 + 0.5125 is 0.8125, and 0.5125 + 0.2 + 0.1 is the number
    below it. *)
Example sum_in_one_order :
  Binary64.plus
    (Binary64.plus (Binary64.ofQ (1 # 10)) (Binary64.ofQ (2 # 10)))
    (Binary64.ofQ (5125 # 10000))
  = Binary64.ofQ (8125 # 10000).
Proof. vm_compute. reflexivity. Qed.

Example sum_in_the_other_order :
  Binary64.plus
    (Binary64.plus (Binary64.ofQ (5125 # 10000)) (Binary64.ofQ (2 # 10)))
    (Binary64.ofQ (1 # 10))
  = S754_finite false 7318349394477055 (-53)
  /\ Binary64.ofQ (8125 # 10000) = S754_finite false 7318349394477056 (-53).
Proof. split; vm_compute; reflexivity. Qed.

(** [toFixed(3)] takes the larger neighbour on the tie 0.8125. *)
Example shown_on_a_tie :
  Binary64.shown (Binary64.ofQ (8125 # 10000)) = Binary64.ofQ (813 # 1000)
  /\ Binary64.shown (S754_finite false 7318349394477055 (-53))
     = Binary64.ofQ (812 # 1000).
Proof. split; vm_compute; reflexivity. Qed.

(** A negative total, [NaN] and the infinities. *)
Example shown_special_values :
  Binary64.shown (Binary64.ofQ (- (5 # 1))) = Binary64.positiveZero
  /\ Binary64.shown S754_nan = S754_nan
  /\ Binary64.shown (S754_infinity false) = S754_infinity false
  /\ Binary64.shown (S754_infinity true) = Binary64.positiveZero.
Proof. repeat split. Qed.

End Binary64Facts.

(* ------------------------------------------------------------------ *)
(** * Rounding and clamping *)

Module RoundFacts.










End RoundFacts.

(* ------------------------------------------------------------------ *)
(** * The aggregator: the claims *)

Lemma distinctTimes_of_NoDup (deviceOf : Row -> option string) (data : list Row) :
  NoDup (map _time data) -> Spec.distinctTimes deviceOf data.
Proof.
  intros Hnd device. unfold Spec.readingsOf.
  induction data as [|r data IH]; simpl; [constructor|].
  inversion Hnd as [|? ? Hnotin Hnd']; subst.
  destruct (Spec.belongsTo deviceOf device r); [|now apply IH].
  simpl. constructor; [|now apply IH].
  intros Hin. apply Hnotin.
  apply in_map_iff in Hin as (x & Hx & Hin).
  apply filter_In in Hin as [Hin _].
  apply in_map_iff. now exists x.
Qed.

Example scenario_all_rooms :
  Influx.calculateEnergyFromInfluxData AggExamples.scenario AggExamples.mapping None
  = Returned {| consumption := 2500 # 1000; supply := 8000 # 1000 |}.
Proof. vm_compute. reflexivity. Qed.

Example scenario_room_of_supply_meter :
  Influx.calculateEnergyFromInfluxData AggExamples.scenario AggExamples.mapping
    (Some "3"%string)
  = Returned {| consumption := 0; supply := 8000 # 1000 |}.
Proof. vm_compute. reflexivity. Qed.

Example rollover_clamped_on_the_total :
  Influx.calculateEnergyFromInfluxData AggExamples.rollover AggExamples.mapping None
  = Returned {| consumption := 3000 # 1000; supply := 0 |}.
Proof. vm_compute. reflexivity. Qed.

Module ClaimLemmas.

Lemma elastic_unfold buckets m room :
  Elastic.calculateEnergyFromBuckets buckets m room
  = report (fst (fold_left (Elastic.addBucket m room) buckets (0, 0)))
           (snd (fold_left (Elastic.addBucket m room) buckets (0, 0))).
Proof. reflexivity. Qed.

(** The rows of a permutation of three readings of one address. *)
Lemma three_readings_device (readings : list Row) (mac : option string)
  (k : string) (a b c : Row) :
  Permutation readings [a; b; c] ->
  mac_address a = mac -> mac_address b = mac -> mac_address c = mac ->
  Influx.normalizeMacAddress mac = Some k ->
  JS.truthy k = true ->
  readings <> []
  /\ forall r, In r readings -> influxDevice r = Some k.
Proof.
  intros Hperm Ha Hb Hc Hk Htruthy. split.
  - intros ->. apply Permutation_nil in Hperm. discriminate.
  - intros r Hr. apply (Permutation_in _ Hperm) in Hr.
    unfold influxDevice.
    destruct Hr as [<-|[<-|[<-|[]]]];
      rewrite ?Ha, ?Hb, ?Hc, Hk, Htruthy; reflexivity.
Qed.

(** The delta of three readings at increasing instants, in any order of
    arrival, is the last value minus the first one. *)
Lemma three_readings_delta (N : Numbers.arithmetic) (readings : list Row)
  (mac : option string) (first middle last : Q) (t1 t2 t3 : Z) :
  (t1 < t2 < t3)%Z ->
  Permutation readings
    [mkRow mac first t1; mkRow mac middle t2; mkRow mac last t3] ->
  Generic.contribution N readings
  = Some (Numbers.minus N (Numbers.read N last) (Numbers.read N first)).
Proof.
  intros Ht Hperm.
  rewrite (GenericFacts.contribution_Permutation N _ _ Hperm).
  - unfold Generic.contribution. cbn.
    repeat match goal with
           | |- context [(?a <=? ?b)%Z] =>
               destruct (Z.leb_spec a b); cbn in *; try lia
           | |- context [(?a <? ?b)%Z] =>
               destruct (Z.ltb_spec a b); cbn in *; try lia
           end.
    reflexivity.
  - apply (Permutation_NoDup (l := [t1; t2; t3])).
    + change [t1; t2; t3]
        with (map _time
                [mkRow mac first t1; mkRow mac middle t2; mkRow mac last t3]).
      now apply Permutation_map, Permutation_sym.
    + repeat constructor; simpl; intuition lia.
Qed.

(** The rows of one device, in part_000. *)
Lemma one_device (N : Numbers.arithmetic) (data : list Row) (k : string)
  (mappingData : Influx.MappingData) (room : option string) :
  JS.inherited k = false ->
  data <> [] ->
  (forall r, In r data -> influxDevice r = Some k) ->
  Generic.calculateEnergyFromInfluxData N data mappingData room
  = Returned
      (let classify :=
         Influx.classify (Influx.macToRoomMap mappingData) room in
       Generic.report N
         (Generic.total N
            (Generic.creditedTo N classify ToConsumption [(k, data)]))
         (Generic.total N
            (Generic.creditedTo N classify ToSupply [(k, data)]))).
Proof.
  intros Hplain Hne Hall.
  rewrite GenericFacts.influx_decomposed, Refinement.influx_groupRows.
  rewrite (GenericFacts.one_device_grouped influxDevice data k Hplain Hne Hall).
  unfold returning. cbn [JS.bind]. cbv zeta.
  now rewrite GenericFacts.entries_single.
Qed.

End ClaimLemmas.

(** C1.  In part_000 the rows of a bucket are grouped by normalized
    address, every device once with all its rows, and each total is the
    sum, in the order in which the groups are enumerated, of the deltas
    classified to it, whatever the arithmetic.  The delta of a group of
    two readings or more is the value of a latest reading minus the value
    of an earliest one (the code sorts the group by timestamp and takes
    the ends); a group of fewer than two readings adds nothing.  The
    readings 100, v, 140 at increasing instants give 140 - 100 in every
    order of arrival and for every v, which is 40 in binary64.  A lone
    reading of a device adds nothing and raises no error, unless the
    device is named like a member of [Object.prototype]: the grouping then
    throws a TypeError.  In the Elasticsearch program each total is the
    sum, in the order of the response, of last hit minus first hit over the
    buckets classified to it; a bucket whose two hits are the same finite
    reading contributes +0 in binary64. *)
Theorem delta_is_last_minus_first
  (N : Numbers.arithmetic) (data : list Row) (mappingData : Influx.MappingData)
  (macToRoomMap : JS.jsobj scalar) (room : option string)
  (buckets : list Elastic.MacBucket) :
  let classify := Influx.classify (Influx.macToRoomMap mappingData) room in
  (* part_000: the groups and the totals *)
  (Spec.inheritedName influxDevice data = false ->
   exists macGroups,
     Influx.groupRows data = Returned macGroups
     /\ Permutation macGroups (Spec.groups influxDevice data)
     /\ Generic.calculateEnergyFromInfluxData N data mappingData room
        = Returned
            (Generic.report N
               (Generic.total N
                  (Generic.creditedTo N classify ToConsumption
                     (JS.entries macGroups)))
               (Generic.total N
                  (Generic.creditedTo N classify ToSupply
                     (JS.entries macGroups)))))
  (* the delta of a group *)
  /\ (forall group,
        Generic.energyDelta N group = Generic.contribution N group)
  /\ (forall group,
        (2 <= List.length group)%nat ->
        exists e l,
          In e group /\ In l group
          /\ (forall r, In r group -> (_time e <= _time r <= _time l)%Z)
          /\ Generic.energyDelta N group
             = Some (Numbers.minus N (Numbers.read N (_value l))
                       (Numbers.read N (_value e))))
  /\ (forall group k t,
        (List.length group < 2)%nat ->
        Generic.energyDelta N group = None
        /\ Generic.creditedTo N classify t [(k, group)] = [])
  (* 100, v, 140 *)
  /\ (forall readings mac k v t1 t2 t3,
        (t1 < t2 < t3)%Z ->
        Permutation readings
          [mkRow mac 100 t1; mkRow mac v t2; mkRow mac 140 t3] ->
        Generic.energyDelta N readings
        = Some (Numbers.minus N (Numbers.read N 140) (Numbers.read N 100))
        /\ (Influx.normalizeMacAddress mac = Some k ->
            JS.truthy k = true ->
            JS.inherited k = false ->
            classify k = ToConsumption ->
            Generic.calculateEnergyFromInfluxData N readings mappingData room
            = Returned
                (Generic.report N
                   (Numbers.plus N (Numbers.zero N)
                      (Numbers.minus N (Numbers.read N 140)
                         (Numbers.read N 100)))
                   (Numbers.zero N))))
  /\ Binary64.minus (Binary64.ofQ 140) (Binary64.ofQ 100) = Binary64.ofQ 40
  /\ Binary64.shown (Binary64.plus Binary64.positiveZero (Binary64.ofQ 40))
     = Binary64.ofQ 40
  /\ Binary64.shown Binary64.positiveZero = Binary64.positiveZero
  (* a lone reading *)
  /\ (forall row k,
        influxDevice row = Some k ->
        Generic.calculateEnergyFromInfluxData N [row] mappingData room
        = if JS.inherited k then Thrown TypeError
          else Returned (Generic.report N (Numbers.zero N) (Numbers.zero N)))
  /\ (forall value time,
        Generic.calculateEnergyFromInfluxData N
          [mkRow (Some "constructor"%string) value time] mappingData room
        = Thrown TypeError)
  /\ (Spec.inheritedName influxDevice data = true ->
      Generic.calculateEnergyFromInfluxData N data mappingData room
      = Thrown TypeError)
  (* part_001, first program *)
  /\ Generic.calculateEnergyFromBuckets N buckets macToRoomMap room
     = Generic.report N
         (Generic.total N
            (Generic.creditedBuckets N macToRoomMap room ToConsumption
               buckets))
         (Generic.total N
            (Generic.creditedBuckets N macToRoomMap room ToSupply buckets))
  /\ (forall macBucket hit,
        Elastic.first_energy macBucket = [hit] ->
        Elastic.last_energy macBucket = [hit] ->
        Binary64.finite (Binary64.ofQ (Elastic.energy hit)) = true ->
        Generic.bucketDelta Binary64.arithmetic macBucket
        = Some Binary64.positiveZero
        /\ Doubles.calculateEnergyFromBuckets [macBucket] macToRoomMap room
           = Generic.mkEnergy Binary64.arithmetic Binary64.positiveZero
               Binary64.positiveZero).
Proof.
  intros classify.
  split.
  { intros Hplain.
    destruct (GenericFacts.grouped influxDevice data Hplain)
      as (g & Hrun & _ & Hperm).
    rewrite <- Refinement.influx_groupRows in Hrun.
    exists g. split; [assumption|]. split; [assumption|].
    rewrite GenericFacts.influx_decomposed, Hrun. reflexivity. }
  split; [apply GenericFacts.energyDelta_contribution|].
  split.
  { intros group Hlen. rewrite GenericFacts.energyDelta_contribution.
    unfold Generic.contribution.
    apply Nat.ltb_ge in Hlen as Hlen'. rewrite Hlen'.
    assert (Hne : group <> []) by (intros ->; simpl in Hlen; lia).
    destruct (OrderFacts.earliest_some _ Hne) as [e He].
    destruct (OrderFacts.latest_some _ Hne) as [l Hl].
    rewrite He, Hl. exists e, l.
    destruct (OrderFacts.earliest_least _ _ He) as [Hein Hemin].
    destruct (OrderFacts.latest_greatest _ _ Hl) as [Hlin Hlmax].
    repeat split; auto. }
  split.
  { intros group k t Hlen. apply Nat.ltb_lt in Hlen.
    cbn [Generic.creditedTo flat_map fst snd].
    rewrite GenericFacts.energyDelta_contribution.
    unfold Generic.contribution. rewrite Hlen.
    split; [reflexivity|].
    now destruct (Generic.goesTo (classify k) t). }
  split.
  { intros readings mac k v t1 t2 t3 Ht Hperm.
    pose proof (ClaimLemmas.three_readings_delta N readings mac 100 v 140
                  t1 t2 t3 Ht Hperm) as Hdelta.
    split; [now rewrite GenericFacts.energyDelta_contribution|].
    intros Hk Htruthy Hplain Hclass.
    destruct (ClaimLemmas.three_readings_device readings mac k _ _ _ Hperm
                eq_refl eq_refl eq_refl Hk Htruthy) as [Hne Hall].
    rewrite (ClaimLemmas.one_device N readings k mappingData room
               Hplain Hne Hall).
    cbv zeta. cbn [Generic.creditedTo flat_map fst snd].
    fold classify. rewrite Hclass, Hdelta. reflexivity. }
  split; [vm_compute; reflexivity|].
  split; [vm_compute; reflexivity|].
  split; [reflexivity|].
  split.
  { intros row k Hk.
    destruct (JS.inherited k) eqn:Hinh.
    - rewrite GenericFacts.influx_decomposed, Refinement.influx_groupRows.
      cbn [forEach]. unfold byDevice. rewrite Hk.
      unfold pushTo, JS.get. cbn [JS.getOwn]. now rewrite Hinh.
    - rewrite (ClaimLemmas.one_device N [row] k mappingData room Hinh).
      + cbv zeta. cbn [Generic.creditedTo flat_map fst snd].
        unfold Generic.contribution. cbn [List.length Nat.ltb Nat.leb].
        now destruct (Generic.goesTo _ ToConsumption),
          (Generic.goesTo _ ToSupply).
      + discriminate.
      + now intros r [<-|[]]. }
  split; [reflexivity|].
  split.
  { intros Hname.
    rewrite GenericFacts.influx_decomposed, Refinement.influx_groupRows.
    pose proof (GroupFacts.groups_refine influxDevice data) as H.
    rewrite Hname in H. now rewrite H. }
  split; [apply GenericFacts.buckets_decomposed|].
  intros macBucket hit Hfirst Hlast Hfinite.
  assert (Hdelta : Generic.bucketDelta Binary64.arithmetic macBucket
                   = Some Binary64.positiveZero).
  { unfold Generic.bucketDelta. rewrite Hfirst, Hlast. cbn [hd_error].
    f_equal. now apply Binary64Facts.minus_self. }
  split; [exact Hdelta|].
  unfold Doubles.calculateEnergyFromBuckets, Generic.calculateEnergyFromBuckets.
  cbv zeta. cbn [fold_left]. unfold Generic.addBucket. cbv zeta.
  rewrite Hdelta.
  now destruct (classifyFlat macToRoomMap room
                  (JS.toLowerCase (Elastic.key macBucket))).
Qed.

Lemma delta_is_last_minus_first_witness :
  Doubles.calculateEnergyFromInfluxData
    [mkRow AggExamples.macA 140 30; mkRow AggExamples.macA 100 10;
     mkRow AggExamples.macA 150 20]
    AggExamples.mapping None
  = Returned
      (Generic.mkEnergy Binary64.arithmetic (Binary64.ofQ 40)
         Binary64.positiveZero).
Proof.
  destruct (delta_is_last_minus_first Binary64.arithmetic AggExamples.scenario
              AggExamples.mapping AggExamples.flatMapping None [])
    as (_ & _ & _ & _ & Hexample & Hminus & Hshown & Hzero & _).
  assert (Ht : (10 < 20 < 30)%Z) by lia.
  assert (Hperm :
            Permutation
              [mkRow AggExamples.macA 140 30; mkRow AggExamples.macA 100 10;
               mkRow AggExamples.macA 150 20]
              [mkRow AggExamples.macA 100 10; mkRow AggExamples.macA 150 20;
               mkRow AggExamples.macA 140 30]).
  { apply Permutation_sym.
    eapply perm_trans; [apply perm_skip, perm_swap|apply perm_swap]. }
  destruct (Hexample _ AggExamples.macA "aabbccddee01"%string 150 10%Z 20%Z
              30%Z Ht Hperm) as [_ Hrun].
  unfold Doubles.calculateEnergyFromInfluxData.
  rewrite (Hrun eq_refl eq_refl eq_refl eq_refl).
  unfold Generic.report.
  cbn [Numbers.minus Numbers.read Numbers.plus Numbers.zero Numbers.shown
         Binary64.arithmetic].
  now rewrite Hminus, Hshown, Hzero.
Defined.

(** C2, as stated, fails in the two part_001 programs: they compare the
    lower-cased address with the colon-delimited constant, so the supply
    meter stored without delimiters is not recognised; listed in the
    mapping, its delta of 8 is reported as consumption and the supply stays
    at zero.  part_000 reports the same readings as supply. *)
Lemma undelimited_supply_meter_counts_as_consumption :
  Generic.consumption
    (Doubles.calculateEnergyFromBuckets [Doubles.undelimitedBucket]
       Doubles.undelimitedMapping None)
  = Binary64.ofQ 8
  /\ Generic.supply
       (Doubles.calculateEnergyFromBuckets [Doubles.undelimitedBucket]
          Doubles.undelimitedMapping None)
     = Binary64.positiveZero
  /\ returning Generic.consumption
       (Doubles.calculateEnergyFromInfluxDataFlat Doubles.undelimitedRows
          Doubles.undelimitedMapping None)
     = Returned (Binary64.ofQ 8)
  /\ returning Generic.supply
       (Doubles.calculateEnergyFromInfluxDataFlat Doubles.undelimitedRows
          Doubles.undelimitedMapping None)
     = Returned Binary64.positiveZero
  /\ returning Generic.consumption
       (Doubles.calculateEnergyFromInfluxData Doubles.undelimitedRows
          AggExamples.mapping None)
     = Returned Binary64.positiveZero
  /\ returning Generic.supply
       (Doubles.calculateEnergyFromInfluxData Doubles.undelimitedRows
          AggExamples.mapping None)
     = Returned (Binary64.ofQ 8)
  /\ Binary64.ofQ 8 <> Binary64.positiveZero
  /\ consumption
       (Elastic.calculateEnergyFromBuckets [Doubles.undelimitedBucket]
          Doubles.undelimitedMapping None)
     = 8000 # 1000.
Proof.
  repeat split; try (vm_compute; reflexivity).
  vm_compute. discriminate.
Qed.

(** C2 (amended).  In each program the consumption total is the sum of the
    deltas of the groups (or buckets) that the classification sends to
    consumption, and the supply total the sum of those it sends to supply,
    whatever the arithmetic.  The classification sends a key to supply
    exactly when it is the key of the supply meter, whatever the mapping
    table and the room filter are: in part_000 the normalized address
    08f9e07364db, which the supply meter has in every textual form; in the
    two part_001 programs a stored address whose lower-casing is
    08:f9:e0:73:64:db, that is the colon-delimited form in any letter
    case.  So the groups of the supply meter can be removed without
    changing what is credited to consumption, what is credited to supply
    comes from those groups alone, and in part_000 it is the delta of the
    one group of the supply meter.  An address that a part_001 program
    does not recognise is classified like any other: with no room
    requested, to consumption when it is mapped. *)
Theorem supply_delta_never_in_consumption
  (N : Numbers.arithmetic) (data : list Row) (buckets : list Elastic.MacBucket)
  (mappingData : Influx.MappingData) (macToRoomMap : JS.jsobj scalar)
  (room : option string) :
  let classify := Influx.classify (Influx.macToRoomMap mappingData) room in
  let supplyKey := "08f9e07364db"%string in
  let isSupply := fun stored : string =>
    String.eqb (JS.toLowerCase stored) "08:f9:e0:73:64:db" in
  (* part_000 *)
  Generic.calculateEnergyFromInfluxData N data mappingData room
  = returning
      (fun macGroups =>
         Generic.report N
           (Generic.total N
              (Generic.creditedTo N classify ToConsumption
                 (JS.entries macGroups)))
           (Generic.total N
              (Generic.creditedTo N classify ToSupply
                 (JS.entries macGroups))))
      (Influx.groupRows data)
  /\ (forall k, classify k = ToSupply <-> k = supplyKey)
  /\ (forall row,
        Influx.normalizeMacAddress (mac_address row)
        = Influx.normalizeMacAddress (Some SUPPLY_MAC_NORMALIZED) ->
        influxDevice row = Some supplyKey)
  /\ (forall value time,
        influxDevice (mkRow (Some "08:F9:E0:73:64:DB"%string) value time)
        = Some supplyKey
        /\ influxDevice (mkRow (Some "08-f9-e0-73-64-db"%string) value time)
           = Some supplyKey
        /\ influxDevice (mkRow (Some "08F9E07364DB"%string) value time)
           = Some supplyKey)
  /\ (forall groups,
        Generic.creditedTo N classify ToConsumption groups
        = Generic.creditedTo N classify ToConsumption
            (filter (fun entry => negb (String.eqb (fst entry) supplyKey))
               groups))
  /\ (forall macGroups,
        Influx.groupRows data = Returned macGroups ->
        Generic.creditedTo N classify ToSupply (JS.entries macGroups)
        = match JS.getOwn macGroups supplyKey with
          | Some readings =>
              match Generic.contribution N readings with
              | Some delta => [delta]
              | None => []
              end
          | None => []
          end)
  (* part_001, first program *)
  /\ Generic.calculateEnergyFromBuckets N buckets macToRoomMap room
     = Generic.report N
         (Generic.total N
            (Generic.creditedBuckets N macToRoomMap room ToConsumption
               buckets))
         (Generic.total N
            (Generic.creditedBuckets N macToRoomMap room ToSupply buckets))
  /\ (forall stored,
        classifyFlat macToRoomMap room (JS.toLowerCase stored) = ToSupply
        <-> isSupply stored = true)
  /\ Generic.creditedBuckets N macToRoomMap room ToConsumption buckets
     = Generic.creditedBuckets N macToRoomMap room ToConsumption
         (filter (fun b => negb (isSupply (Elastic.key b))) buckets)
  /\ Generic.creditedBuckets N macToRoomMap room ToSupply buckets
     = Generic.creditedBuckets N macToRoomMap room ToSupply
         (filter (fun b => isSupply (Elastic.key b)) buckets)
  (* part_001, second program *)
  /\ Generic.calculateEnergyFromInfluxDataFlat N data macToRoomMap room
     = returning
         (fun macGroups =>
            Generic.report N
              (Generic.total N
                 (Generic.creditedTo N (InfluxFlat.classify macToRoomMap room)
                    ToConsumption (JS.entries macGroups)))
              (Generic.total N
                 (Generic.creditedTo N (InfluxFlat.classify macToRoomMap room)
                    ToSupply (JS.entries macGroups))))
         (InfluxFlat.groupRows data)
  /\ (forall stored,
        InfluxFlat.classify macToRoomMap room stored = ToSupply
        <-> isSupply stored = true)
  /\ (forall groups,
        Generic.creditedTo N (InfluxFlat.classify macToRoomMap room)
          ToConsumption groups
        = Generic.creditedTo N (InfluxFlat.classify macToRoomMap room)
            ToConsumption
            (filter (fun entry => negb (isSupply (fst entry))) groups))
  /\ (forall groups,
        Generic.creditedTo N (InfluxFlat.classify macToRoomMap room)
          ToSupply groups
        = Generic.creditedTo N (InfluxFlat.classify macToRoomMap room)
            ToSupply (filter (fun entry => isSupply (fst entry)) groups))
  (* an address that part_001 does not recognise *)
  /\ (forall stored,
        isSupply stored = false ->
        roomRequested room = false ->
        JS.hasOwnProperty macToRoomMap (JS.toLowerCase stored) = true ->
        classifyFlat macToRoomMap room (JS.toLowerCase stored)
        = ToConsumption).
Proof.
  intros classify supplyKey isSupply.
  assert (Hkey : forall k, classify k = ToSupply <-> k = supplyKey)
    by (intros k; apply GenericFacts.influx_supply_key).
  assert (Hflat : forall stored,
            classifyFlat macToRoomMap room (JS.toLowerCase stored) = ToSupply
            <-> isSupply stored = true).
  { intros stored. rewrite GenericFacts.flat_supply_key.
    unfold isSupply. symmetry. apply String.eqb_eq. }
  split; [apply GenericFacts.influx_decomposed|].
  split; [exact Hkey|].
  split.
  { intros row Hsame. unfold influxDevice. now rewrite Hsame. }
  split; [intros value time; repeat split|].
  split.
  { intros groups.
    apply (GenericFacts.credited_without N classify ToConsumption
             (fun k => String.eqb k supplyKey)).
    intros k Hk. apply String.eqb_eq in Hk. apply Hkey in Hk.
    now rewrite Hk. }
  split.
  { intros macGroups Hrun.
    assert (Hnd : NoDup (map fst macGroups)).
    { rewrite Refinement.influx_groupRows in Hrun.
      pose proof (GroupFacts.forEach_step influxDevice data []
                    (NoDup_nil _)) as H.
      destruct (Spec.inheritedName influxDevice data).
      - rewrite H in Hrun; [discriminate|intros k []].
      - destruct H as (g & Hg & Hnd & _); [intros k []|]. congruence. }
    rewrite (GenericFacts.credited_single N classify ToSupply supplyKey).
    - now rewrite (GenericFacts.getOwn_Permutation _ _ supplyKey
                     (Permutation_NoDup
                        (Permutation_map fst
                           (Permutation_sym
                              (ObjFacts.entries_Permutation macGroups)))
                        Hnd)
                     (ObjFacts.entries_Permutation macGroups)).
    - apply (Permutation_NoDup (l := map fst macGroups)); [|assumption].
      apply Permutation_map, Permutation_sym, ObjFacts.entries_Permutation.
    - intros k. destruct (String.eqb_spec k supplyKey) as [->|Hne].
      + now rewrite (proj2 (Hkey supplyKey) eq_refl).
      + destruct (classify k) eqn:E; try reflexivity.
        now apply Hkey in E. }
  split; [apply GenericFacts.buckets_decomposed|].
  split; [exact Hflat|].
  split.
  { apply (GenericFacts.creditedBuckets_without N macToRoomMap room
             ToConsumption isSupply).
    intros k Hk. apply Hflat in Hk. now rewrite Hk. }
  split.
  { rewrite (GenericFacts.creditedBuckets_without N macToRoomMap room
               ToSupply (fun k => negb (isSupply k))).
    - f_equal. apply filter_ext. intros b. apply negb_involutive.
    - intros k Hk. apply negb_true_iff in Hk.
      destruct (classifyFlat macToRoomMap room (JS.toLowerCase k)) eqn:E;
        try reflexivity.
      apply Hflat in E. congruence. }
  split; [apply GenericFacts.flat_decomposed|].
  split; [exact Hflat|].
  split.
  { intros groups.
    apply (GenericFacts.credited_without N
             (InfluxFlat.classify macToRoomMap room) ToConsumption isSupply).
    intros k Hk. apply Hflat in Hk.
    unfold InfluxFlat.classify, InfluxFlat.normalizedKey. now rewrite Hk. }
  split.
  { intros groups.
    rewrite (GenericFacts.credited_without N
               (InfluxFlat.classify macToRoomMap room) ToSupply
               (fun k => negb (isSupply k))).
    - f_equal. apply filter_ext. intros entry. apply negb_involutive.
    - intros k Hk. apply negb_true_iff in Hk.
      unfold InfluxFlat.classify, InfluxFlat.normalizedKey.
      destruct (classifyFlat macToRoomMap room (JS.toLowerCase k)) eqn:E;
        try reflexivity.
      apply Hflat in E. congruence. }
  intros stored Hother Hall Hmapped.
  unfold classifyFlat, SUPPLY_MAC_NORMALIZED.
  unfold isSupply in Hother. rewrite Hother, Hall, Hmapped. reflexivity.
Qed.


(** C10, as stated, fails: the totals are binary64 sums taken in the order
    in which the groups are enumerated, and binary64 addition is not
    associative.  Three meters that gain 0.1, 0.2 and 0.5125 kWh are
    reported as 0.813 when their rows arrive in one order (the sum is
    0.8125) and as 0.812 when they arrive in the opposite order (the sum
    is 0.8124999999999999), in both InfluxDB programs. *)
Lemma row_order_changes_the_rounded_total :
  Permutation Doubles.gains Doubles.gainsReversed
  /\ Spec.distinctTimes influxDevice Doubles.gains
  /\ Spec.distinctTimes flatDevice Doubles.gains
  /\ returning Generic.consumption
       (Doubles.calculateEnergyFromInfluxData Doubles.gains
          Doubles.threeMeters None)
     = Returned (Binary64.ofQ (813 # 1000))
  /\ returning Generic.consumption
       (Doubles.calculateEnergyFromInfluxData Doubles.gainsReversed
          Doubles.threeMeters None)
     = Returned (Binary64.ofQ (812 # 1000))
  /\ returning Generic.consumption
       (Doubles.calculateEnergyFromInfluxDataFlat Doubles.gains
          Doubles.threeMetersFlat None)
     = Returned (Binary64.ofQ (813 # 1000))
  /\ returning Generic.consumption
       (Doubles.calculateEnergyFromInfluxDataFlat Doubles.gainsReversed
          Doubles.threeMetersFlat None)
     = Returned (Binary64.ofQ (812 # 1000))
  /\ Binary64.ofQ (813 # 1000) <> Binary64.ofQ (812 # 1000).
Proof.
  split; [exact (Permutation_rev Doubles.gains)|].
  split.
  { apply distinctTimes_of_NoDup; repeat constructor; simpl; intuition lia. }
  split.
  { apply distinctTimes_of_NoDup; repeat constructor; simpl; intuition lia. }
  repeat split; try (vm_compute; reflexivity).
  vm_compute. discriminate.
Qed.

Module OrderLemmas.

Section Program.

Variable N : Numbers.arithmetic.
Variable deviceOf : Row -> option string.
Variable classify : string -> target.
Variable groupRows : list Row -> outcome (JS.jsobj (list Row)).
Variable calculate : list Row -> outcome (Generic.Energy N).

Hypothesis groupRows_loop :
  forall data, groupRows data = forEach (byDevice deviceOf) data [].

Hypothesis calculate_decomposed :
  forall data,
    calculate data
    = returning
        (fun macGroups =>
           Generic.report N
             (Generic.total N
                (Generic.creditedTo N classify ToConsumption
                   (JS.entries macGroups)))
             (Generic.total N
                (Generic.creditedTo N classify ToSupply
                   (JS.entries macGroups))))
        (groupRows data).

(** What a permutation of the rows keeps and what it does not. *)
Lemma reordered data data' :
  Permutation data data' ->
  Spec.distinctTimes deviceOf data ->
  if Spec.inheritedName deviceOf data
  then calculate data = Thrown TypeError
       /\ calculate data' = Thrown TypeError
  else exists macGroups macGroups',
      groupRows data = Returned macGroups
      /\ groupRows data' = Returned macGroups'
      /\ Permutation (JS.keys macGroups) (JS.keys macGroups')
      /\ (forall t,
            Permutation
              (Generic.creditedTo N classify t (JS.entries macGroups))
              (Generic.creditedTo N classify t (JS.entries macGroups')))
      /\ (JS.keys macGroups = JS.keys macGroups' ->
          calculate data = calculate data')
      /\ (map deviceOf data = map deviceOf data' ->
          calculate data = calculate data').
Proof.
  intros Hperm Hdistinct.
  pose proof (OrderFacts.inheritedName_Permutation deviceOf _ _ Hperm) as Hsame.
  destruct (Spec.inheritedName deviceOf data) eqn:Hname.
  - rewrite !calculate_decomposed, !groupRows_loop.
    pose proof (GroupFacts.groups_refine deviceOf data) as H.
    pose proof (GroupFacts.groups_refine deviceOf data') as H'.
    rewrite Hname in H. rewrite <- Hsame in H'.
    now rewrite H, H'.
  - destruct (GenericFacts.grouped deviceOf data Hname)
      as (g & Hrun & _ & Hg).
    destruct (GenericFacts.grouped deviceOf data' (eq_sym Hsame))
      as (g' & Hrun' & _ & Hg').
    exists g, g'. rewrite !groupRows_loop.
    assert (Hsame_order : JS.keys g = JS.keys g' ->
                          calculate data = calculate data').
    { intros Hkeys.
      rewrite !calculate_decomposed, !groupRows_loop, Hrun, Hrun'.
      unfold returning. cbn [JS.bind].
      now rewrite !(GenericFacts.credited_same_order N deviceOf classify _
                      data data' g g' Hperm Hdistinct Hg Hg' Hkeys). }
    split; [assumption|]. split; [assumption|]. split; [|split; [|split]].
    + unfold JS.keys.
      rewrite (Permutation_map fst (ObjFacts.entries_Permutation g)).
      rewrite (Permutation_map fst (ObjFacts.entries_Permutation g')).
      rewrite (Permutation_map fst Hg), (Permutation_map fst Hg').
      rewrite !GroupFacts.groups_keys.
      now apply OrderFacts.devices_Permutation.
    + intros t.
      now apply (GenericFacts.credited_Permutation N deviceOf classify t
                   data data').
    + exact Hsame_order.
    + intros Hdevices. apply Hsame_order.
      apply GenericFacts.keys_of_keys.
      now apply (GenericFacts.grouping_keys deviceOf data data' [] [] g g').
Qed.

End Program.

End OrderLemmas.

(** C10 (amended).  When the timestamps are pairwise distinct within each
    device group, a permutation of the rows changes neither the groups that
    are formed nor the delta of any group: both runs throw, on a device
    name inherited from [Object.prototype], or both return, and then the
    same devices are enumerated and the same deltas are credited to each
    total, possibly in another order.  Each total is the sum of its deltas
    in the order of the enumeration, so the two runs return the same pair
    whenever [Object.keys(macGroups)] lists the devices in the same order,
    as it does when the permutation only moves rows among the positions
    of their own device; otherwise the binary64 sums, and the pair, can
    differ in the last place. *)
Theorem row_order_only_reorders_the_additions
  (N : Numbers.arithmetic) (data data' : list Row)
  (mappingData : Influx.MappingData) (macToRoomMap : JS.jsobj scalar)
  (room : option string) :
  Permutation data data' ->
  (* part_000 *)
  (Spec.distinctTimes influxDevice data ->
   let classify := Influx.classify (Influx.macToRoomMap mappingData) room in
   let calculate := fun rows =>
     Generic.calculateEnergyFromInfluxData N rows mappingData room in
   (forall rows,
      calculate rows
      = returning
          (fun macGroups =>
             Generic.report N
               (Generic.total N
                  (Generic.creditedTo N classify ToConsumption
                     (JS.entries macGroups)))
               (Generic.total N
                  (Generic.creditedTo N classify ToSupply
                     (JS.entries macGroups))))
          (Influx.groupRows rows))
   /\ if Spec.inheritedName influxDevice data
      then calculate data = Thrown TypeError
           /\ calculate data' = Thrown TypeError
      else exists macGroups macGroups',
          Influx.groupRows data = Returned macGroups
          /\ Influx.groupRows data' = Returned macGroups'
          /\ Permutation (JS.keys macGroups) (JS.keys macGroups')
          /\ (forall t,
                Permutation
                  (Generic.creditedTo N classify t (JS.entries macGroups))
                  (Generic.creditedTo N classify t (JS.entries macGroups')))
          /\ (JS.keys macGroups = JS.keys macGroups' ->
              calculate data = calculate data')
          /\ (map influxDevice data = map influxDevice data' ->
              calculate data = calculate data'))
  (* part_001, second program *)
  /\ (Spec.distinctTimes flatDevice data ->
      let classify := InfluxFlat.classify macToRoomMap room in
      let calculate := fun rows =>
        Generic.calculateEnergyFromInfluxDataFlat N rows macToRoomMap room in
      (forall rows,
         calculate rows
         = returning
             (fun macGroups =>
                Generic.report N
                  (Generic.total N
                     (Generic.creditedTo N classify ToConsumption
                        (JS.entries macGroups)))
                  (Generic.total N
                     (Generic.creditedTo N classify ToSupply
                        (JS.entries macGroups))))
             (InfluxFlat.groupRows rows))
      /\ if Spec.inheritedName flatDevice data
         then calculate data = Thrown TypeError
              /\ calculate data' = Thrown TypeError
         else exists macGroups macGroups',
             InfluxFlat.groupRows data = Returned macGroups
             /\ InfluxFlat.groupRows data' = Returned macGroups'
             /\ Permutation (JS.keys macGroups) (JS.keys macGroups')
             /\ (forall t,
                   Permutation
                     (Generic.creditedTo N classify t (JS.entries macGroups))
                     (Generic.creditedTo N classify t
                        (JS.entries macGroups')))
             /\ (JS.keys macGroups = JS.keys macGroups' ->
                 calculate data = calculate data')
             /\ (map flatDevice data = map flatDevice data' ->
                 calculate data = calculate data')).
Proof.
  intros Hperm. split; intros Hdistinct classify calculate.
  - split; [intros rows; apply GenericFacts.influx_decomposed|].
    apply (OrderLemmas.reordered N influxDevice classify Influx.groupRows
             calculate Refinement.influx_groupRows
             (fun rows => GenericFacts.influx_decomposed N rows mappingData room)
             data data' Hperm Hdistinct).
  - split; [intros rows; apply GenericFacts.flat_decomposed|].
    apply (OrderLemmas.reordered N flatDevice classify InfluxFlat.groupRows
             calculate Refinement.flat_groupRows
             (fun rows => GenericFacts.flat_decomposed N rows macToRoomMap room)
             data data' Hperm Hdistinct).
Qed.

Lemma row_order_only_reorders_the_additions_witness :
  Doubles.calculateEnergyFromInfluxData AggExamples.rollover
    AggExamples.mapping None
  = Doubles.calculateEnergyFromInfluxData
      [ mkRow AggExamples.macA 5 3; mkRow AggExamples.macB 10 4;
        mkRow AggExamples.macA 10 1; mkRow AggExamples.macB 2 2 ]
      AggExamples.mapping None.
Proof.
  assert (Hperm :
            Permutation AggExamples.rollover
              [ mkRow AggExamples.macA 5 3; mkRow AggExamples.macB 10 4;
                mkRow AggExamples.macA 10 1; mkRow AggExamples.macB 2 2 ]).
  { unfold AggExamples.rollover.
    eapply perm_trans; [apply perm_skip, perm_swap|].
    eapply perm_trans; [apply perm_swap|].
    eapply perm_trans; [apply perm_skip, perm_skip, perm_swap|].
    eapply perm_trans; [apply perm_skip, perm_swap|].
    apply Permutation_refl. }
  assert (Hdistinct : Spec.distinctTimes influxDevice AggExamples.rollover).
  { apply distinctTimes_of_NoDup; repeat constructor; simpl; intuition lia. }
  destruct (proj1
              (row_order_only_reorders_the_additions Binary64.arithmetic
                 AggExamples.rollover _ AggExamples.mapping
                 AggExamples.flatMapping None Hperm) Hdistinct)
    as [_ H].
  change (Spec.inheritedName influxDevice AggExamples.rollover)
    with false in H.
  destruct H as (g & g' & _ & _ & _ & _ & _ & Hsame).
  apply Hsame. reflexivity.
Defined.

(* ------------------------------------------------------------------ *)
(** * Calendar facts *)

Module CalendarFacts.

Import Dayjs.

Local Open Scope Z_scope.

Lemma daysFromCivil_day (y m d k : Z) :
  daysFromCivil y m (d + k) = daysFromCivil y m d + k.
Proof. unfold daysFromCivil. lia. Qed.

Lemma isLeapYear_spec (y : Z) :
  isLeapYear y = true <->
  (y mod 4 = 0 /\ y mod 100 <> 0) \/ y mod 400 = 0.
Proof.
  unfold isLeapYear.
  rewrite orb_true_iff, andb_true_iff, negb_true_iff, !Z.eqb_eq, Z.eqb_neq.
  tauto.
Qed.

(** From March of one year to March of the next. *)
Lemma march_to_march (y : Z) :
  let era y := y / 400 in
  let yoe y := y - y / 400 * 400 in
  let doe y := yoe y * 365 + yoe y / 4 - yoe y / 100 in
  era (y + 1) * 146097 + doe (y + 1)
  = era y * 146097 + doe y + (if isLeapYear (y + 1) then 366 else 365).
Proof.
  cbv zeta.
  destruct (isLeapYear (y + 1)) eqn:E.
  - apply isLeapYear_spec in E. Z.to_euclidean_division_equations. lia.
  - assert (H : ~ ((y + 1) mod 4 = 0 /\ (y + 1) mod 100 <> 0
                   \/ (y + 1) mod 400 = 0)).
    { rewrite <- isLeapYear_spec. congruence. }
    Z.to_euclidean_division_equations. lia.
Qed.

(** The first of a month follows the last day of the month before. *)
Lemma next_month (y m : Z) :
  0 <= m <= 10 ->
  daysFromCivil y (m + 1) 1 = daysFromCivil y m 1 + daysInMonth y m.
Proof.
  intros Hm.
  assert (Hcases : m = 0 \/ m = 1 \/ m = 2 \/ m = 3 \/ m = 4 \/ m = 5 \/ m = 6
                   \/ m = 7 \/ m = 8 \/ m = 9 \/ m = 10) by lia.
  destruct Hcases as [->|[->|[->|[->|[->|[->|[->|[->|[->|[->| ->]]]]]]]]]];
    unfold daysFromCivil, daysInMonth; simpl; try lia.
  pose proof (march_to_march (y - 1)) as H. cbv zeta in H.
  replace (y - 1 + 1) with y in H by lia.
  destruct (isLeapYear y); lia.
Qed.

Lemma next_year (y : Z) :
  daysFromCivil (y + 1) 0 1 = daysFromCivil y 11 1 + 31.
Proof.
  unfold daysFromCivil. simpl. replace (y + 1 - 1) with y by lia. lia.
Qed.

Lemma daysInMonth_bounds (y m : Z) : 28 <= daysInMonth y m <= 31.
Proof.
  unfold daysInMonth.
  repeat match goal with |- context [if ?b then _ else _] => destruct b end; lia.
Qed.

(** The day after a calendar date is one day later. *)
Lemma daysFromCivil_nextDay (x : t) :
  0 <= month x <= 11 ->
  1 <= date x <= daysInMonth (year x) (month x) ->
  daysFromCivil (year (nextDay x)) (month (nextDay x)) (date (nextDay x))
  = daysFromCivil (year x) (month x) (date x) + 1.
Proof.
  intros Hm Hd. unfold nextDay.
  destruct (Z.ltb_spec (date x) (daysInMonth (year x) (month x))) as [Hlt|Hge].
  - simpl. apply daysFromCivil_day.
  - assert (Hlast : date x = daysInMonth (year x) (month x)) by lia.
    destruct (Z.ltb_spec (month x) 11) as [Hm'|Hm'].
    + simpl. rewrite next_month by lia.
      rewrite Hlast.
      replace (daysInMonth (year x) (month x))
        with (1 + (daysInMonth (year x) (month x) - 1)) at 2 by lia.
      rewrite daysFromCivil_day. lia.
    + simpl. assert (Hdec : month x = 11) by lia.
      rewrite next_year, Hlast, Hdec.
      change (daysInMonth (year x) 11) with 31.
      change 31 with (1 + 30) at 2.
      rewrite daysFromCivil_day. lia.
Qed.

Lemma valueOf_nextDay (x : t) :
  0 <= month x <= 11 ->
  1 <= date x <= daysInMonth (year x) (month x) ->
  valueOf (nextDay x) = valueOf x + MS_PER_DAY.
Proof.
  intros Hm Hd. unfold valueOf.
  rewrite (daysFromCivil_nextDay x Hm Hd).
  unfold nextDay.
  destruct (date x <? daysInMonth (year x) (month x));
    [|destruct (month x <? 11)]; simpl; unfold MS_PER_DAY; lia.
Qed.

End CalendarFacts.

(* ------------------------------------------------------------------ *)
(** * The period loop *)

Module LoopFacts.

Import Dayjs Periods.

Local Open Scope Z_scope.

Lemma upFrom_S (from : Z) (count : nat) :
  Coverage.upFrom from (S count) = from :: Coverage.upFrom (from + 1) count.
Proof.
  unfold Coverage.upFrom. cbn [seq map]. rewrite Z.add_0_r. f_equal.
  rewrite <- seq_shift, map_map. apply map_ext. intros i. lia.
Qed.

Lemma upFrom_length (from : Z) (count : nat) :
  List.length (Coverage.upFrom from count) = count.
Proof. unfold Coverage.upFrom. now rewrite length_map, length_seq. Qed.

Lemma upFrom_nth (from : Z) (count i : nat) :
  (i < count)%nat ->
  nth_error (Coverage.upFrom from count) i = Some (from + Z.of_nat i).
Proof.
  intros Hi. unfold Coverage.upFrom.
  rewrite nth_error_map, nth_error_seq.
  destruct (Nat.ltb_spec i count); [reflexivity|lia].
Qed.

Section OneDate.

Import Coverage.

Variable D : isoDate.
Hypothesis D_ok : wellFormed D.

Lemma month_ok : 0 <= isoMonth D - 1 <= 11.
Proof. destruct D_ok as [Hm _]. lia. Qed.

Lemma day_ok : 1 <= isoDay D <= lengthOfMonth D.
Proof. exact (proj2 D_ok). Qed.

Lemma lengthOfMonth_bounds : 28 <= lengthOfMonth D <= 31.
Proof. apply CalendarFacts.daysInMonth_bounds. Qed.

(** Past the end of the span neither disjunct of the loop test holds. *)
Lemma beyond_the_end (u : Dayjs.unit) (current finish : t) (origin : Z) :
  startOf u current = current ->
  valueOf current = origin + MS_PER_DAY ->
  valueOf finish = origin + MS_PER_DAY - 1 ->
  isBefore current finish || isSame current finish u = false.
Proof.
  intros Hstart Hcurrent Hfinish. unfold isBefore, isSame.
  rewrite Hstart, Hcurrent, Hfinish.
  destruct (Z.ltb_spec (origin + MS_PER_DAY) (origin + MS_PER_DAY - 1));
    [lia|].
  destruct (Z.leb_spec (origin + MS_PER_DAY) (origin + MS_PER_DAY - 1));
    [lia|reflexivity].
Qed.

Lemma startOf_nextDay_midnight (u : Dayjs.unit) (d : Z) :
  u = Hour \/ u = Day ->
  let midnight := mk (isoYear D) (isoMonth D - 1) d 0 0 0 0 in
  startOf u (nextDay midnight) = nextDay midnight.
Proof.
  intros Hu midnight. unfold nextDay, midnight. simpl.
  destruct (d <? daysInMonth (isoYear D) (isoMonth D - 1));
    [|destruct (isoMonth D - 1 <? 11)];
    destruct Hu as [-> | ->]; reflexivity.
Qed.

(** ** Hours of the day *)

Lemma hour_step (h : Z) (fuel : nat) (acc : list Period) :
  0 <= h <= 23 ->
  collect (S fuel) (hourConfig D) (atHour D h) acc
  = collect fuel (hourConfig D) (add1 Hour (atHour D h))
      (acc ++ [bucket (hourConfig D) (atHour D h)]).
Proof.
  intros Hh. cbn [collect].
  assert (Hbefore : isBefore (atHour D h) (end_ (hourConfig D)) = true).
  { unfold isBefore, valueOf. apply Z.ltb_lt. simpl.
    unfold MS_PER_HOUR. lia. }
  now rewrite Hbefore.
Qed.

Lemma hour_exit (fuel : nat) (acc : list Period) :
  collect (S fuel) (hourConfig D) (nextDay (atHour D 0)) acc = Some acc.
Proof.
  cbn [collect].
  rewrite (beyond_the_end Hour _ _ (valueOf (atHour D 0))); [reflexivity| | |].
  - apply (startOf_nextDay_midnight Hour). now left.
  - apply CalendarFacts.valueOf_nextDay; [apply month_ok|apply day_ok].
  - unfold valueOf. simpl. unfold MS_PER_DAY, MS_PER_HOUR. lia.
Qed.

Lemma add1_hour (h : Z) :
  0 <= h <= 23 ->
  add1 Hour (atHour D h)
  = if h <? 23 then atHour D (h + 1) else nextDay (atHour D 0).
Proof. intros Hh. reflexivity. Qed.

(** From [h]:00 the loop emits the remaining hours of the day and stops. *)
Lemma collect_hours (n : nat) :
  forall (h : Z) (fuel : nat) (acc : list Period),
    0 <= h -> h + Z.of_nat n = 23 ->
    (n + 2 <= fuel)%nat ->
    collect fuel (hourConfig D) (atHour D h) acc
    = Some (acc ++ map (fun k => bucket (hourConfig D) (atHour D k))
                     (upFrom h (S n))).
Proof.
  induction n as [|n IH]; intros h fuel acc Hh Hsum Hfuel.
  - destruct fuel as [|[|fuel]]; [lia|lia|].
    rewrite hour_step by lia. rewrite add1_hour by lia.
    replace h with 23 by lia. simpl (23 <? 23).
    rewrite hour_exit. reflexivity.
  - destruct fuel as [|fuel]; [lia|].
    rewrite hour_step by lia. rewrite add1_hour by lia.
    destruct (Z.ltb_spec h 23) as [_|]; [|lia].
    rewrite (IH (h + 1) fuel) by lia.
    rewrite (upFrom_S _ (S n)). cbn [map].
    now rewrite <- app_assoc.
Qed.

Lemma getTimePeriods_hour {R : Type} (dateRange : R) (fuel : nat) :
  (25 <= fuel)%nat ->
  getTimePeriods fuel "hour" dateRange D
  = Some (Returned (map (fun k => bucket (hourConfig D) (atHour D k))
                      (upFrom 0 24))).
Proof.
  intros Hfuel. unfold getTimePeriods.
  change (JS.get (configs (tz D)) "hour") with (JS.Own (hourConfig D)).
  cbv iota beta.
  change (start (hourConfig D)) with (atHour D 0).
  now rewrite (collect_hours 23 0 fuel []) by lia.
Qed.

(** ** Days of the month *)

Lemma day_step (d : Z) (fuel : nat) (acc : list Period) :
  1 <= d <= lengthOfMonth D ->
  collect (S fuel) (dayConfig D) (atDay D d) acc
  = collect fuel (dayConfig D) (nextDay (atDay D d))
      (acc ++ [bucket (dayConfig D) (atDay D d)]).
Proof.
  unfold lengthOfMonth. intros Hd. cbn [collect].
  assert (Hbefore : isBefore (atDay D d) (end_ (dayConfig D)) = true).
  { unfold isBefore, valueOf. apply Z.ltb_lt. simpl.
    replace d with (1 + (d - 1)) by lia.
    set (n := daysInMonth (isoYear D) (isoMonth D - 1)) in *.
    replace n with (1 + (n - 1)) by lia.
    rewrite !CalendarFacts.daysFromCivil_day.
    unfold MS_PER_DAY, MS_PER_HOUR. lia. }
  now rewrite Hbefore.
Qed.

Lemma day_exit (fuel : nat) (acc : list Period) :
  collect (S fuel) (dayConfig D) (nextDay (atDay D (lengthOfMonth D))) acc
  = Some acc.
Proof.
  cbn [collect].
  pose proof month_ok as Hm. pose proof lengthOfMonth_bounds as Hdim.
  rewrite (beyond_the_end Day _ _ (valueOf (atDay D (lengthOfMonth D))));
    [reflexivity| | |].
  - apply (startOf_nextDay_midnight Day). now right.
  - apply CalendarFacts.valueOf_nextDay; simpl; unfold lengthOfMonth in *; lia.
  - unfold valueOf, lengthOfMonth. simpl. unfold MS_PER_DAY, MS_PER_HOUR. lia.
Qed.

Lemma nextDay_within (d : Z) :
  d < lengthOfMonth D -> nextDay (atDay D d) = atDay D (d + 1).
Proof.
  unfold lengthOfMonth. intros Hd. unfold nextDay, atDay. simpl.
  destruct (Z.ltb_spec d (daysInMonth (isoYear D) (isoMonth D - 1)));
    [reflexivity|lia].
Qed.

Lemma collect_days (n : nat) :
  forall (d : Z) (fuel : nat) (acc : list Period),
    1 <= d -> d + Z.of_nat n = lengthOfMonth D ->
    (n + 2 <= fuel)%nat ->
    collect fuel (dayConfig D) (atDay D d) acc
    = Some (acc ++ map (fun k => bucket (dayConfig D) (atDay D k))
                     (upFrom d (S n))).
Proof.
  induction n as [|n IH]; intros d fuel acc Hd Hsum Hfuel.
  - destruct fuel as [|[|fuel]]; [lia|lia|].
    rewrite day_step by lia.
    replace d with (lengthOfMonth D) by lia.
    rewrite day_exit, upFrom_S. reflexivity.
  - destruct fuel as [|fuel]; [lia|].
    rewrite day_step by lia. rewrite nextDay_within by lia.
    rewrite (IH (d + 1) fuel) by lia.
    rewrite (upFrom_S _ (S n)). cbn [map].
    now rewrite <- app_assoc.
Qed.

Lemma getTimePeriods_day {R : Type} (dateRange : R) (fuel : nat) :
  (32 <= fuel)%nat ->
  getTimePeriods fuel "day" dateRange D
  = Some (Returned (map (fun k => bucket (dayConfig D) (atDay D k))
                      (upFrom 1 (Z.to_nat (lengthOfMonth D))))).
Proof.
  intros Hfuel. unfold getTimePeriods.
  change (JS.get (configs (tz D)) "day") with (JS.Own (dayConfig D)).
  cbv iota beta.
  change (start (dayConfig D)) with (atDay D 1).
  pose proof lengthOfMonth_bounds as Hdim.
  rewrite (collect_days (Z.to_nat (lengthOfMonth D) - 1) 1 fuel []) by lia.
  cbn [option_map app]. do 4 f_equal. lia.
Qed.

End OneDate.

End LoopFacts.

Module CoverageFacts.

Import Dayjs Periods.

Local Open Scope Z_scope.

Lemma nth_error_buckets (f : Z -> Period) (from : Z) (count i : nat) (p : Period) :
  nth_error (map f (Coverage.upFrom from count)) i = Some p ->
  (i < count)%nat /\ p = f (from + Z.of_nat i).
Proof.
  intros H.
  assert (Hi : (i < count)%nat).
  { assert (Hsome : nth_error (map f (Coverage.upFrom from count)) i <> None)
      by congruence.
    apply nth_error_Some in Hsome.
    now rewrite length_map, LoopFacts.upFrom_length in Hsome. }
  split; [assumption|].
  rewrite nth_error_map, (LoopFacts.upFrom_nth from count i Hi) in H.
  simpl in H. congruence.
Qed.

Lemma nth_error_bucket_at (f : Z -> Period) (from : Z) (count i : nat) :
  (i < count)%nat ->
  nth_error (map f (Coverage.upFrom from count)) i = Some (f (from + Z.of_nat i)).
Proof.
  intros Hi. now rewrite nth_error_map, (LoopFacts.upFrom_nth from count i Hi).
Qed.

(** Buckets whose bounds advance by a fixed step cover the whole span. *)
Lemma covers_by_steps (f : Z -> Period) (from : Z) (count : nat) (origin step : Z) :
  (0 < count)%nat ->
  (forall k, utcStart (f k) = origin + (k - from) * step) ->
  (forall k, utcEnd (f k) = origin + (k - from) * step + step - 1) ->
  Coverage.covers (map f (Coverage.upFrom from count))
    origin (origin + Z.of_nat count * step).
Proof.
  intros Hcount Hstart Hend. unfold Coverage.covers. split; [|split].
  - intros i p q Hp Hq.
    apply nth_error_buckets in Hp as [_ ->], Hq as [_ ->].
    rewrite Hstart, Hend. lia.
  - exists (f (from + Z.of_nat 0)).
    split; [now apply nth_error_bucket_at|]. rewrite Hstart. simpl. lia.
  - rewrite length_map, LoopFacts.upFrom_length.
    exists (f (from + Z.of_nat (count - 1))).
    split; [apply nth_error_bucket_at; lia|]. rewrite Hend.
    replace (Z.of_nat (count - 1)) with (Z.of_nat count - 1) by lia. lia.
Qed.

(** Every instant of the span falls in one of the buckets. *)
Lemma instant_in_a_bucket (f : Z -> Period) (from : Z) (count : nat)
  (origin step t : Z) :
  0 < step ->
  (forall k, utcStart (f k) = origin + (k - from) * step) ->
  (forall k, utcEnd (f k) = origin + (k - from) * step + step - 1) ->
  origin <= t < origin + Z.of_nat count * step ->
  exists i p,
    nth_error (map f (Coverage.upFrom from count)) i = Some p
    /\ utcStart p <= t <= utcEnd p.
Proof.
  intros Hstep Hstart Hend Ht.
  pose proof (Z.div_mod (t - origin) step ltac:(lia)) as Hdiv.
  pose proof (Z.mod_pos_bound (t - origin) step Hstep) as Hmod.
  set (q := (t - origin) / step) in *.
  assert (Hq : 0 <= q < Z.of_nat count) by nia.
  exists (Z.to_nat q), (f (from + Z.of_nat (Z.to_nat q))).
  split; [apply nth_error_bucket_at; lia|].
  rewrite Hstart, Hend, Z2Nat.id by lia.
  replace (from + q - from) with q by lia. nia.
Qed.

Ltac instants :=
  unfold Coverage.localMidnight; cbn; unfold Dayjs.valueOf; cbn;
  unfold Dayjs.MS_PER_HOUR, Dayjs.MS_PER_DAY, Dayjs.utcOffset; lia.

Lemma periods_of_buckets (f : Z -> Period) (l : list Z) :
  (forall k, period (f k) = k) -> map period (map f l) = l.
Proof.
  intros H. rewrite map_map. rewrite <- (map_id l) at 2.
  apply map_ext. exact H.
Qed.

End CoverageFacts.

Example june_2025_has_30_buckets :
  option_map (returning (@List.length Periods.Period))
    (Periods.getTimePeriods 32 "day" tt (Dayjs.mkIso 2025 6 16))
  = Some (Returned 30%nat).
Proof. vm_compute. reflexivity. Qed.

Example july_2025_has_31_buckets :
  option_map (returning (@List.length Periods.Period))
    (Periods.getTimePeriods 32 "day" tt (Dayjs.mkIso 2025 7 4))
  = Some (Returned 31%nat).
Proof. vm_compute. reflexivity. Qed.

Example february_2024_has_29_buckets :
  option_map (returning (@List.length Periods.Period))
    (Periods.getTimePeriods 32 "day" tt (Dayjs.mkIso 2024 2 29))
  = Some (Returned 29%nat).
Proof. vm_compute. reflexivity. Qed.

(** C4.  For a well-formed local date and enough iterations, granularity
    [hour] yields 24 buckets with sort keys 0 to 23 whose bounds, at
    millisecond resolution, are contiguous and run from the date's local
    midnight (UTC+8) to the millisecond before the next local midnight;
    granularity [day] yields one bucket per day of the date's month, with
    sort keys 1 to the length of the month: 30, 31, or 28/29 for
    February. *)
Theorem period_coverage (D : Dayjs.isoDate) (fuel : nat) :
  Dayjs.wellFormed D ->
  (32 <= fuel)%nat ->
  (exists hours,
      Periods.getTimePeriods fuel "hour"
        (Periods.buildDateRangeQuery "hour" D) D = Some (Returned hours)
      /\ List.length hours = 24%nat
      /\ map Periods.period hours = Coverage.upFrom 0 24
      /\ Coverage.covers hours (Coverage.localMidnight D)
           (Coverage.localMidnight D + Dayjs.MS_PER_DAY)%Z
      /\ forall t,
           (Coverage.localMidnight D <= t
            < Coverage.localMidnight D + Dayjs.MS_PER_DAY)%Z ->
           exists i p,
             nth_error hours i = Some p
             /\ (Periods.utcStart p <= t <= Periods.utcEnd p)%Z)
  /\ Coverage.localMidnight D
     = (Dayjs.daysFromCivil (Dayjs.isoYear D) (Dayjs.isoMonth D - 1)
          (Dayjs.isoDay D) * Dayjs.MS_PER_DAY - 8 * Dayjs.MS_PER_HOUR)%Z
  /\ Dayjs.valueOf (Dayjs.nextDay (Dayjs.tz D))
     = (Coverage.localMidnight D + Dayjs.MS_PER_DAY)%Z
  /\ (exists days,
         Periods.getTimePeriods fuel "day"
           (Periods.buildDateRangeQuery "day" D) D = Some (Returned days)
         /\ Z.of_nat (List.length days) = Coverage.lengthOfMonth D
         /\ map Periods.period days = Coverage.upFrom 1 (List.length days)
         /\ Coverage.contiguous days
         /\ (In (Dayjs.isoMonth D) [4; 6; 9; 11]%Z ->
             List.length days = 30%nat)
         /\ (In (Dayjs.isoMonth D) [1; 3; 5; 7; 8; 10; 12]%Z ->
             List.length days = 31%nat)
         /\ (Dayjs.isoMonth D = 2%Z ->
             List.length days
             = if Dayjs.isLeapYear (Dayjs.isoYear D) then 29%nat else 28%nat)).
Proof.
  intros D_ok Hfuel.
  pose proof (LoopFacts.month_ok D D_ok) as Hm.
  pose proof (LoopFacts.day_ok D D_ok) as Hd.
  split.
  { eexists. split; [apply (LoopFacts.getTimePeriods_hour D D_ok); lia|].
    split; [now rewrite length_map, LoopFacts.upFrom_length|].
    split; [now apply CoverageFacts.periods_of_buckets|].
    change Dayjs.MS_PER_DAY with (Z.of_nat 24 * Dayjs.MS_PER_HOUR)%Z.
    split.
    - apply CoverageFacts.covers_by_steps; [lia| |];
        intros k; CoverageFacts.instants.
    - intros t Ht.
      apply (CoverageFacts.instant_in_a_bucket _ 0 24
               (Coverage.localMidnight D) Dayjs.MS_PER_HOUR);
        [reflexivity| | |exact Ht]; intros k; CoverageFacts.instants. }
  split.
  { CoverageFacts.instants. }
  split.
  { apply CalendarFacts.valueOf_nextDay; assumption. }
  pose proof (LoopFacts.lengthOfMonth_bounds D) as Hdim.
  eexists. split; [apply (LoopFacts.getTimePeriods_day D D_ok); lia|].
  rewrite length_map, LoopFacts.upFrom_length.
  split; [lia|].
  split; [now apply CoverageFacts.periods_of_buckets|].
  split.
  { apply (CoverageFacts.covers_by_steps _ 1 _
             (Dayjs.valueOf (Coverage.atDay D 1)) Dayjs.MS_PER_DAY); [lia| |].
    - intros k. cbn. unfold Dayjs.valueOf. cbn.
      replace k with (1 + (k - 1))%Z at 1 by lia.
      rewrite CalendarFacts.daysFromCivil_day. CoverageFacts.instants.
    - intros k. cbn. unfold Dayjs.valueOf. cbn.
      replace k with (1 + (k - 1))%Z at 1 by lia.
      rewrite CalendarFacts.daysFromCivil_day. CoverageFacts.instants. }
  unfold Coverage.lengthOfMonth, Dayjs.daysInMonth. simpl In.
  split; [|split].
  - intros Hin.
    assert (H : (Dayjs.isoMonth D - 1 = 3 \/ Dayjs.isoMonth D - 1 = 5
                 \/ Dayjs.isoMonth D - 1 = 8 \/ Dayjs.isoMonth D - 1 = 10)%Z)
      by lia.
    destruct H as [->|[->|[->| ->]]]; reflexivity.
  - intros Hin.
    assert (H : (Dayjs.isoMonth D - 1 = 0 \/ Dayjs.isoMonth D - 1 = 2
                 \/ Dayjs.isoMonth D - 1 = 4 \/ Dayjs.isoMonth D - 1 = 6
                 \/ Dayjs.isoMonth D - 1 = 7 \/ Dayjs.isoMonth D - 1 = 9
                 \/ Dayjs.isoMonth D - 1 = 11)%Z) by lia.
    destruct H as [->|[->|[->|[->|[->|[->| ->]]]]]]; reflexivity.
  - intros ->. simpl. now destruct (Dayjs.isLeapYear (Dayjs.isoYear D)).
Qed.

Lemma period_coverage_witness :
  exists hours,
    Periods.getTimePeriods 32 "hour"
      (Periods.buildDateRangeQuery "hour" someDate) someDate
    = Some (Returned hours)
    /\ List.length hours = 24%nat.
Proof.
  assert (Hdate : Dayjs.wellFormed someDate) by (vm_compute; intuition discriminate).
  destruct (period_coverage someDate 32 Hdate (le_n 32))
    as [(hours & Hrun & Hlen & _) _].
  exists hours. split; assumption.
Defined.

(* ------------------------------------------------------------------ *)
(** * Unsupported granularities *)

Module PeriodFacts.

Lemma invalid_period_not_configured (period : string) :
  Request.validPeriod period = false ->
  String.eqb period "hour" = false /\ String.eqb period "day" = false
  /\ String.eqb period "month" = false /\ String.eqb period "year" = false.
Proof.
  unfold Request.validPeriod. simpl. rewrite !orb_false_iff. tauto.
Qed.

Lemma configs_undefined (period : string) (localInputDate : Dayjs.t) :
  Request.validPeriod period = false ->
  JS.inherited period = false ->
  JS.get (Periods.configs localInputDate) period = JS.Undefined.
Proof.
  intros Hinvalid Hplain.
  destruct (invalid_period_not_configured period Hinvalid) as (H1 & H2 & H3 & H4).
  unfold JS.get, Periods.configs. simpl. now rewrite H1, H2, H3, H4, Hplain.
Qed.

Lemma ranges_undefined (period : string) (localDate : Dayjs.t) :
  Request.validPeriod period = false ->
  JS.inherited period = false ->
  JS.get (Periods.ranges localDate) period = JS.Undefined.
Proof.
  intros Hinvalid Hplain.
  destruct (invalid_period_not_configured period Hinvalid) as (H1 & H2 & H3 & H4).
  unfold JS.get, Periods.ranges. simpl. now rewrite H1, H2, H3, H4, Hplain.
Qed.

End PeriodFacts.

(** C6, as stated, fails on the code: with the validation of the handler
    out of the way, an unknown granularity makes [getTimePeriods] return an
    empty list, not an error, and [buildDateRangeQuery] substitutes the
    range of [hour]. *)
Lemma unknown_granularity_raises_nothing :
  Periods.getTimePeriods 0 "week"
    (Periods.buildDateRangeQuery "week" someDate) someDate
  = Some (Returned [])
  /\ Periods.buildDateRangeQuery "week" someDate
     = Periods.buildDateRangeQuery "hour" someDate.
Proof. split; reflexivity. Qed.

(** C6 (amended).  For every granularity outside hour, day, month and year
    the handler of each program answers 400 "Invalid period" and leaves the
    cache alone, before any period is generated.  Past that validation the
    period stage raises no error of its own: for a value that is not a
    property name inherited from [Object.prototype], [getTimePeriods]
    returns the empty list and [buildDateRangeQuery] the range of [hour]. *)
Theorem unsupported_granularity_rejected_upstream
  (period : string) (room : option string) (date : option Request.dateText)
  (D : Dayjs.isoDate) (fuel : nat) (now : Z) (today : Dayjs.isoDate)
  (meters : outcome (list MeterRow))
  (collectRows : Influx.Storage) (search : Elastic.Storage)
  (cache : Cache Influx.MappingData) (flatCache : Cache (JS.jsobj scalar)) :
  Request.validPeriod period = false ->
  Influx.handleData fuel now today meters collectRows cache
    (Request.mk (Some period) room date)
  = Some (Report.badPeriod, cache)
  /\ InfluxFlat.handleData fuel now today meters collectRows flatCache
       (Request.mk (Some period) room date)
     = Some (Report.badPeriod, flatCache)
  /\ Elastic.handleData fuel now today meters search flatCache
       (Request.mk (Some period) room date)
     = Some (Report.badPeriod, flatCache)
  /\ Report.status Report.badPeriod = 400%Z
  /\ (JS.inherited period = false ->
      Periods.getTimePeriods fuel period
        (Periods.buildDateRangeQuery period D) D
      = Some (Returned [])
      /\ Periods.buildDateRangeQuery period D
         = Periods.buildDateRangeQuery "hour" D).
Proof.
  intros Hinvalid.
  unfold Influx.handleData, InfluxFlat.handleData, Elastic.handleData,
    handleDataFlat.
  cbn [Request.period]. rewrite Hinvalid. cbn [negb].
  repeat split.
  - unfold Periods.getTimePeriods.
    now rewrite PeriodFacts.configs_undefined.
  - unfold Periods.buildDateRangeQuery.
    now rewrite PeriodFacts.ranges_undefined.
Qed.

Lemma unsupported_granularity_rejected_upstream_witness :
  Influx.handleData 0 0 someDate (Returned []) (fun _ _ _ => Returned [])
    emptyCache (Request.mk (Some "week"%string) None None)
  = Some (Report.badPeriod, emptyCache).
Proof.
  exact (proj1
    (unsupported_granularity_rejected_upstream "week" None None someDate
       0 0 someDate (Returned []) (fun _ _ _ => Returned [])
       (fun _ _ _ => Returned None) emptyCache emptyCache eq_refl)).
Defined.

(* ------------------------------------------------------------------ *)
(** * The mapping cache *)

(** C7.  When the cache is missing or expired and the storage query of the
    refresh fails, [getMetersMapping] returns the previous cache contents
    if there are any and the empty mapping otherwise, and leaves the cache
    as it was; whatever the cache holds and whatever the query does, the
    call returns and never throws. *)
Theorem mapping_refresh_fails_open
  (now : Z) (e : JS.error) (query : outcome (list MeterRow))
  (cache : Cache Influx.MappingData) (flatCache : Cache (JS.jsobj scalar)) :
  (cacheHit now cache = None ->
   Influx.getMetersMapping now (Thrown e) cache
   = (Returned match metersCache cache with
               | Some previous => previous
               | None => Influx.emptyMapping
               end, cache))
  /\ (cacheHit now flatCache = None ->
      Elastic.getMetersMapping now (Thrown e) flatCache
      = (Returned match metersCache flatCache with
                  | Some previous => previous
                  | None => []
                  end, flatCache)
      /\ InfluxFlat.getMetersMapping now (Thrown e) flatCache
         = (Returned match metersCache flatCache with
                     | Some previous => previous
                     | None => []
                     end, flatCache))
  /\ (exists m, fst (Influx.getMetersMapping now query cache) = Returned m)
  /\ (exists m, fst (Elastic.getMetersMapping now query flatCache) = Returned m)
  /\ (exists m,
        fst (InfluxFlat.getMetersMapping now query flatCache) = Returned m).
Proof.
  unfold Influx.getMetersMapping, Elastic.getMetersMapping,
    InfluxFlat.getMetersMapping, getMetersMappingFlat, cachedMapping.
  split; [now intros ->|].
  split; [now intros ->|].
  repeat split.
  - destruct (cacheHit now cache); [now eexists|].
    destruct (JS.bind query Influx.buildMapping); now eexists.
  - destruct (cacheHit now flatCache); [now eexists|].
    destruct (JS.bind query buildFlat); now eexists.
  - destruct (cacheHit now flatCache); [now eexists|].
    destruct (JS.bind query buildFlat); now eexists.
Qed.

Lemma mapping_refresh_fails_open_witness :
  Influx.getMetersMapping CacheExamples.later (Thrown StorageError)
    CacheExamples.stale
  = (Returned CacheExamples.lastKnown, CacheExamples.stale).
Proof.
  exact (proj1
    (mapping_refresh_fails_open CacheExamples.later StorageError
       (Thrown StorageError) CacheExamples.stale CacheExamples.staleFlat)
    eq_refl).
Defined.

Example first_refresh_fails_with_no_cache :
  Influx.getMetersMapping 5 (Thrown StorageError) emptyCache
  = (Returned Influx.emptyMapping, emptyCache).
Proof. reflexivity. Qed.

(* ------------------------------------------------------------------ *)
(** * A room without meters *)

(** C8, as stated, fails in the two part_001 programs: for a room without
    meters they answer with the empty data and a fixed message only; the
    response has no [meta], hence neither the known rooms nor a record
    count. *)
Lemma flat_programs_omit_rooms_and_count :
  option_map fst
    (Elastic.handleData 32 0 someDate (Returned RoomExamples.meters)
       RoomExamples.noBuckets emptyCache RoomExamples.room9)
  = Some (Report.mkResponse 200
            (Report.Data [] (Some "No meters found for the selected room."%string)
               None))
  /\ option_map fst
       (InfluxFlat.handleData 32 0 someDate (Returned RoomExamples.meters)
          RoomExamples.noRows emptyCache RoomExamples.room9)
     = Some (Report.mkResponse 200
               (Report.Data []
                  (Some "No meters found for the selected room."%string) None)).
Proof. split; reflexivity. Qed.

Example influx_reports_rooms_and_count :
  option_map fst
    (Influx.handleData 32 0 someDate (Returned RoomExamples.meters)
       RoomExamples.noRows emptyCache RoomExamples.room9)
  = Some (Report.mkResponse 200
            (Report.Data []
               (Some "No meters found for room 9. Available rooms: 1, 2"%string)
               (Some {| Report.metaPeriod := "hour";
                        Report.metaRoom := Some "9"%string;
                        Report.metaDate := someDate;
                        Report.metaTimezone := "Asia/Shanghai";
                        Report.totalRecords := 0;
                        Report.availableRooms := Some ["1"; "2"]%string;
                        Report.macMappingCount := None |}))).
Proof. reflexivity. Qed.

(** C8 (amended).  A request with a valid granularity and a well-formed
    date that names a room without mapped devices is answered with status
    200, empty data and an explanatory message; the mapping lookup that
    precedes the answer always returns.  In part_000, for a room name that
    is not a property name inherited from [Object.prototype], the message
    and [meta.availableRooms] list the known rooms and [meta.totalRecords]
    is 0; nothing is said here of a room named like a member of
    [Object.prototype].  In the two part_001 programs the response carries
    the fixed message and no [meta]. *)
Theorem room_without_meters_reported_empty
  (period room : string) (D : Dayjs.isoDate) (fuel : nat) (now : Z)
  (today : Dayjs.isoDate) (meters : outcome (list MeterRow))
  (collectRows : Influx.Storage) (search : Elastic.Storage)
  (cache : Cache Influx.MappingData) (flatCache : Cache (JS.jsobj scalar)) :
  Request.validPeriod period = true ->
  JS.truthy room = true ->
  let request :=
    Request.mk (Some period) (Some room) (Some (Request.Wellformed D)) in
  let flatReport :=
    Report.mkResponse 200
      (Report.Data [] (Some "No meters found for the selected room."%string)
         None) in
  (* part_000 *)
  (exists mappingData cache',
     Influx.getMetersMapping now meters cache = (Returned mappingData, cache')
     /\ (JS.inherited room = false ->
         match JS.getOwn (Influx.roomToMacsMap mappingData) room with
         | Some macsForRoom => macsForRoom = []
         | None => True
         end ->
         Influx.handleData fuel now today meters collectRows cache request
         = Some
             (Report.mkResponse 200
                (Report.Data []
                   (Some ("No meters found for room " ++ room
                          ++ ". Available rooms: "
                          ++ Report.join
                               (JS.keys (Influx.roomToMacsMap mappingData)))%string)
                   (Some {| Report.metaPeriod := period;
                            Report.metaRoom := Some room;
                            Report.metaDate := D;
                            Report.metaTimezone := TIMEZONE;
                            Report.totalRecords := 0;
                            Report.availableRooms :=
                              Some (JS.keys (Influx.roomToMacsMap mappingData));
                            Report.macMappingCount := None |})),
              cache')))
  (* part_001, both programs *)
  /\ (exists macToRoomMap flatCache',
        getMetersMappingFlat now meters flatCache
        = (Returned macToRoomMap, flatCache')
        /\ (macsForRoomFlat macToRoomMap room = [] ->
            Elastic.handleData fuel now today meters search flatCache request
            = Some (flatReport, flatCache')
            /\ InfluxFlat.handleData fuel now today meters collectRows
                 flatCache request
               = Some (flatReport, flatCache'))).
Proof.
  intros Hperiod Hroom request flatReport.
  assert (Hreturns : exists mappingData cache',
             Influx.getMetersMapping now meters cache
             = (Returned mappingData, cache')).
  { unfold Influx.getMetersMapping, cachedMapping.
    destruct (cacheHit now cache); [now do 2 eexists|].
    destruct (JS.bind meters Influx.buildMapping); now do 2 eexists. }
  assert (Hflat : exists macToRoomMap flatCache',
             getMetersMappingFlat now meters flatCache
             = (Returned macToRoomMap, flatCache')).
  { unfold getMetersMappingFlat, cachedMapping.
    destruct (cacheHit now flatCache); [now do 2 eexists|].
    destruct (JS.bind meters buildFlat); now do 2 eexists. }
  unfold Influx.handleData, InfluxFlat.handleData, Elastic.handleData,
    handleDataFlat, request, flatReport.
  cbn [Request.period Request.room Request.date].
  rewrite Hperiod. cbn [negb].
  split.
  - destruct Hreturns as (mappingData & cache' & Hload).
    exists mappingData, cache'. split; [exact Hload|].
    intros Hplain Hnone. rewrite Hload.
    unfold Influx.roomFilter, JS.get. rewrite Hroom.
    destruct (JS.getOwn (Influx.roomToMacsMap mappingData) room) as [macs|].
    + subst macs. reflexivity.
    + rewrite Hplain. reflexivity.
  - destruct Hflat as (macToRoomMap & flatCache' & Hload).
    exists macToRoomMap, flatCache'. split; [exact Hload|].
    intros Hnone. rewrite Hload.
    unfold roomFilterFlat. rewrite Hroom, Hnone. split; reflexivity.
Qed.

Lemma room_without_meters_reported_empty_witness :
  option_map fst
    (Influx.handleData 32 0 someDate (Returned RoomExamples.meters)
       RoomExamples.noRows emptyCache RoomExamples.room9)
  = Some (Report.mkResponse 200
            (Report.Data []
               (Some "No meters found for room 9. Available rooms: 1, 2"%string)
               (Some {| Report.metaPeriod := "hour";
                        Report.metaRoom := Some "9"%string;
                        Report.metaDate := someDate;
                        Report.metaTimezone := "Asia/Shanghai";
                        Report.totalRecords := 0;
                        Report.availableRooms := Some ["1"; "2"]%string;
                        Report.macMappingCount := None |}))).
Proof.
  destruct
    (room_without_meters_reported_empty "hour" "9" someDate 32 0 someDate
       (Returned RoomExamples.meters) RoomExamples.noRows RoomExamples.noBuckets
       emptyCache emptyCache eq_refl eq_refl)
    as [(mappingData & cache' & Hload & H) _].
  injection Hload as <- <-.
  fold RoomExamples.room9 in H.
  rewrite (H eq_refl I). reflexivity.
Defined.

(* ------------------------------------------------------------------ *)
(** * Months of the year, years since 2023 *)

Module SpanFacts.

Import Dayjs Periods Spans.

Local Open Scope Z_scope.

Lemma year_length (y : Z) :
  daysFromCivil (y + 1) 0 1
  = daysFromCivil y 0 1 + (if isLeapYear y then 366 else 365).
Proof.
  pose proof (CalendarFacts.march_to_march (y - 1)) as H. cbv zeta in H.
  replace (y - 1 + 1) with y in H by lia.
  unfold daysFromCivil. simpl.
  replace (y + 1 - 1) with y by lia.
  destruct (isLeapYear y); lia.
Qed.

Lemma year_start_lt (n : nat) (y : Z) :
  daysFromCivil y 0 1 < daysFromCivil (y + 1 + Z.of_nat n) 0 1.
Proof.
  induction n as [|n IH].
  - rewrite Z.add_0_r, year_length. destruct (isLeapYear y); lia.
  - replace (y + 1 + Z.of_nat (S n)) with (y + 1 + Z.of_nat n + 1) by lia.
    rewrite year_length. destruct (isLeapYear (y + 1 + Z.of_nat n)); lia.
Qed.

Lemma year_start_mono (y y' : Z) :
  y < y' -> daysFromCivil y 0 1 < daysFromCivil y' 0 1.
Proof.
  intros H. replace y' with (y + 1 + Z.of_nat (Z.to_nat (y' - y - 1))) by lia.
  apply year_start_lt.
Qed.

(** The first of a month lies in its year. *)
Lemma month_start_bounds (y m : Z) :
  0 <= m <= 11 ->
  daysFromCivil y 0 1 <= daysFromCivil y m 1
  /\ daysFromCivil y m 1 + daysInMonth y m <= daysFromCivil (y + 1) 0 1.
Proof.
  intros Hm.
  pose proof (CalendarFacts.next_year y) as Hy.
  assert (Hstep : forall k, 0 <= k <= 10 ->
            daysFromCivil y (k + 1) 1 = daysFromCivil y k 1 + daysInMonth y k)
    by (intros; now apply CalendarFacts.next_month).
  pose proof (Hstep 0 ltac:(lia)) as H0. pose proof (Hstep 1 ltac:(lia)) as H1.
  pose proof (Hstep 2 ltac:(lia)) as H2. pose proof (Hstep 3 ltac:(lia)) as H3.
  pose proof (Hstep 4 ltac:(lia)) as H4. pose proof (Hstep 5 ltac:(lia)) as H5.
  pose proof (Hstep 6 ltac:(lia)) as H6. pose proof (Hstep 7 ltac:(lia)) as H7.
  pose proof (Hstep 8 ltac:(lia)) as H8. pose proof (Hstep 9 ltac:(lia)) as H9.
  pose proof (Hstep 10 ltac:(lia)) as H10.
  simpl in H0, H1, H2, H3, H4, H5, H6, H7, H8, H9, H10.
  pose proof (CalendarFacts.daysInMonth_bounds y 0).
  pose proof (CalendarFacts.daysInMonth_bounds y 1).
  pose proof (CalendarFacts.daysInMonth_bounds y 2).
  pose proof (CalendarFacts.daysInMonth_bounds y 3).
  pose proof (CalendarFacts.daysInMonth_bounds y 4).
  pose proof (CalendarFacts.daysInMonth_bounds y 5).
  pose proof (CalendarFacts.daysInMonth_bounds y 6).
  pose proof (CalendarFacts.daysInMonth_bounds y 7).
  pose proof (CalendarFacts.daysInMonth_bounds y 8).
  pose proof (CalendarFacts.daysInMonth_bounds y 9).
  pose proof (CalendarFacts.daysInMonth_bounds y 10).
  change (daysInMonth y 11) with 31 in *.
  assert (Hcases : m = 0 \/ m = 1 \/ m = 2 \/ m = 3 \/ m = 4 \/ m = 5 \/ m = 6
                   \/ m = 7 \/ m = 8 \/ m = 9 \/ m = 10 \/ m = 11) by lia.
  destruct Hcases as [->|[->|[->|[->|[->|[->|[->|[->|[->|[->|[->| ->]]]]]]]]]]];
    change (daysInMonth y 11) with 31; lia.
Qed.

Lemma valueOf_firstOf (y m : Z) :
  valueOf (firstOf y m) = daysFromCivil y m 1 * MS_PER_DAY - utcOffset.
Proof. unfold valueOf, firstOf. simpl. lia. Qed.

Lemma valueOf_endOfYear (D : isoDate) :
  valueOf (endOf Year (tz D)) = newYear (isoYear D + 1) - 1.
Proof.
  unfold newYear. rewrite valueOf_firstOf. unfold valueOf. simpl.
  rewrite CalendarFacts.next_year.
  change 31 with (1 + 30) at 1. rewrite CalendarFacts.daysFromCivil_day.
  unfold MS_PER_DAY, MS_PER_HOUR, utcOffset. lia.
Qed.

Lemma newYear_lt (y y' : Z) : y < y' -> newYear y + MS_PER_DAY <= newYear y'.
Proof.
  intros H. unfold newYear. rewrite !valueOf_firstOf.
  pose proof (year_start_mono y y' H). unfold MS_PER_DAY. lia.
Qed.

(** The loop test holds as long as the current first of a month or of a
    year starts before the end of the span, and fails from the end on. *)
Lemma test_before (u : Dayjs.unit) (current finish : t) :
  valueOf current < valueOf finish ->
  isBefore current finish || isSame current finish u = true.
Proof.
  intros H. unfold isBefore. apply Z.ltb_lt in H. now rewrite H.
Qed.

Lemma test_beyond (u : Dayjs.unit) (current finish : t) :
  startOf u current = current ->
  valueOf finish < valueOf current ->
  isBefore current finish || isSame current finish u = false.
Proof.
  intros Hstart H. unfold isBefore, isSame. rewrite Hstart.
  destruct (Z.ltb_spec (valueOf current) (valueOf finish)); [lia|].
  destruct (Z.leb_spec (valueOf current) (valueOf finish)); [lia|reflexivity].
Qed.

(** ** Months *)

Section OneYear.

Variable D : isoDate.

Lemma month_step (m : Z) (fuel : nat) (acc : list Period) :
  0 <= m <= 11 ->
  collect (S fuel) (monthConfig D) (firstOf (isoYear D) m) acc
  = collect fuel (monthConfig D)
      (if m <? 11 then firstOf (isoYear D) (m + 1) else firstOf (isoYear D + 1) 0)
      (acc ++ [bucket (monthConfig D) (firstOf (isoYear D) m)]).
Proof.
  intros Hm. cbn [collect].
  rewrite test_before.
  - f_equal. unfold add1, firstOf. cbn.
    destruct (m <? 11).
    + pose proof (CalendarFacts.daysInMonth_bounds (isoYear D) (m + 1)).
      now rewrite Z.min_l by lia.
    + reflexivity.
  - cbn [end_ monthConfig]. rewrite valueOf_endOfYear.
    unfold newYear. rewrite !valueOf_firstOf.
    pose proof (month_start_bounds (isoYear D) m Hm).
    pose proof (CalendarFacts.daysInMonth_bounds (isoYear D) m). unfold MS_PER_DAY. lia.
Qed.

Lemma month_exit (fuel : nat) (acc : list Period) :
  collect (S fuel) (monthConfig D) (firstOf (isoYear D + 1) 0) acc = Some acc.
Proof.
  cbn [collect]. rewrite test_beyond; [reflexivity|reflexivity|].
  cbn [end_ monthConfig]. rewrite valueOf_endOfYear. unfold newYear. lia.
Qed.

Lemma collect_months (n : nat) :
  forall (m : Z) (fuel : nat) (acc : list Period),
    0 <= m -> m + Z.of_nat n = 11 ->
    (n + 2 <= fuel)%nat ->
    collect fuel (monthConfig D) (firstOf (isoYear D) m) acc
    = Some (acc ++ map (fun k => bucket (monthConfig D) (firstOf (isoYear D) k))
                     (Coverage.upFrom m (S n))).
Proof.
  induction n as [|n IH]; intros m fuel acc Hm Hsum Hfuel.
  - destruct fuel as [|[|fuel]]; [lia|lia|].
    rewrite month_step by lia.
    replace m with 11 by lia. simpl (11 <? 11).
    rewrite month_exit. reflexivity.
  - destruct fuel as [|fuel]; [lia|].
    rewrite month_step by lia.
    destruct (Z.ltb_spec m 11) as [_|]; [|lia].
    rewrite (IH (m + 1) fuel) by lia.
    rewrite (LoopFacts.upFrom_S _ (S n)). cbn [map].
    now rewrite <- app_assoc.
Qed.

Lemma getTimePeriods_month {R : Type} (dateRange : R) (fuel : nat) :
  (13 <= fuel)%nat ->
  getTimePeriods fuel "month" dateRange D
  = Some (Returned (map (fun k => bucket (monthConfig D) (firstOf (isoYear D) k))
                      (Coverage.upFrom 0 12))).
Proof.
  intros Hfuel. unfold getTimePeriods.
  change (JS.get (configs (tz D)) "month") with (JS.Own (monthConfig D)).
  cbv iota beta.
  change (start (monthConfig D)) with (firstOf (isoYear D) 0).
  now rewrite (collect_months 11 0 fuel []) by lia.
Qed.

(** ** Years *)

Lemma year_step (Y : Z) (fuel : nat) (acc : list Period) :
  Y <= isoYear D ->
  collect (S fuel) (yearConfig D) (firstOf Y 0) acc
  = collect fuel (yearConfig D) (firstOf (Y + 1) 0)
      (acc ++ [bucket (yearConfig D) (firstOf Y 0)]).
Proof.
  intros HY. cbn [collect].
  rewrite test_before; [reflexivity|].
  cbn [end_ yearConfig]. rewrite valueOf_endOfYear.
  pose proof (newYear_lt Y (isoYear D + 1) ltac:(lia)).
  fold (newYear Y). unfold MS_PER_DAY in *. lia.
Qed.

Lemma year_exit (Y : Z) (fuel : nat) (acc : list Period) :
  isoYear D < Y ->
  collect (S fuel) (yearConfig D) (firstOf Y 0) acc = Some acc.
Proof.
  intros HY. cbn [collect]. rewrite test_beyond; [reflexivity|reflexivity|].
  cbn [end_ yearConfig]. rewrite valueOf_endOfYear. fold (newYear Y).
  destruct (Z.eq_dec Y (isoYear D + 1)) as [->|Hne]; [lia|].
  pose proof (newYear_lt (isoYear D + 1) Y ltac:(lia)). unfold MS_PER_DAY in *. lia.
Qed.

Lemma collect_years (n : nat) :
  forall (Y : Z) (fuel : nat) (acc : list Period),
    Y + Z.of_nat n = isoYear D + 1 ->
    (n + 1 <= fuel)%nat ->
    collect fuel (yearConfig D) (firstOf Y 0) acc
    = Some (acc ++ map (fun k => bucket (yearConfig D) (firstOf k 0))
                     (Coverage.upFrom Y n)).
Proof.
  induction n as [|n IH]; intros Y fuel acc Hsum Hfuel.
  - destruct fuel as [|fuel]; [lia|].
    rewrite year_exit by lia. simpl. now rewrite app_nil_r.
  - destruct fuel as [|fuel]; [lia|].
    rewrite year_step by lia.
    rewrite (IH (Y + 1) fuel) by lia.
    rewrite LoopFacts.upFrom_S. cbn [map].
    now rewrite <- app_assoc.
Qed.

Lemma getTimePeriods_year {R : Type} (dateRange : R) (fuel : nat) :
  (yearsShown D < fuel)%nat ->
  getTimePeriods fuel "year" dateRange D
  = Some (Returned (map (fun k => bucket (yearConfig D) (firstOf k 0))
                      (Coverage.upFrom FIRST_YEAR (yearsShown D)))).
Proof.
  intros Hfuel. unfold getTimePeriods.
  change (JS.get (configs (tz D)) "year") with (JS.Own (yearConfig D)).
  cbv iota beta.
  change (start (yearConfig D)) with (firstOf FIRST_YEAR 0).
  unfold yearsShown in *.
  destruct (Z.le_gt_cases FIRST_YEAR (isoYear D)) as [Hle|Hgt].
  - now rewrite (collect_years (Z.to_nat (isoYear D - FIRST_YEAR + 1)) FIRST_YEAR fuel [])
      by lia.
  - replace (Z.to_nat (isoYear D - FIRST_YEAR + 1)) with 0%nat by lia.
    destruct fuel as [|fuel]; [lia|].
    now rewrite year_exit by lia.
Qed.

End OneYear.

(** ** Buckets of varying length *)

Lemma covers_instant (ps : list Period) :
  forall from till t,
    Coverage.covers ps from till ->
    from <= t < till ->
    exists i p, nth_error ps i = Some p /\ utcStart p <= t <= utcEnd p.
Proof.
  induction ps as [|p ps IH]; intros from till t (Hcont & (p0 & H0 & Hfrom) & (q & Hq & Htill)) Ht.
  - discriminate H0.
  - simpl in H0. injection H0 as <-.
    destruct (Z.le_gt_cases t (utcEnd p)) as [Hle|Hgt].
    + exists 0%nat, p. split; [reflexivity|lia].
    + destruct ps as [|p' ps'].
      * simpl in Hq. injection Hq as <-. lia.
      * destruct (IH (utcStart p') till t) as (i & r & Hi & Hr).
        -- split; [|split].
           ++ intros i a b Ha Hb. apply (Hcont (S i) a b); assumption.
           ++ exists p'. split; reflexivity.
           ++ exists q. split; [|assumption].
              simpl in Hq |- *. now rewrite Nat.sub_0_r in *.
        -- pose proof (Hcont 0%nat p p' eq_refl eq_refl). lia.
        -- exists (S i), r. split; assumption.
Qed.

Lemma upFrom_ascending (from : Z) (count : nat) :
  StronglySorted Z.le (Coverage.upFrom from count).
Proof.
  revert from. induction count as [|count IH]; intros from.
  - constructor.
  - rewrite LoopFacts.upFrom_S. constructor; [apply IH|].
    apply Forall_forall. intros k Hk.
    unfold Coverage.upFrom in Hk. apply in_map_iff in Hk as (i & <- & _). lia.
Qed.

End SpanFacts.

Module SpanClaims.

Import Dayjs Periods Spans.

Local Open Scope Z_scope.

Lemma lastOf_buckets (f : Z -> Period) (from : Z) (count : nat) :
  (0 < count)%nat ->
  lastOf (map f (Coverage.upFrom from count))
  = Some (f (from + Z.of_nat (count - 1))).
Proof.
  intros H. unfold lastOf. rewrite length_map, LoopFacts.upFrom_length.
  apply CoverageFacts.nth_error_bucket_at. lia.
Qed.

Lemma month_bounds (D : isoDate) (k : Z) :
  0 <= k <= 10 ->
  utcEnd (bucket (monthConfig D) (firstOf (isoYear D) k)) + 1
  = utcStart (bucket (monthConfig D) (firstOf (isoYear D) (k + 1))).
Proof.
  intros Hk. cbn. unfold valueOf. cbn.
  rewrite (CalendarFacts.next_month _ _ Hk).
  pose proof (CalendarFacts.daysInMonth_bounds (isoYear D) k) as Hdim.
  replace (daysInMonth (isoYear D) k)
    with (1 + (daysInMonth (isoYear D) k - 1)) at 1 by lia.
  rewrite CalendarFacts.daysFromCivil_day.
  unfold MS_PER_DAY, MS_PER_HOUR, utcOffset. lia.
Qed.

Lemma months_cover (D : isoDate) :
  Coverage.covers
    (map (fun k => bucket (monthConfig D) (firstOf (isoYear D) k))
       (Coverage.upFrom 0 12))
    (newYear (isoYear D)) (newYear (isoYear D + 1)).
Proof.
  split; [|split].
  - intros i p q Hp Hq.
    apply CoverageFacts.nth_error_buckets in Hp as [Hi ->], Hq as [Hi' ->].
    replace (0 + Z.of_nat (S i)) with (0 + Z.of_nat i + 1) by lia.
    apply month_bounds. lia.
  - eexists. split; reflexivity.
  - eexists. split; [reflexivity|].
    cbn. unfold newYear. rewrite SpanFacts.valueOf_firstOf.
    rewrite CalendarFacts.next_year. unfold valueOf. cbn.
    change 31 with (1 + 30) at 1. rewrite CalendarFacts.daysFromCivil_day.
    unfold MS_PER_DAY, MS_PER_HOUR, utcOffset. lia.
Qed.

Lemma year_bounds (D : isoDate) (k : Z) :
  utcStart (bucket (yearConfig D) (firstOf k 0)) = newYear k
  /\ utcEnd (bucket (yearConfig D) (firstOf k 0)) + 1 = newYear (k + 1).
Proof.
  split; [reflexivity|].
  cbn. unfold newYear. rewrite SpanFacts.valueOf_firstOf.
  rewrite CalendarFacts.next_year. unfold valueOf. cbn.
  change 31 with (1 + 30) at 1. rewrite CalendarFacts.daysFromCivil_day.
  unfold MS_PER_DAY, MS_PER_HOUR, utcOffset. lia.
Qed.

Lemma years_cover (D : isoDate) :
  FIRST_YEAR <= isoYear D ->
  Coverage.covers
    (map (fun k => bucket (yearConfig D) (firstOf k 0))
       (Coverage.upFrom FIRST_YEAR (yearsShown D)))
    (newYear FIRST_YEAR) (newYear (isoYear D + 1)).
Proof.
  intros Hy. unfold yearsShown.
  set (count := Z.to_nat (isoYear D - FIRST_YEAR + 1)).
  assert (Hcount : (0 < count)%nat) by (unfold count; lia).
  split; [|split].
  - intros i p q Hp Hq.
    apply CoverageFacts.nth_error_buckets in Hp as [Hi ->], Hq as [Hi' ->].
    replace (FIRST_YEAR + Z.of_nat (S i)) with (FIRST_YEAR + Z.of_nat i + 1)
      by lia.
    rewrite (proj2 (year_bounds D _)). now rewrite (proj1 (year_bounds D _)).
  - eexists. split; [now apply CoverageFacts.nth_error_bucket_at|].
    rewrite (proj1 (year_bounds D _)). reflexivity.
  - rewrite length_map, LoopFacts.upFrom_length.
    eexists. split; [apply CoverageFacts.nth_error_bucket_at; lia|].
    rewrite (proj2 (year_bounds D _)). f_equal. unfold count. lia.
Qed.

Lemma valid_period_cases (period : string) :
  Request.validPeriod period = true ->
  period = "hour"%string \/ period = "day"%string
  \/ period = "month"%string \/ period = "year"%string.
Proof.
  unfold Request.validPeriod. simpl. rewrite !orb_true_iff, !String.eqb_eq.
  intuition discriminate.
Qed.

End SpanClaims.

(** X1.  For a well-formed local date and at least 13 iterations,
    granularity [month] yields twelve buckets, keyed 0 to 11 and labelled
    January to December, whose bounds are contiguous at millisecond
    resolution and run from the local start of the date's year to the
    millisecond before the start of the next year; bucket [i] lasts as many
    days as month [i] has, and every instant of the year is in a bucket. *)
Theorem month_view_covers_the_year (D : Dayjs.isoDate) (fuel : nat) :
  Dayjs.wellFormed D ->
  (13 <= fuel)%nat ->
  exists months,
    Periods.getTimePeriods fuel "month"
      (Periods.buildDateRangeQuery "month" D) D = Some (Returned months)
    /\ map Periods.period months = Coverage.upFrom 0 12
    /\ map Periods.timestamp months = Spans.monthNames
    /\ Coverage.covers months (Spans.newYear (Dayjs.isoYear D))
         (Spans.newYear (Dayjs.isoYear D + 1))
    /\ (forall i p,
          nth_error months i = Some p ->
          (Periods.utcEnd p + 1 - Periods.utcStart p
           = Dayjs.daysInMonth (Dayjs.isoYear D) (Z.of_nat i)
             * Dayjs.MS_PER_DAY)%Z)
    /\ forall t,
         (Spans.newYear (Dayjs.isoYear D) <= t
          < Spans.newYear (Dayjs.isoYear D + 1))%Z ->
         exists i p,
           nth_error months i = Some p
           /\ (Periods.utcStart p <= t <= Periods.utcEnd p)%Z.
Proof.
  intros _ Hfuel.
  eexists. split; [now apply SpanFacts.getTimePeriods_month|].
  split; [now apply CoverageFacts.periods_of_buckets|].
  split; [reflexivity|].
  split; [apply SpanClaims.months_cover|].
  split.
  - intros i p Hp.
    apply CoverageFacts.nth_error_buckets in Hp as [Hi ->].
    cbn. unfold Dayjs.valueOf. cbn.
    pose proof (CalendarFacts.daysInMonth_bounds (Dayjs.isoYear D)
                  (Z.of_nat i)) as Hdim.
    replace (Dayjs.daysInMonth (Dayjs.isoYear D) (Z.of_nat i))
      with (1 + (Dayjs.daysInMonth (Dayjs.isoYear D) (Z.of_nat i) - 1))%Z
      at 1 by lia.
    rewrite CalendarFacts.daysFromCivil_day.
    unfold Dayjs.MS_PER_DAY, Dayjs.MS_PER_HOUR, Dayjs.utcOffset. lia.
  - intros t Ht.
    exact (SpanFacts.covers_instant _ _ _ t (SpanClaims.months_cover D) Ht).
Qed.

Lemma month_view_covers_the_year_witness :
  exists months,
    Periods.getTimePeriods 13 "month"
      (Periods.buildDateRangeQuery "month" someDate) someDate
    = Some (Returned months)
    /\ map Periods.period months = Coverage.upFrom 0 12.
Proof.
  assert (Hdate : Dayjs.wellFormed someDate)
    by (vm_compute; intuition discriminate).
  destruct (month_view_covers_the_year someDate 13 Hdate (le_n 13))
    as (months & Hrun & Hkeys & _).
  exists months. split; assumption.
Defined.

(** X2.  For a well-formed local date and more iterations than years to
    show, granularity [year] yields one bucket per calendar year from 2023
    to the year of the date, keyed by the year: none for a date before
    2023; from 2023 on the buckets are contiguous, start at the local start
    of 2023 (2022-12-31T16:00:00.000Z) and stop right before the start of
    the year after the date's. *)
Theorem year_view_starts_in_2023 (D : Dayjs.isoDate) (fuel : nat) :
  Dayjs.wellFormed D ->
  (Spans.yearsShown D < fuel)%nat ->
  exists years,
    Periods.getTimePeriods fuel "year"
      (Periods.buildDateRangeQuery "year" D) D = Some (Returned years)
    /\ map Periods.period years = Coverage.upFrom 2023 (Spans.yearsShown D)
    /\ ((Dayjs.isoYear D < 2023)%Z -> years = [])
    /\ ((2023 <= Dayjs.isoYear D)%Z ->
        Z.of_nat (List.length years) = (Dayjs.isoYear D - 2022)%Z
        /\ Coverage.covers years 1672502400000
             (Spans.newYear (Dayjs.isoYear D + 1))
        /\ forall t,
             (1672502400000 <= t < Spans.newYear (Dayjs.isoYear D + 1))%Z ->
             exists i p,
               nth_error years i = Some p
               /\ (Periods.utcStart p <= t <= Periods.utcEnd p)%Z).
Proof.
  intros _ Hfuel.
  eexists. split; [now apply SpanFacts.getTimePeriods_year|].
  split; [now apply CoverageFacts.periods_of_buckets|].
  split.
  - intros Hy. unfold Spans.yearsShown, Spans.FIRST_YEAR.
    now replace (Z.to_nat (Dayjs.isoYear D - 2023 + 1)) with 0%nat by lia.
  - intros Hy.
    pose proof (SpanClaims.years_cover D Hy) as Hcover.
    change (Spans.newYear Spans.FIRST_YEAR) with 1672502400000%Z in Hcover.
    split; [|split].
    + rewrite length_map, LoopFacts.upFrom_length.
      unfold Spans.yearsShown, Spans.FIRST_YEAR. lia.
    + exact Hcover.
    + intros t Ht. exact (SpanFacts.covers_instant _ _ _ t Hcover Ht).
Qed.

Lemma year_view_starts_in_2023_witness :
  exists years,
    Periods.getTimePeriods 4 "year"
      (Periods.buildDateRangeQuery "year" someDate) someDate
    = Some (Returned years)
    /\ map Periods.period years = [2023; 2024; 2025]%Z.
Proof.
  assert (Hdate : Dayjs.wellFormed someDate)
    by (vm_compute; intuition discriminate).
  destruct (year_view_starts_in_2023 someDate 4 Hdate (le_n 4))
    as (years & Hrun & Hkeys & _).
  exists years. split; assumption.
Defined.

(** X3.  For each of the four granularities the range that
    [buildDateRangeQuery] returns stops at the end of the last bucket that
    [getTimePeriods] generates; for [hour], [day] and [month] it starts at
    the start of the first bucket, and for [year] (for a date from 2023 on,
    when there is a bucket) eight hours after it: the range starts at
    2023-01-01T00:00Z, the first bucket at local midnight. *)
Theorem query_range_spans_the_buckets
  (period : string) (D : Dayjs.isoDate) (fuel : nat) :
  Dayjs.wellFormed D ->
  Request.validPeriod period = true ->
  (period = "year"%string -> (2023 <= Dayjs.isoYear D)%Z) ->
  (32 <= fuel)%nat -> (Spans.yearsShown D < fuel)%nat ->
  exists periods first last range,
    Periods.getTimePeriods fuel period
      (Periods.buildDateRangeQuery period D) D = Some (Returned periods)
    /\ nth_error periods 0 = Some first
    /\ lastOf periods = Some last
    /\ Periods.buildDateRangeQuery period D = Periods.RangeOf range
    /\ Periods.rangeStop range = Periods.utcEnd last
    /\ Periods.rangeStart range
       = (Periods.utcStart first
          + if String.eqb period "year" then Dayjs.utcOffset else 0)%Z.
Proof.
  intros D_ok Hvalid Hy Hfuel Hyears.
  pose proof (LoopFacts.lengthOfMonth_bounds D) as Hdim.
  destruct (SpanClaims.valid_period_cases period Hvalid)
    as [->|[->|[->| ->]]].
  - do 4 eexists.
    split; [apply (LoopFacts.getTimePeriods_hour D D_ok); lia|].
    split; [reflexivity|].
    split; [apply SpanClaims.lastOf_buckets; lia|].
    split; [reflexivity|]. split; [reflexivity|]. cbn. lia.
  - do 4 eexists.
    split; [apply (LoopFacts.getTimePeriods_day D D_ok); lia|].
    split; [apply CoverageFacts.nth_error_bucket_at; lia|].
    split; [apply SpanClaims.lastOf_buckets; lia|].
    split; [reflexivity|]. split.
    + replace (1 + Z.of_nat (Z.to_nat (Coverage.lengthOfMonth D) - 1))%Z
        with (Coverage.lengthOfMonth D) by lia.
      cbn [Periods.rangeStop Periods.utcEnd Periods.bucket Periods.unit
           Coverage.dayConfig].
      f_equal.
    + cbn. lia.
  - do 4 eexists.
    split; [apply SpanFacts.getTimePeriods_month; lia|].
    split; [reflexivity|].
    split; [apply SpanClaims.lastOf_buckets; lia|].
    split; [reflexivity|]. split; [reflexivity|]. cbn. lia.
  - specialize (Hy eq_refl).
    assert (Hcount : (0 < Spans.yearsShown D)%nat)
      by (unfold Spans.yearsShown, Spans.FIRST_YEAR; lia).
    do 4 eexists.
    split; [apply SpanFacts.getTimePeriods_year; lia|].
    split; [apply CoverageFacts.nth_error_bucket_at; lia|].
    split; [apply SpanClaims.lastOf_buckets; lia|].
    split; [reflexivity|]. split.
    + replace (Spans.FIRST_YEAR + Z.of_nat (Spans.yearsShown D - 1))%Z
        with (Dayjs.isoYear D)
        by (unfold Spans.yearsShown, Spans.FIRST_YEAR in *; lia).
      reflexivity.
    + reflexivity.
Qed.

Lemma query_range_spans_the_buckets_witness :
  exists periods first last range,
    Periods.getTimePeriods 32 "year"
      (Periods.buildDateRangeQuery "year" someDate) someDate
    = Some (Returned periods)
    /\ nth_error periods 0 = Some first
    /\ lastOf periods = Some last
    /\ Periods.buildDateRangeQuery "year" someDate = Periods.RangeOf range
    /\ Periods.rangeStop range = Periods.utcEnd last
    /\ Periods.rangeStart range
       = (Periods.utcStart first + Dayjs.utcOffset)%Z.
Proof.
  assert (Hdate : Dayjs.wellFormed someDate)
    by (vm_compute; intuition discriminate).
  apply (query_range_spans_the_buckets "year" someDate 32 Hdate eq_refl);
    [intros _; simpl; lia|lia|vm_compute; lia].
Defined.

(** X21.  A view depends on the date only through the span it shows: two
    well-formed dates of the same year give the same month view and the
    same year view, and two dates of the same month of the same year give
    the same day view. *)
Theorem view_depends_on_its_span (D D' : Dayjs.isoDate) (fuel : nat) :
  Dayjs.wellFormed D -> Dayjs.wellFormed D' ->
  (32 <= fuel)%nat -> (Spans.yearsShown D < fuel)%nat ->
  Dayjs.isoYear D = Dayjs.isoYear D' ->
  Periods.getTimePeriods fuel "month" (Periods.buildDateRangeQuery "month" D) D
  = Periods.getTimePeriods fuel "month"
      (Periods.buildDateRangeQuery "month" D') D'
  /\ Periods.getTimePeriods fuel "year"
       (Periods.buildDateRangeQuery "year" D) D
     = Periods.getTimePeriods fuel "year"
         (Periods.buildDateRangeQuery "year" D') D'
  /\ (Dayjs.isoMonth D = Dayjs.isoMonth D' ->
      Periods.getTimePeriods fuel "day" (Periods.buildDateRangeQuery "day" D) D
      = Periods.getTimePeriods fuel "day"
          (Periods.buildDateRangeQuery "day" D') D')
  /\ exists periods,
       Periods.getTimePeriods fuel "month"
         (Periods.buildDateRangeQuery "month" D) D = Some (Returned periods).
Proof.
  intros D_ok D_ok' Hfuel Hyears Hy.
  assert (Hshown : Spans.yearsShown D' = Spans.yearsShown D)
    by (unfold Spans.yearsShown; now rewrite Hy).
  split; [|split; [|split]].
  - rewrite !SpanFacts.getTimePeriods_month by lia. now rewrite Hy.
  - rewrite !SpanFacts.getTimePeriods_year by lia. now rewrite Hshown.
  - intros Hm.
    rewrite (LoopFacts.getTimePeriods_day D D_ok) by lia.
    rewrite (LoopFacts.getTimePeriods_day D' D_ok') by lia.
    unfold Coverage.lengthOfMonth, Coverage.atDay. now rewrite Hy, Hm.
  - eexists. apply SpanFacts.getTimePeriods_month. lia.
Qed.

Lemma view_depends_on_its_span_witness :
  Periods.getTimePeriods 32 "month"
    (Periods.buildDateRangeQuery "month" someDate) someDate
  = Periods.getTimePeriods 32 "month"
      (Periods.buildDateRangeQuery "month" (Dayjs.mkIso 2025 1 31))
      (Dayjs.mkIso 2025 1 31).
Proof.
  assert (Hdate : Dayjs.wellFormed someDate)
    by (vm_compute; intuition discriminate).
  assert (Hdate' : Dayjs.wellFormed (Dayjs.mkIso 2025 1 31))
    by (vm_compute; intuition discriminate).
  assert (Hyears : (Spans.yearsShown someDate < 32)%nat) by (vm_compute; lia).
  exact (proj1
    (view_depends_on_its_span someDate (Dayjs.mkIso 2025 1 31) 32 Hdate Hdate'
       (le_n 32) Hyears eq_refl)).
Defined.

(* ------------------------------------------------------------------ *)
(** * The mapping loaders *)

Module TableFacts.

Lemma getOwn_set {V : Type} (o : JS.jsobj V) (k k' : string) (v : V) :
  JS.getOwn (JS.set o k v) k'
  = if String.eqb k "__proto__" then JS.getOwn o k'
    else if String.eqb k' k then Some v else JS.getOwn o k'.
Proof.
  unfold JS.set. destruct (String.eqb k "__proto__"); [reflexivity|].
  destruct (String.eqb_spec k' k) as [->|Hne].
  - apply ObjFacts.getOwn_update_same.
  - now apply ObjFacts.getOwn_update_other.
Qed.

Lemma keys_set_NoDup {V : Type} (o : JS.jsobj V) (k : string) (v : V) :
  NoDup (map fst o) -> NoDup (map fst (JS.set o k v)).
Proof.
  intros Hnd. unfold JS.set. destruct (String.eqb k "__proto__"); [assumption|].
  rewrite ObjFacts.keys_update. unfold JS.hasOwnProperty.
  destruct (JS.getOwn o k) eqn:E; [assumption|].
  apply ObjFacts.getOwn_None in E.
  apply NoDup_app_remove_l with (l := []).
  apply Permutation_NoDup with (l := k :: map fst o).
  - simpl. apply Permutation_cons_append.
  - now constructor.
Qed.

Section Push.

Context {A : Type}.

Implicit Types (g : JS.jsobj (list A)).

Lemma push_plain g k (x : A) :
  JS.inherited k = false ->
  NoDup (map fst g) -> plainKeys g ->
  exists g1,
    pushTo g k x = Returned g1
    /\ NoDup (map fst g1) /\ plainKeys g1
    /\ forall k', JS.getOwn g1 k'
                  = if String.eqb k' k then extended (JS.getOwn g k) [x]
                    else JS.getOwn g k'.
Proof.
  intros Hk Hnd Hplain. unfold pushTo, JS.get.
  destruct (JS.getOwn g k) as [old|] eqn:Hget.
  - eexists. split; [reflexivity|].
    assert (Hkeys : map fst (JS.update g k (old ++ [x])) = map fst g).
    { rewrite ObjFacts.keys_update. unfold JS.hasOwnProperty. now rewrite Hget. }
    repeat split.
    + now rewrite Hkeys.
    + intros k'. rewrite Hkeys. apply Hplain.
    + intros k'. destruct (String.eqb_spec k' k) as [->|Hne].
      * apply ObjFacts.getOwn_update_same.
      * now apply ObjFacts.getOwn_update_other.
  - rewrite Hk. eexists. split; [reflexivity|].
    assert (Hnotin : ~ In k (map fst g)) by now apply ObjFacts.getOwn_None.
    repeat split.
    + rewrite map_app. simpl.
      apply NoDup_app_remove_l with (l := []).
      apply Permutation_NoDup with (l := k :: map fst g).
      * simpl. apply Permutation_cons_append.
      * now constructor.
    + intros k'. rewrite map_app, in_app_iff. simpl.
      intros [Hin|[<-|[]]]; [now apply Hplain|assumption].
    + intros k'. now apply ObjFacts.getOwn_app_new.
Qed.

Lemma push_inherited g k (x : A) :
  JS.inherited k = true -> plainKeys g ->
  pushTo g k x = Thrown TypeError.
Proof.
  intros Hk Hplain. unfold pushTo, JS.get.
  destruct (JS.getOwn g k) as [old|] eqn:Hget.
  - apply ObjFacts.getOwn_In in Hget. apply (in_map fst) in Hget.
    apply Hplain in Hget. simpl in Hget. congruence.
  - now rewrite Hk.
Qed.

Lemma push_keys g g1 k (x : A) :
  pushTo g k x = Returned g1 -> map fst g1 = RoomList.see (map fst g) k.
Proof.
  unfold pushTo, JS.get, RoomList.see.
  destruct (JS.getOwn g k) as [old|] eqn:Hget.
  - intros [= <-]. rewrite ObjFacts.keys_update. unfold JS.hasOwnProperty.
    rewrite Hget.
    assert (Hin : In k (map fst g)).
    { apply ObjFacts.getOwn_In in Hget. now apply (in_map fst) in Hget. }
    assert (E : existsb (String.eqb k) (map fst g) = true).
    { apply existsb_exists. exists k. split; [assumption|apply String.eqb_refl]. }
    now rewrite E.
  - destruct (JS.inherited k); [discriminate|].
    intros [= <-]. rewrite map_app. simpl.
    assert (E : existsb (String.eqb k) (map fst g) = false).
    { destruct (existsb (String.eqb k) (map fst g)) eqn:E; [|reflexivity].
      apply existsb_exists in E as (k' & Hin & Heq).
      apply String.eqb_eq in Heq. subst k'.
      now apply ObjFacts.getOwn_None in Hget. }
    now rewrite E.
Qed.

Lemma extended_assoc (before : option (list A)) (x : A) items :
  extended (extended before [x]) items = extended before (x :: items).
Proof.
  destruct before as [old|]; simpl.
  - now rewrite <- app_assoc.
  - reflexivity.
Qed.

Lemma extended_nil (before : option (list A)) : extended before [] = before.
Proof.
  destruct before as [old|]; simpl; [now rewrite app_nil_r|reflexivity].
Qed.

End Push.

End TableFacts.

Module MetersFacts.

Import Meters.

(** The callback does to the tables what the verdict on its row says. *)
Lemma addRow_verdict (m : Influx.MappingData) (row : MeterRow) :
  NoDup (map fst (Influx.roomToMacsMap m)) ->
  plainKeys (Influx.roomToMacsMap m) ->
  match verdictOf row with
  | Skips => Influx.addRow m row = Returned m
  | Throws => Influx.addRow m row = Thrown TypeError
  | Assigns k roomId originalMac =>
      exists rooms,
        Influx.addRow m row
        = Returned
            (Influx.mkMappingData
               (JS.set (Influx.macToRoomMap m) k roomId) rooms
               (JS.set (Influx.originalMacFormats m) k originalMac))
        /\ NoDup (map fst rooms) /\ plainKeys rooms
        /\ (forall r, JS.getOwn rooms r
                      = if String.eqb r roomId
                        then extended
                               (JS.getOwn (Influx.roomToMacsMap m) roomId)
                               [Influx.mkMacInfo k originalMac]
                        else JS.getOwn (Influx.roomToMacsMap m) r)
        /\ map fst rooms
           = RoomList.see (map fst (Influx.roomToMacsMap m)) roomId
  end.
Proof.
  intros Hnd Hplain. unfold verdictOf, Influx.addRow.
  destruct (meter_mac row) as [originalMac|]; [|reflexivity].
  destruct (room_id row) as [| |v].
  - now destruct (JS.truthy originalMac).
  - now destruct (JS.truthy originalMac).
  - destruct (JS.truthy originalMac) eqn:Horig.
    + destruct (Influx.normalizeMacAddress (Some originalMac)) as [k|];
        [|reflexivity].
      destruct (JS.truthy k); [|reflexivity].
      destruct (JS.inherited (Scalar.toString v)) eqn:Hinh.
      * now rewrite TableFacts.push_inherited.
      * destruct (TableFacts.push_plain (Influx.roomToMacsMap m)
                    (Scalar.toString v) (Influx.mkMacInfo k originalMac)
                    Hinh Hnd Hplain)
          as (rooms & Hpush & Hnd' & Hplain' & Hget).
        pose proof (TableFacts.push_keys _ _ _ _ Hpush) as Hkeys.
        rewrite Hpush. exists rooms.
        split; [reflexivity|]. split; [assumption|]. split; [assumption|].
        split; assumption.
    + unfold Influx.normalizeMacAddress, Mac.normalizeStrip.
      now rewrite Horig.
Qed.

(** The loop over the rows, from any state of the three tables. *)
Lemma build_from (rows : list MeterRow) :
  forall m0,
    NoDup (map fst (Influx.roomToMacsMap m0)) ->
    plainKeys (Influx.roomToMacsMap m0) ->
    if throws rows then forEach Influx.addRow rows m0 = Thrown TypeError
    else exists m,
        forEach Influx.addRow rows m0 = Returned m
        /\ (forall k, k <> "__proto__"%string ->
              JS.getOwn (Influx.macToRoomMap m) k
              = match lastAssigned k rows with
                | Some a => Some (fst a)
                | None => JS.getOwn (Influx.macToRoomMap m0) k
                end)
        /\ (forall k, k <> "__proto__"%string ->
              JS.getOwn (Influx.originalMacFormats m) k
              = match lastAssigned k rows with
                | Some a => Some (snd a)
                | None => JS.getOwn (Influx.originalMacFormats m0) k
                end)
        /\ (forall r,
              JS.getOwn (Influx.roomToMacsMap m) r
              = extended (JS.getOwn (Influx.roomToMacsMap m0) r)
                  (listedUnder r rows)).
Proof.
  induction rows as [|row rest IH]; intros m0 Hnd Hplain.
  - simpl. exists m0. repeat split; try reflexivity.
    intros r. now rewrite TableFacts.extended_nil.
  - cbn [throws existsb forEach lastAssigned listedUnder flat_map].
    pose proof (addRow_verdict m0 row Hnd Hplain) as Hrow.
    destruct (verdictOf row) as [| |k roomId originalMac] eqn:Hv.
    + rewrite Hrow. cbn [orb JS.bind]. fold (throws rest).
      specialize (IH m0 Hnd Hplain).
      destruct (throws rest); [exact IH|].
      destruct IH as (m & Hrun & Hfwd & Horig & Hrooms).
      exists m. split; [assumption|]. repeat split.
      * intros k Hk. rewrite (Hfwd k Hk). now destruct (lastAssigned k rest).
      * intros k Hk. rewrite (Horig k Hk). now destruct (lastAssigned k rest).
      * intros r. rewrite Hrooms. reflexivity.
    + now rewrite Hrow.
    + destruct Hrow as (rooms & -> & Hnd1 & Hplain1 & Hget1 & _).
      cbn [orb JS.bind]. fold (throws rest).
      specialize
        (IH (Influx.mkMappingData
               (JS.set (Influx.macToRoomMap m0) k roomId) rooms
               (JS.set (Influx.originalMacFormats m0) k originalMac))
            Hnd1 Hplain1).
      cbn [Influx.roomToMacsMap Influx.macToRoomMap Influx.originalMacFormats]
        in IH.
      destruct (throws rest); [exact IH|].
      destruct IH as (m & Hrun & Hfwd & Horig & Hrooms).
      exists m. split; [assumption|]. repeat split.
      * intros k0 Hk. rewrite (Hfwd k0 Hk), TableFacts.getOwn_set.
        destruct (lastAssigned k0 rest); [reflexivity|].
        rewrite (String.eqb_sym k k0).
        destruct (String.eqb_spec k0 k) as [->|Hne].
        -- destruct (String.eqb_spec k "__proto__"); [contradiction|reflexivity].
        -- now destruct (String.eqb k "__proto__").
      * intros k0 Hk. rewrite (Horig k0 Hk), TableFacts.getOwn_set.
        destruct (lastAssigned k0 rest); [reflexivity|].
        rewrite (String.eqb_sym k k0).
        destruct (String.eqb_spec k0 k) as [->|Hne].
        -- destruct (String.eqb_spec k "__proto__"); [contradiction|reflexivity].
        -- now destruct (String.eqb k "__proto__").
      * intros r. rewrite Hrooms, Hget1.
        fold (listedUnder r rest).
        rewrite (String.eqb_sym roomId r).
        destruct (String.eqb_spec r roomId) as [->|Hne].
        -- apply TableFacts.extended_assoc.
        -- reflexivity.
Qed.

(** The rooms become keys of the reverse table in the order in which the
    rows first assign them. *)
Lemma build_keys (rows : list MeterRow) :
  forall m0 m,
    NoDup (map fst (Influx.roomToMacsMap m0)) ->
    plainKeys (Influx.roomToMacsMap m0) ->
    forEach Influx.addRow rows m0 = Returned m ->
    map fst (Influx.roomToMacsMap m)
    = fold_left RoomList.see (RoomList.roomsAssigned rows)
        (map fst (Influx.roomToMacsMap m0)).
Proof.
  induction rows as [|row rest IH]; intros m0 m Hnd Hplain Hrun.
  - simpl in Hrun. now injection Hrun as <-.
  - cbn [forEach] in Hrun. cbn [RoomList.roomsAssigned flat_map].
    fold (RoomList.roomsAssigned rest). rewrite fold_left_app.
    pose proof (addRow_verdict m0 row Hnd Hplain) as Hrow.
    destruct (verdictOf row) as [| |k roomId originalMac].
    + rewrite Hrow in Hrun. cbn [JS.bind] in Hrun. now apply IH.
    + rewrite Hrow in Hrun. discriminate Hrun.
    + destruct Hrow as (rooms & Hadd & Hnd1 & Hplain1 & _ & Hkeys).
      rewrite Hadd in Hrun. cbn [JS.bind] in Hrun.
      rewrite (IH (Influx.mkMappingData
                     (JS.set (Influx.macToRoomMap m0) k roomId) rooms
                     (JS.set (Influx.originalMacFormats m0) k originalMac))
                  m Hnd1 Hplain1 Hrun).
      cbn [Influx.roomToMacsMap fold_left]. now rewrite Hkeys.
Qed.

Lemma buildMapping_tables (rows : list MeterRow) :
  if throws rows then Influx.buildMapping rows = Thrown TypeError
  else exists m,
      Influx.buildMapping rows = Returned m
      /\ (forall k, k <> "__proto__"%string ->
            JS.getOwn (Influx.macToRoomMap m) k
            = option_map fst (lastAssigned k rows))
      /\ (forall k, k <> "__proto__"%string ->
            JS.getOwn (Influx.originalMacFormats m) k
            = option_map snd (lastAssigned k rows))
      /\ (forall r,
            JS.getOwn (Influx.roomToMacsMap m) r
            = extended None (listedUnder r rows)).
Proof.
  pose proof (build_from rows Influx.emptyMapping (NoDup_nil _)
                (fun k (H : In k []) => match H with end)) as H.
  unfold Influx.buildMapping.
  destruct (throws rows); [exact H|].
  destruct H as (m & Hrun & Hfwd & Horig & Hrooms).
  exists m. split; [assumption|]. repeat split.
  - intros k Hk. rewrite (Hfwd k Hk). now destruct (lastAssigned k rows).
  - intros k Hk. rewrite (Horig k Hk). now destruct (lastAssigned k rows).
  - exact Hrooms.
Qed.

(** ** The flat table of the two part_001 programs *)

Lemma addFlat_assignment (m : JS.jsobj scalar) (row : MeterRow) :
  addFlat m row
  = Returned match flatAssignment row with
             | Some (k, roomId) => JS.set m k roomId
             | None => m
             end.
Proof.
  unfold addFlat, flatAssignment.
  destruct (meter_mac row) as [mac|]; [|reflexivity].
  destruct (room_id row) as [| |v]; try reflexivity.
  now destruct (JS.truthy mac && Scalar.truthy v).
Qed.

Lemma buildFlat_from (rows : list MeterRow) :
  forall m0,
    NoDup (map fst m0) ->
    exists m,
      forEach addFlat rows m0 = Returned m
      /\ NoDup (map fst m)
      /\ forall k, k <> "__proto__"%string ->
           JS.getOwn m k
           = match lastAssignedFlat k rows with
             | Some roomId => Some roomId
             | None => JS.getOwn m0 k
             end.
Proof.
  induction rows as [|row rest IH]; intros m0 Hnd.
  - exists m0. split; [reflexivity|]. split; [assumption|reflexivity].
  - cbn [forEach lastAssignedFlat]. rewrite addFlat_assignment. cbn [JS.bind].
    destruct (flatAssignment row) as [[k roomId]|].
    + destruct (IH (JS.set m0 k roomId) (TableFacts.keys_set_NoDup _ _ _ Hnd))
        as (m & Hrun & Hnd' & Hget).
      exists m. split; [assumption|]. split; [assumption|].
      intros k0 Hk. rewrite (Hget k0 Hk), TableFacts.getOwn_set.
      destruct (lastAssignedFlat k0 rest); [reflexivity|].
      rewrite (String.eqb_sym k k0).
      destruct (String.eqb_spec k0 k) as [->|Hne].
      * destruct (String.eqb_spec k "__proto__"); [contradiction|reflexivity].
      * now destruct (String.eqb k "__proto__").
    + destruct (IH m0 Hnd) as (m & Hrun & Hnd' & Hget).
      exists m. split; [assumption|]. split; [assumption|].
      intros k0 Hk. rewrite (Hget k0 Hk).
      now destruct (lastAssignedFlat k0 rest).
Qed.

Lemma macsForRoomFlat_In (m : JS.jsobj scalar) (room k : string) :
  NoDup (map fst m) ->
  In k (macsForRoomFlat m room)
  <-> exists roomId, JS.getOwn m k = Some roomId
                     /\ Scalar.toString roomId = room.
Proof.
  intros Hnd. unfold macsForRoomFlat. rewrite in_map_iff. split.
  - intros ([k' v] & <- & Hin). apply filter_In in Hin as [Hin Heq].
    simpl in *. apply String.eqb_eq in Heq.
    exists v. split; [|assumption].
    apply ObjFacts.In_getOwn; [assumption|].
    now apply (Permutation_in _ (ObjFacts.entries_Permutation m)).
  - intros (v & Hget & Hroom).
    exists (k, v). split; [reflexivity|].
    apply filter_In. split.
    + apply (Permutation_in _ (Permutation_sym (ObjFacts.entries_Permutation m))).
      now apply ObjFacts.getOwn_In.
    + simpl. now apply String.eqb_eq.
Qed.

End MetersFacts.

Module MetersClaims.

Import Meters.

Lemma lastAssigned_last (before after : list MeterRow) (row : MeterRow)
  (k r o : string) :
  verdictOf row = Assigns k r o ->
  (forall later, In later after -> assignsTo k later = false) ->
  lastAssigned k (before ++ row :: after) = Some (r, o).
Proof.
  intros Hrow Hafter.
  assert (Hnone : lastAssigned k after = None).
  { induction after as [|a after IH]; [reflexivity|].
    cbn [lastAssigned]. rewrite IH by (intros; apply Hafter; now right).
    pose proof (Hafter a (or_introl eq_refl)) as Ha.
    unfold assignsTo in Ha. destruct (verdictOf a); try reflexivity.
    now rewrite Ha. }
  induction before as [|b before IH].
  - cbn [app lastAssigned]. rewrite Hnone, Hrow. now rewrite String.eqb_refl.
  - cbn [app lastAssigned]. now rewrite IH.
Qed.

Lemma lastAssigned_never (rows : list MeterRow) (k : string) :
  (forall row, In row rows -> assignsTo k row = false) ->
  lastAssigned k rows = None.
Proof.
  induction rows as [|a rows IH]; intros H; [reflexivity|].
  cbn [lastAssigned]. rewrite IH by (intros; apply H; now right).
  pose proof (H a (or_introl eq_refl)) as Ha.
  unfold assignsTo in Ha. destruct (verdictOf a); try reflexivity.
  now rewrite Ha.
Qed.

Lemma lastAssignedFlat_last (before after : list MeterRow) (row : MeterRow)
  (k : string) (roomId : scalar) :
  flatAssignment row = Some (k, roomId) ->
  (forall later, In later after -> assignsToFlat k later = false) ->
  lastAssignedFlat k (before ++ row :: after) = Some roomId.
Proof.
  intros Hrow Hafter.
  assert (Hnone : lastAssignedFlat k after = None).
  { induction after as [|a after IH]; [reflexivity|].
    cbn [lastAssignedFlat]. rewrite IH by (intros; apply Hafter; now right).
    pose proof (Hafter a (or_introl eq_refl)) as Ha.
    unfold assignsToFlat in Ha. destruct (flatAssignment a) as [[k' v]|];
      [|reflexivity].
    now rewrite Ha. }
  induction before as [|b before IH].
  - cbn [app lastAssignedFlat]. rewrite Hnone, Hrow. now rewrite String.eqb_refl.
  - cbn [app lastAssignedFlat]. now rewrite IH.
Qed.

Lemma lastAssignedFlat_shape (rows : list MeterRow) (k : string) (roomId : scalar) :
  lastAssignedFlat k rows = Some roomId ->
  JS.toLowerCase k = k /\ Scalar.truthy roomId = true.
Proof.
  induction rows as [|a rows IH]; [discriminate|].
  cbn [lastAssignedFlat].
  destruct (lastAssignedFlat k rows); [exact IH|].
  unfold flatAssignment.
  destruct (meter_mac a) as [mac|]; [|discriminate].
  destruct (room_id a) as [| |v]; try discriminate.
  destruct (JS.truthy mac && Scalar.truthy v) eqn:E; [|discriminate].
  destruct (String.eqb_spec (JS.toLowerCase mac) k) as [<-|]; [|discriminate].
  intros [= <-]. apply andb_prop in E as [_ Hv].
  split; [apply MacFacts.toLowerCase_idem|assumption].
Qed.

Lemma listedUnder_normalized (room : string) (rows : list MeterRow)
  (info : Influx.MacInfo) :
  In info (listedUnder room rows) ->
  Influx.normalizeMacAddress (Some (Influx.original info))
  = Some (Influx.normalized info)
  /\ JS.truthy (Influx.normalized info) = true.
Proof.
  unfold listedUnder. rewrite in_flat_map. intros (row & _ & Hin).
  unfold verdictOf in Hin.
  destruct (meter_mac row) as [originalMac|]; [|now destruct Hin].
  destruct (room_id row) as [| |v]; try now destruct Hin.
  - now destruct (JS.truthy originalMac).
  - destruct (Influx.normalizeMacAddress (Some originalMac)) as [k|] eqn:Hk;
      [|now destruct Hin].
    destruct (JS.truthy k) eqn:Ht; [|now destruct Hin].
    destruct (JS.inherited (Scalar.toString v)); [now destruct Hin|].
    destruct (String.eqb (Scalar.toString v) room); [|now destruct Hin].
    destruct Hin as [<-|[]]. simpl. now split.
Qed.

Lemma keys_In {V : Type} (o : JS.jsobj V) (k : string) :
  In k (JS.keys o) <-> JS.getOwn o k <> None.
Proof.
  unfold JS.keys.
  assert (Hperm : Permutation (map fst (JS.entries o)) (map fst o))
    by apply Permutation_map, ObjFacts.entries_Permutation.
  split.
  - intros Hin Hnone. apply ObjFacts.getOwn_None in Hnone. apply Hnone.
    now apply (Permutation_in _ Hperm).
  - intros Hsome.
    apply (Permutation_in _ (Permutation_sym Hperm)).
    destruct (in_dec string_dec k (map fst o)) as [Hin|Hnotin]; [assumption|].
    now apply ObjFacts.getOwn_None in Hnotin.
Qed.

End MetersClaims.

(** X4.  In part_000 the forward table and the table of display forms are
    keyed by the normalized address and keep what the last row for that
    address assigns: when a later row for the same device (in any display
    form) names another room, the lookup gives the later room; an address
    that no row assigns is not a key of either table. *)
Theorem forward_map_last_row_wins
  (rows : list MeterRow) (m : Influx.MappingData) (k : string) :
  Influx.buildMapping rows = Returned m ->
  k <> "__proto__"%string ->
  JS.getOwn (Influx.macToRoomMap m) k
  = option_map fst (Meters.lastAssigned k rows)
  /\ JS.getOwn (Influx.originalMacFormats m) k
     = option_map snd (Meters.lastAssigned k rows)
  /\ (forall before row after room originalMac,
        rows = before ++ row :: after ->
        Meters.verdictOf row = Meters.Assigns k room originalMac ->
        (forall later, In later after -> Meters.assignsTo k later = false) ->
        JS.get (Influx.macToRoomMap m) k = JS.Own room
        /\ JS.get (Influx.originalMacFormats m) k = JS.Own originalMac)
  /\ ((forall row, In row rows -> Meters.assignsTo k row = false) ->
      JS.hasOwnProperty (Influx.macToRoomMap m) k = false
      /\ JS.hasOwnProperty (Influx.originalMacFormats m) k = false).
Proof.
  intros Hbuild Hk.
  pose proof (MetersFacts.buildMapping_tables rows) as H.
  destruct (Meters.throws rows); [congruence|].
  destruct H as (m' & Hrun & Hfwd & Horig & _).
  assert (m' = m) by congruence. subst m'.
  split; [now apply Hfwd|]. split; [now apply Horig|]. split.
  - intros before row after room originalMac -> Hrow Hafter.
    unfold JS.get. rewrite (Hfwd k Hk), (Horig k Hk).
    now rewrite (MetersClaims.lastAssigned_last _ _ _ _ _ _ Hrow Hafter).
  - intros Hnever. unfold JS.hasOwnProperty.
    rewrite (Hfwd k Hk), (Horig k Hk).
    now rewrite (MetersClaims.lastAssigned_never _ _ Hnever).
Qed.

Lemma forward_map_last_row_wins_witness :
  JS.getOwn (Influx.macToRoomMap Meters.sampleTables) "aabbccddee01"
  = Some "2"%string
  /\ JS.getOwn (Influx.originalMacFormats Meters.sampleTables) "aabbccddee01"
     = Some "aa-bb-cc-dd-ee-01"%string.
Proof.
  assert (Hk : "aabbccddee01"%string <> "__proto__"%string) by discriminate.
  destruct (forward_map_last_row_wins Meters.sample Meters.sampleTables
              "aabbccddee01" eq_refl Hk) as (H1 & H2 & _).
  split; [exact H1|exact H2].
Defined.

(** X5.  In part_000 the reverse table lists, under each room, one entry
    per row that assigns that room, in row order; each entry pairs the
    display form of the row with its normalization.  The MAC filter the
    handler builds for a requested room is therefore the list of those
    display forms, also of a device that a later row assigned elsewhere.
    A room without such a row gets the "no meters" report, unless it is
    named like a function of [Object.prototype] that takes arguments
    ([constructor], [hasOwnProperty], ...): the room block then throws and
    the request is answered with status 500.  [availableRooms] names
    exactly the rooms with an entry. *)
Theorem room_filter_lists_display_forms
  (rows : list MeterRow) (m : Influx.MappingData) (period room : string)
  (D : Dayjs.isoDate) :
  Influx.buildMapping rows = Returned m ->
  JS.getOwn (Influx.roomToMacsMap m) room
  = extended None (Meters.listedUnder room rows)
  /\ (JS.truthy room = true ->
      Influx.roomFilter period (Some room) D m
      = match Meters.listedUnder room rows with
        | [] =>
            match
              (if JS.inherited room then JS.inheritedLength room else None)
            with
            | Some arity =>
                if (0 <? arity)%Z then Thrown TypeError
                else Returned (inr (Influx.noMeters period room D m))
            | None => Returned (inr (Influx.noMeters period room D m))
            end
        | listed => Returned (inl (map Influx.original listed))
        end)
  /\ (forall info,
        In info (Meters.listedUnder room rows) ->
        Influx.normalizeMacAddress (Some (Influx.original info))
        = Some (Influx.normalized info))
  /\ (In room (JS.keys (Influx.roomToMacsMap m))
      <-> Meters.listedUnder room rows <> []).
Proof.
  intros Hbuild.
  pose proof (MetersFacts.buildMapping_tables rows) as H.
  destruct (Meters.throws rows); [congruence|].
  destruct H as (m' & Hrun & _ & _ & Hrooms).
  assert (m' = m) by congruence. subst m'.
  split; [apply Hrooms|]. split; [|split].
  - intros Htruthy. unfold Influx.roomFilter, JS.get.
    rewrite Htruthy, Hrooms.
    destruct (Meters.listedUnder room rows); [|reflexivity].
    cbn [extended]. destruct (JS.inherited room); [|reflexivity].
    destruct (JS.inheritedLength room) as [arity|]; reflexivity.
  - intros info Hin.
    exact (proj1 (MetersClaims.listedUnder_normalized _ _ _ Hin)).
  - rewrite MetersClaims.keys_In, Hrooms.
    destruct (Meters.listedUnder room rows); simpl; split; congruence.
Qed.

Lemma room_filter_lists_display_forms_witness :
  Influx.roomFilter "hour" (Some "2"%string) someDate Meters.sampleTables
  = Returned (inl ["AA:BB:CC:DD:EE:02"; "aa-bb-cc-dd-ee-01"]%string)
  /\ Influx.roomFilter "hour" (Some "constructor"%string) someDate
       Meters.sampleTables
     = Thrown TypeError.
Proof.
  split.
  - exact (proj1 (proj2
      (room_filter_lists_display_forms Meters.sample Meters.sampleTables
         "hour" "2" someDate eq_refl)) eq_refl).
  - exact (proj1 (proj2
      (room_filter_lists_display_forms Meters.sample Meters.sampleTables
         "hour" "constructor" someDate eq_refl)) eq_refl).
Defined.

(** X6.  A refresh of the part_000 mapping is all or nothing.  With no
    usable cache and a meters query that returns rows, one row whose
    callback throws (an address with a null [room_id], or a room named like
    a member of [Object.prototype]) makes the call return the previous
    mapping, or the empty one, and leave the cache alone; without such a
    row the mapping built from the rows is returned and cached with the
    current time.  The loaders of the two part_001 programs skip such rows
    and always cache the result. *)
Theorem refresh_is_all_or_nothing
  (now : Z) (rows : list MeterRow)
  (cache : Cache Influx.MappingData) (flatCache : Cache (JS.jsobj scalar)) :
  (cacheHit now cache = None ->
   if Meters.throws rows
   then Influx.getMetersMapping now (Returned rows) cache
        = (Returned match metersCache cache with
                    | Some previous => previous
                    | None => Influx.emptyMapping
                    end, cache)
   else exists m,
       Influx.buildMapping rows = Returned m
       /\ Influx.getMetersMapping now (Returned rows) cache
          = (Returned m, mkCache (Some m) (Some now)))
  /\ (cacheHit now flatCache = None ->
      exists m,
        buildFlat rows = Returned m
        /\ Elastic.getMetersMapping now (Returned rows) flatCache
           = (Returned m, mkCache (Some m) (Some now))
        /\ InfluxFlat.getMetersMapping now (Returned rows) flatCache
           = (Returned m, mkCache (Some m) (Some now))).
Proof.
  unfold Influx.getMetersMapping, Elastic.getMetersMapping,
    InfluxFlat.getMetersMapping, getMetersMappingFlat, cachedMapping.
  split.
  - intros ->. cbn [JS.bind].
    pose proof (MetersFacts.buildMapping_tables rows) as H.
    destruct (Meters.throws rows).
    + now rewrite H.
    + destruct H as (m & Hrun & _). exists m. now rewrite Hrun.
  - intros ->. cbn [JS.bind].
    destruct (MacRenderFacts.buildFlat_returns rows) as [m Hm].
    exists m. now rewrite Hm.
Qed.

(** X7.  In the two part_001 programs the table is keyed by the lower-cased
    address and keeps the room of the last row that has both a non-empty
    address and a truthy room: a row for room 0 or with an empty room name
    records nothing.  The MAC filter for a requested room lists exactly the
    keys whose room prints as the requested one. *)
Theorem flat_map_last_row_wins (rows : list MeterRow) (k room : string) :
  exists m,
    buildFlat rows = Returned m
    /\ (k <> "__proto__"%string ->
        JS.getOwn m k = Meters.lastAssignedFlat k rows
        /\ (forall roomId,
              JS.getOwn m k = Some roomId ->
              JS.toLowerCase k = k /\ Scalar.truthy roomId = true)
        /\ (forall before row after roomId,
              rows = before ++ row :: after ->
              Meters.flatAssignment row = Some (k, roomId) ->
              (forall later,
                 In later after -> Meters.assignsToFlat k later = false) ->
              JS.getOwn m k = Some roomId))
    /\ (In k (macsForRoomFlat m room)
        <-> exists roomId,
            JS.getOwn m k = Some roomId /\ Scalar.toString roomId = room).
Proof.
  destruct (MetersFacts.buildFlat_from rows [] (NoDup_nil _))
    as (m & Hrun & Hnd & Hget).
  exists m. split; [exact Hrun|]. split.
  - intros Hk.
    assert (Hlookup : JS.getOwn m k = Meters.lastAssignedFlat k rows).
    { rewrite (Hget k Hk). now destruct (Meters.lastAssignedFlat k rows). }
    split; [exact Hlookup|]. split.
    + intros roomId Hsome. rewrite Hlookup in Hsome.
      exact (MetersClaims.lastAssignedFlat_shape _ _ _ Hsome).
    + intros before row after roomId -> Hrow Hafter. rewrite Hlookup.
      exact (MetersClaims.lastAssignedFlat_last _ _ _ _ _ Hrow Hafter).
  - now apply MetersFacts.macsForRoomFlat_In.
Qed.

Example sample_tables :
  Meters.sampleTables
  = Influx.mkMappingData
      [("aabbccddee01", "2"); ("aabbccddee02", "2"); ("aabbccddee04", "0")]%string
      [("1", [Influx.mkMacInfo "aabbccddee01" "AA:BB:CC:DD:EE:01"]);
       ("2", [Influx.mkMacInfo "aabbccddee02" "AA:BB:CC:DD:EE:02";
              Influx.mkMacInfo "aabbccddee01" "aa-bb-cc-dd-ee-01"]);
       ("0", [Influx.mkMacInfo "aabbccddee04" "AA:BB:CC:DD:EE:04"])]%string
      [("aabbccddee01", "aa-bb-cc-dd-ee-01");
       ("aabbccddee02", "AA:BB:CC:DD:EE:02");
       ("aabbccddee04", "AA:BB:CC:DD:EE:04")]%string
  /\ Meters.sampleFlat
     = [("aa:bb:cc:dd:ee:01", Num 1); ("aa:bb:cc:dd:ee:02", Str "2");
        ("aa-bb-cc-dd-ee-01", Num 2)]%string.
Proof. split; reflexivity. Qed.

(** X8.  Once a refresh at a time other than 0 has stored a mapping, every
    call less than five minutes later returns that mapping and leaves the
    cache alone, whatever the storage would answer; from five minutes on
    the next call queries storage again and replaces the cache when the
    rows load.  The same holds in the three programs. *)
Theorem mapping_cached_for_five_minutes
  (now soon late : Z) (rows reloaded : list MeterRow)
  (query : outcome (list MeterRow))
  (cache : Cache Influx.MappingData) (flatCache : Cache (JS.jsobj scalar))
  (m m' : Influx.MappingData) (flat flat' : JS.jsobj scalar) :
  now <> 0%Z ->
  (soon - now < 300000)%Z ->
  (300000 <= late - now)%Z ->
  (cacheHit now cache = None ->
   Influx.buildMapping rows = Returned m ->
   Influx.buildMapping reloaded = Returned m' ->
   let stored := mkCache (Some m) (Some now) in
   Influx.getMetersMapping now (Returned rows) cache = (Returned m, stored)
   /\ Influx.getMetersMapping soon query stored = (Returned m, stored)
   /\ Influx.getMetersMapping late (Returned reloaded) stored
      = (Returned m', mkCache (Some m') (Some late)))
  /\ (cacheHit now flatCache = None ->
      buildFlat rows = Returned flat ->
      buildFlat reloaded = Returned flat' ->
      let stored := mkCache (Some flat) (Some now) in
      (Elastic.getMetersMapping now (Returned rows) flatCache
       = (Returned flat, stored)
       /\ Elastic.getMetersMapping soon query stored = (Returned flat, stored)
       /\ Elastic.getMetersMapping late (Returned reloaded) stored
          = (Returned flat', mkCache (Some flat') (Some late)))
      /\ (InfluxFlat.getMetersMapping now (Returned rows) flatCache
          = (Returned flat, stored)
          /\ InfluxFlat.getMetersMapping soon query stored
             = (Returned flat, stored)
          /\ InfluxFlat.getMetersMapping late (Returned reloaded) stored
             = (Returned flat', mkCache (Some flat') (Some late)))).
Proof.
  intros Hnow Hsoon Hlate.
  assert (Hhit : forall M (x : M),
            cacheHit soon (mkCache (Some x) (Some now)) = Some x).
  { intros M x. unfold cacheHit, CACHE_DURATION. cbn.
    destruct (Z.eqb_spec now 0); [contradiction|].
    destruct (Z.ltb_spec (soon - now) 300000); [reflexivity|lia]. }
  assert (Hmiss : forall M (x : M),
            cacheHit late (mkCache (Some x) (Some now)) = None).
  { intros M x. unfold cacheHit, CACHE_DURATION. cbn.
    destruct (Z.ltb_spec (late - now) 300000); [lia|].
    now rewrite andb_false_r. }
  unfold Influx.getMetersMapping, Elastic.getMetersMapping,
    InfluxFlat.getMetersMapping, getMetersMappingFlat, cachedMapping.
  split.
  - intros Hmiss0 Hm Hm'.
    rewrite Hmiss0, Hhit, Hmiss. cbn [JS.bind]. now rewrite Hm, Hm'.
  - intros Hmiss0 Hm Hm'.
    rewrite Hmiss0, Hhit, Hmiss. cbn [JS.bind]. now rewrite Hm, Hm'.
Qed.

Lemma mapping_cached_for_five_minutes_witness :
  Influx.getMetersMapping 1000 (Returned Meters.sample) emptyCache
  = (Returned Meters.sampleTables,
     mkCache (Some Meters.sampleTables) (Some 1000%Z))
  /\ Influx.getMetersMapping 300999 (Thrown StorageError)
       (mkCache (Some Meters.sampleTables) (Some 1000%Z))
     = (Returned Meters.sampleTables,
        mkCache (Some Meters.sampleTables) (Some 1000%Z))
  /\ Influx.getMetersMapping 301000 (Returned RoomExamples.meters)
       (mkCache (Some Meters.sampleTables) (Some 1000%Z))
     = (Returned RoomExamples.loaded,
        mkCache (Some RoomExamples.loaded) (Some 301000%Z)).
Proof.
  assert (H1 : (1000 <> 0)%Z) by lia.
  assert (H2 : (300999 - 1000 < 300000)%Z) by lia.
  assert (H3 : (300000 <= 301000 - 1000)%Z) by lia.
  exact (proj1
    (mapping_cached_for_five_minutes 1000 300999 301000 Meters.sample
       RoomExamples.meters (Thrown StorageError) emptyCache emptyCache
       Meters.sampleTables RoomExamples.loaded Meters.sampleFlat
       Meters.sampleFlat H1 H2 H3)
    eq_refl eq_refl eq_refl).
Defined.

(* ------------------------------------------------------------------ *)
(** * Enumeration order of the room index *)

Module KeyFacts.

Import RoomList.

Section Enumerate.

Context {V : Type}.

Implicit Types (o : JS.jsobj V).

Lemma insertByIndex_sorted (e : N * (string * V)) l :
  StronglySorted (@indexOrder V) l ->
  StronglySorted (@indexOrder V) (JS.insertByIndex e l).
Proof.
  intros Hs. induction Hs as [|x l Hs IH Hall]; simpl.
  - repeat constructor.
  - destruct (N.leb_spec (fst e) (fst x)) as [Hle|Hgt].
    + constructor; [now constructor|].
      constructor; [exact Hle|].
      eapply Forall_impl; [|exact Hall].
      intros a Ha. unfold indexOrder in *. lia.
    + constructor; [exact IH|].
      apply (Permutation_Forall
               (Permutation_sym (ObjFacts.insertByIndex_Permutation e l))).
      constructor; [unfold indexOrder; lia|assumption].
Qed.

Lemma indexed_sorted o : StronglySorted (@indexOrder V) (JS.indexed o).
Proof.
  induction o as [|[k v] o IH]; simpl; [constructor|].
  destruct (JS.arrayIndex k); [now apply insertByIndex_sorted|assumption].
Qed.

Lemma indexed_index o :
  Forall (fun e => JS.arrayIndex (fst (snd e)) = Some (fst e)) (JS.indexed o).
Proof.
  induction o as [|[k v] o IH]; simpl; [constructor|].
  destruct (JS.arrayIndex k) as [n|] eqn:E; [|assumption].
  apply (Permutation_Forall
           (Permutation_sym (ObjFacts.insertByIndex_Permutation _ _))).
  now constructor.
Qed.

Lemma indexed_Permutation o :
  Permutation (map (fun e => fst (snd e)) (JS.indexed o))
    (filter isIndex (map fst o)).
Proof.
  induction o as [|[k v] o IH]; simpl; [reflexivity|].
  unfold isIndex at 1. destruct (JS.arrayIndex k) as [n|].
  - rewrite (Permutation_map _ (ObjFacts.insertByIndex_Permutation _ _)).
    simpl. now apply perm_skip.
  - assumption.
Qed.

Lemma named_keys o :
  map fst (JS.named o) = filter (fun k => negb (isIndex k)) (map fst o).
Proof.
  unfold JS.named, isIndex.
  induction o as [|[k v] o IH]; simpl; [reflexivity|].
  destruct (JS.arrayIndex k); simpl; now rewrite IH.
Qed.

(** [Object.keys]: the array indices in ascending order, then the other
    keys in creation order. *)
Lemma keys_order o :
  exists numeric,
    JS.keys o = numeric ++ filter (fun k => negb (isIndex k)) (map fst o)
    /\ Permutation numeric (filter isIndex (map fst o))
    /\ StronglySorted byIndex numeric.
Proof.
  exists (map (fun e => fst (snd e)) (JS.indexed o)).
  split; [|split].
  - unfold JS.keys, JS.entries. now rewrite map_app, map_map, named_keys.
  - apply indexed_Permutation.
  - pose proof (indexed_sorted o) as Hs. pose proof (indexed_index o) as Hi.
    induction Hs as [|x l Hs IH Hall]; simpl; [constructor|].
    inversion Hi as [|? ? Hx Hl]; subst.
    constructor; [now apply IH|].
    apply Forall_map. apply Forall_forall. intros y Hy.
    unfold byIndex. rewrite Hx.
    rewrite (proj1 (Forall_forall _ _) Hl y Hy).
    exact (proj1 (Forall_forall _ _) Hall y Hy).
Qed.

End Enumerate.

End KeyFacts.

(** X19.  In part_000 the list of known rooms, as [meta.availableRooms] and
    the "no meters" message give it, names each room that a row of the
    meters table assigns once: first the rooms whose name is an array index
    (a canonical decimal numeral), in ascending numeric order whatever the
    order of the rows, then the other rooms in the order in which the rows
    first assign them. *)
Theorem known_rooms_numbers_first
  (rows : list MeterRow) (m : Influx.MappingData) :
  Influx.buildMapping rows = Returned m ->
  exists numeric,
    JS.keys (Influx.roomToMacsMap m)
    = numeric
      ++ filter (fun k => negb (RoomList.isIndex k))
           (RoomList.firstSeen (RoomList.roomsAssigned rows))
    /\ Permutation numeric
         (filter RoomList.isIndex
            (RoomList.firstSeen (RoomList.roomsAssigned rows)))
    /\ StronglySorted RoomList.byIndex numeric.
Proof.
  intros Hbuild.
  pose proof (MetersFacts.build_keys rows Influx.emptyMapping m (NoDup_nil _)
                (fun k (H : In k []) => match H with end) Hbuild) as Hkeys.
  cbn [Influx.roomToMacsMap Influx.emptyMapping map] in Hkeys.
  fold (RoomList.firstSeen (RoomList.roomsAssigned rows)) in Hkeys.
  rewrite <- Hkeys. apply KeyFacts.keys_order.
Qed.

Lemma known_rooms_numbers_first_witness :
  exists numeric,
    JS.keys (Influx.roomToMacsMap RoomList.shuffledTables)
    = numeric ++ ["lab"%string]
    /\ Permutation numeric ["10"; "2"; "1"]%string
    /\ StronglySorted RoomList.byIndex numeric.
Proof.
  exact (known_rooms_numbers_first RoomList.shuffled RoomList.shuffledTables
           eq_refl).
Defined.

Example shuffled_rooms_listed_in_order :
  JS.keys (Influx.roomToMacsMap RoomList.shuffledTables)
  = ["1"; "2"; "10"; "lab"]%string.
Proof. reflexivity. Qed.
(* ------------------------------------------------------------------ *)
(** * The colon format *)

Module FormatFacts.

Import Mac.

Lemma delimiter_or_dot (c : ascii) :
  isDelimiter c = false -> isLineTerminator c = false.
Proof.
  destruct c as [[] [] [] [] [] [] [] []]; vm_compute; intro H;
    first [ reflexivity | discriminate H ].
Qed.

Lemma normalized_settled (x : string) :
  Forall settled
    (list_ascii_of_string (JS.toLowerCase (JS.removeAll isDelimiter x))).
Proof.
  induction x as [|c x IH]; simpl; [constructor|].
  destruct (isDelimiter c) eqn:E; [assumption|].
  simpl. constructor; [|assumption].
  split; [now rewrite MacFacts.isDelimiter_lowerChar|apply MacFacts.lowerChar_idem].
Qed.

Lemma normalizeStrip_settled (mac : option string) (n : string) :
  normalizeStrip mac = Some n -> Forall settled (list_ascii_of_string n).
Proof.
  unfold normalizeStrip. destruct mac as [x|]; [|discriminate].
  destruct (JS.truthy x); [|discriminate].
  intros [= <-]. apply normalized_settled.
Qed.

Lemma removeAll_colons (digits : list ascii) :
  Forall settled digits ->
  JS.removeAll isDelimiter (render ":" digits) = string_of_list_ascii digits.
Proof.
  enough (H : (Forall settled digits ->
               JS.removeAll isDelimiter (render ":" digits)
               = string_of_list_ascii digits)
              /\ forall a, Forall settled (a :: digits) ->
                           JS.removeAll isDelimiter (render ":" (a :: digits))
                           = string_of_list_ascii (a :: digits))
    by apply H.
  induction digits as [|b rest [IH1 IH2]].
  - split; [reflexivity|].
    intros a Ha. inversion Ha as [|? ? [Hd _] _]; subst.
    simpl. now rewrite Hd.
  - split; [apply IH2|].
    intros a Ha. inversion Ha as [|? ? [Hda _] Hrest]; subst.
    inversion Hrest as [|? ? [Hdb _] Hrest']; subst.
    destruct rest as [|c rest'].
    + simpl. now rewrite Hda, Hdb.
    + change (render ":" (a :: b :: c :: rest'))
        with (String a (String b (":" ++ render ":" (c :: rest')))).
      cbn [JS.removeAll]. rewrite Hda, Hdb.
      rewrite MacFacts.removeAll_app. cbn [append].
      change (JS.removeAll isDelimiter ":") with EmptyString.
      cbn [append]. now rewrite (IH1 Hrest').
Qed.

Lemma settled_lower (n : string) :
  Forall settled (list_ascii_of_string n) -> JS.toLowerCase n = n.
Proof.
  induction n as [|c n IH]; simpl; [reflexivity|].
  intros H. inversion H as [|? ? [_ Hl] Hrest]; subst.
  now rewrite Hl, IH.
Qed.

Lemma normalize_colons (n : string) :
  JS.truthy n = true ->
  Forall settled (list_ascii_of_string n) ->
  normalizeStrip (Some (render ":" (list_ascii_of_string n))) = Some n.
Proof.
  intros Hn Hset. unfold normalizeStrip.
  rewrite MacFacts.render_truthy by (destruct n; discriminate).
  rewrite (removeAll_colons _ Hset), string_of_list_ascii_of_string.
  now rewrite (settled_lower n Hset).
Qed.

Lemma format_twelve (c1 c2 c3 c4 c5 c6 c7 c8 c9 c10 c11 c12 : ascii) :
  Forall settled [c1; c2; c3; c4; c5; c6; c7; c8; c9; c10; c11; c12] ->
  let n := string_of_list_ascii
             [c1; c2; c3; c4; c5; c6; c7; c8; c9; c10; c11; c12] in
  formatMacAddress (Some n)
  = Some (render ":" [c1; c2; c3; c4; c5; c6; c7; c8; c9; c10; c11; c12]).
Proof.
  intros H n. unfold n.
  repeat match goal with
         | H : Forall settled (_ :: _) |- _ =>
             let Hd := fresh "Hd" in
             inversion H as [|? ? [Hd _] ?]; subst; clear H;
             apply delimiter_or_dot in Hd
         end.
  unfold formatMacAddress. cbn [string_of_list_ascii JS.truthy String.length
    Nat.eqb negb orb colonAfterPairs].
  repeat match goal with
         | Hd : isLineTerminator ?c = false |- _ => rewrite Hd; clear Hd
         end.
  reflexivity.
Qed.

End FormatFacts.

(** X9.  On a normalized address of twelve code units [formatMacAddress]
    gives the colon-delimited rendering (seventeen code units, a colon after
    every pair but the last), and normalizing that rendering gives the
    address back; a value of another length, the empty string and null are
    returned unchanged. *)
Theorem format_inverts_normalize (mac : option string) (n other : string) :
  Influx.normalizeMacAddress mac = Some n ->
  String.length n = 12%nat ->
  formatMacAddress (Some n) = Some (Mac.render ":" (list_ascii_of_string n))
  /\ option_map String.length (formatMacAddress (Some n)) = Some 17%nat
  /\ Influx.normalizeMacAddress (formatMacAddress (Some n)) = Some n
  /\ (String.length other <> 12%nat ->
      formatMacAddress (Some other) = Some other)
  /\ formatMacAddress None = None.
Proof.
  intros Hn Hlen.
  pose proof (FormatFacts.normalizeStrip_settled mac n Hn) as Hset.
  assert (Hformat : formatMacAddress (Some n)
                    = Some (Mac.render ":" (list_ascii_of_string n))).
  { do 12 (destruct n as [|? n]; [discriminate Hlen|]).
    destruct n; [|discriminate Hlen].
    exact (FormatFacts.format_twelve _ _ _ _ _ _ _ _ _ _ _ _ Hset). }
  split; [exact Hformat|]. split; [|split; [|split]].
  - rewrite Hformat.
    do 12 (destruct n as [|? n]; [discriminate Hlen|]).
    destruct n; [reflexivity|discriminate Hlen].
  - rewrite Hformat. apply FormatFacts.normalize_colons; [|assumption].
    destruct n; [discriminate Hlen|reflexivity].
  - intros Hother. unfold formatMacAddress.
    destruct (Nat.eqb_spec (String.length other) 12); [contradiction|].
    now rewrite orb_true_r.
  - reflexivity.
Qed.

Lemma format_inverts_normalize_witness :
  formatMacAddress (Some "08f9e07364db"%string)
  = Some "08:f9:e0:73:64:db"%string
  /\ Influx.normalizeMacAddress (formatMacAddress (Some "08f9e07364db"%string))
     = Some "08f9e07364db"%string.
Proof.
  destruct (format_inverts_normalize (Some "08:F9:E0:73:64:DB"%string)
              "08f9e07364db" "" eq_refl eq_refl) as (H1 & _ & H3 & _).
  split; [exact H1|exact H3].
Defined.

(** X20.  What the part_000 normalizer returns holds no colon, hyphen or
    white space and no letter that lower-casing would change; it is the
    empty string exactly when the argument is made of delimiters only, and
    the aggregator then skips the row like one without an address. *)
Theorem normalized_has_no_delimiters (mac n : string) :
  Influx.normalizeMacAddress (Some mac) = Some n ->
  Forall settled (list_ascii_of_string n)
  /\ (n = EmptyString
      <-> Forall (fun c => Mac.isDelimiter c = true) (list_ascii_of_string mac))
  /\ (n = EmptyString ->
      forall value time, influxDevice (mkRow (Some mac) value time) = None).
Proof.
  intros Hn.
  pose proof (FormatFacts.normalizeStrip_settled (Some mac) n Hn) as Hset.
  unfold Influx.normalizeMacAddress, Mac.normalizeStrip in Hn.
  destruct (JS.truthy mac); [|discriminate].
  injection Hn as <-.
  split; [exact Hset|]. split.
  - clear Hset. split.
    + intros Hempty.
      assert (Hstrip : JS.removeAll Mac.isDelimiter mac = EmptyString).
      { destruct (JS.removeAll Mac.isDelimiter mac); [reflexivity|discriminate]. }
      clear Hempty. induction mac as [|c mac IH]; simpl in *; [constructor|].
      destruct (Mac.isDelimiter c) eqn:E; [|discriminate].
      constructor; [assumption|now apply IH].
    + intros Hall. induction mac as [|c mac IH]; simpl in *; [reflexivity|].
      inversion Hall as [|? ? Hc Hrest]; subst. rewrite Hc. now apply IH.
  - intros Hempty value time. unfold influxDevice. cbn [mac_address].
    unfold Influx.normalizeMacAddress, Mac.normalizeStrip.
    destruct (JS.truthy mac); [|reflexivity]. now rewrite Hempty.
Qed.

Lemma normalized_has_no_delimiters_witness :
  Forall settled (list_ascii_of_string "08f9e07364db")
  /\ ("08f9e07364db"%string = EmptyString
      <-> Forall (fun c => Mac.isDelimiter c = true)
            (list_ascii_of_string "08:F9:E0:73:64:DB")).
Proof.
  destruct (normalized_has_no_delimiters "08:F9:E0:73:64:DB" "08f9e07364db"
              eq_refl) as (H1 & H2 & _).
  split; assumption.
Defined.

(* ------------------------------------------------------------------ *)
(** * Devices outside the selection, and the display form of an address *)

Module SelectionFacts.

Lemma influx_not_selected m room d :
  Selection.influx m room d = false ->
  Influx.classify m room d <> ToConsumption.
Proof.
  unfold Selection.influx, Influx.classify, JS.get, JS.hasOwnProperty.
  destruct (Influx.normalizeMacAddress (Some SUPPLY_MAC_NORMALIZED));
    [|discriminate].
  destruct (String.eqb d s); [discriminate|].
  destruct (roomRequested room).
  - destruct (JS.getOwn m d) as [macRoom|].
    + intros ->. now rewrite andb_false_r.
    + now destruct (JS.inherited d).
  - now destruct (JS.getOwn m d).
Qed.

Lemma flat_not_selected m room d :
  Selection.flat m room d = false ->
  InfluxFlat.classify m room d <> ToConsumption.
Proof.
  unfold Selection.flat, InfluxFlat.classify, InfluxFlat.normalizedKey,
    classifyFlat, JS.hasOwnProperty.
  destruct (String.eqb (JS.toLowerCase d) SUPPLY_MAC_NORMALIZED);
    [discriminate|].
  destruct (roomRequested room).
  - destruct (JS.getOwn m (JS.toLowerCase d)) as [roomId|]; [|discriminate].
    now intros ->.
  - now destruct (JS.getOwn m (JS.toLowerCase d)).
Qed.

Lemma fst_credit_not_consumption t v acc :
  t <> ToConsumption -> fst (credit t v acc) = fst acc.
Proof. destruct t; [reflexivity|now intros []|reflexivity]. Qed.

(** Removing rows cannot introduce an inherited device name. *)
Lemma inheritedName_rowsWhere_false (deviceOf : Row -> option string)
  (keep : string -> bool) (orphans : bool) (data : list Row) :
  Spec.inheritedName deviceOf data = false ->
  Spec.inheritedName deviceOf (rowsWhere deviceOf keep orphans data) = false.
Proof.
  unfold Spec.inheritedName, rowsWhere.
  induction data as [|r data IH]; simpl; [reflexivity|].
  intros H. apply orb_false_iff in H as [Hr Hrest].
  destruct (deviceOf r) as [d|] eqn:Hd.
  - destruct (keep d); [|now apply IH].
    simpl. rewrite Hd, Hr. now apply IH.
  - destruct orphans; [|now apply IH].
    simpl. rewrite Hd. now apply IH.
Qed.

Section Programs.

Variable deviceOf : Row -> option string.
Variable classify : string -> target.
Variable keep : string -> bool.

Hypothesis not_selected : forall d, keep d = false -> classify d <> ToConsumption.

Lemma selected_only (calculate : list Row -> outcome Energy) :
  (forall data,
      calculate data
      = if Spec.inheritedName deviceOf data then Thrown TypeError
        else Returned (Spec.aggregate deviceOf classify data)) ->
  forall data,
    returning consumption (calculate data)
    = if Spec.inheritedName deviceOf data then Thrown TypeError
      else returning consumption
             (calculate (rowsWhere deviceOf keep false data)).
Proof.
  intros Hrefines data. rewrite !Hrefines.
  destruct (Spec.inheritedName deviceOf data) eqn:E; [reflexivity|].
  rewrite (inheritedName_rowsWhere_false _ _ _ _ E).
  unfold returning, Spec.aggregate, report. simpl. do 3 f_equal.
  apply (SupplyFacts.sums_rowsWhere deviceOf classify keep false fst).
  - intros d v acc Hk. apply fst_credit_not_consumption. now apply not_selected.
  - intros t v acc acc'. apply SupplyFacts.fst_credit_congr.
Qed.

End Programs.

Lemma elastic_selected buckets m room :
  fst (fold_left (Elastic.addBucket m room) buckets (0, 0))
  = fst (fold_left (Elastic.addBucket m room)
           (filter (fun b => Selection.flat m room (Elastic.key b)) buckets)
           (0, 0)).
Proof.
  apply SupplyFacts.fold_filter; [| |reflexivity].
  - intros b acc Hk. unfold Elastic.addBucket. cbv zeta.
    destruct (Elastic.bucketDelta b); [|reflexivity].
    apply fst_credit_not_consumption.
    exact (flat_not_selected m room _ Hk).
  - intros b acc acc' H. unfold Elastic.addBucket. cbv zeta.
    destruct (Elastic.bucketDelta b); [|assumption].
    now apply SupplyFacts.fst_credit_congr.
Qed.

(** ** The supply total and the room *)

Lemma snd_fold_credit (c c' : string -> target) (f : string -> Q) l :
  (forall d, c d = ToSupply <-> c' d = ToSupply) ->
  forall acc acc' : totals,
    snd acc = snd acc' ->
    snd (fold_left (fun acc d => credit (c d) (f d) acc) l acc)
    = snd (fold_left (fun acc d => credit (c' d) (f d) acc) l acc').
Proof.
  intros Hsame. induction l as [|d l IH]; intros acc acc' Hacc; simpl;
    [assumption|].
  apply IH. specialize (Hsame d).
  destruct (c d) eqn:E, (c' d) eqn:E'; simpl; try assumption;
    try (now rewrite Hacc);
    first [ now (assert (X : ToSupply = ToSupply) by reflexivity;
                 apply Hsame in X; discriminate X)
          | now (assert (X : ToSupply = ToSupply) by reflexivity;
                 apply (proj2 Hsame) in X; discriminate X) ].
Qed.

Lemma influx_supply_iff m room room' d :
  Influx.classify m room d = ToSupply <-> Influx.classify m room' d = ToSupply.
Proof.
  destruct (influxSupply d) eqn:E.
  - now rewrite !(SupplyFacts.influx_classify_supply _ _ _ E).
  - split; intros H; exfalso;
      eapply SupplyFacts.influx_classify_other; eassumption.
Qed.

Lemma flat_supply_iff m room room' d :
  InfluxFlat.classify m room d = ToSupply
  <-> InfluxFlat.classify m room' d = ToSupply.
Proof.
  destruct (flatSupply d) eqn:E.
  - now rewrite !(SupplyFacts.flat_classify_supply _ _ _ E).
  - split; intros H; exfalso;
      eapply SupplyFacts.flat_classify_other; eassumption.
Qed.

Lemma elastic_supply_room buckets m room room' :
  forall acc acc' : totals,
    snd acc = snd acc' ->
    snd (fold_left (Elastic.addBucket m room) buckets acc)
    = snd (fold_left (Elastic.addBucket m room') buckets acc').
Proof.
  induction buckets as [|b buckets IH]; intros acc acc' Hacc; simpl;
    [assumption|].
  apply IH. unfold Elastic.addBucket. cbv zeta.
  destruct (Elastic.bucketDelta b); [|assumption].
  change (classifyFlat m room (JS.toLowerCase (Elastic.key b)))
    with (InfluxFlat.classify m room (Elastic.key b)).
  change (classifyFlat m room' (JS.toLowerCase (Elastic.key b)))
    with (InfluxFlat.classify m room' (Elastic.key b)).
  destruct (flatSupply (Elastic.key b)) eqn:E.
  - rewrite !(SupplyFacts.flat_classify_supply _ _ _ E).
    now apply SupplyFacts.snd_credit_congr.
  - rewrite !SupplyFacts.snd_credit_not_supply;
      [assumption| |]; now apply SupplyFacts.flat_classify_other.
Qed.

(** ** Rows that differ in the display form only *)

Section Related.

Variable deviceOf : Row -> option string.
Variable classify : string -> target.

Lemma related_devices data data' :
  Forall2 (Selection.related deviceOf) data data' ->
  Spec.devices deviceOf data = Spec.devices deviceOf data'.
Proof.
  intros H. unfold Spec.devices. f_equal.
  induction H as [|r r' l l' (Hd & _) _ IH]; simpl; [reflexivity|].
  now rewrite Hd, IH.
Qed.

Lemma related_readingsOf d data data' :
  Forall2 (Selection.related deviceOf) data data' ->
  Forall2 (Selection.related deviceOf) (Spec.readingsOf deviceOf d data)
    (Spec.readingsOf deviceOf d data').
Proof.
  intros H. unfold Spec.readingsOf, Spec.belongsTo.
  induction H as [|r r' l l' Hr _ IH]; simpl; [constructor|].
  pose proof Hr as (Hd & _). rewrite <- Hd.
  destruct (deviceOf r) as [d0|]; [|assumption].
  destruct (String.eqb d0 d); [|assumption].
  now constructor.
Qed.

Lemma related_earliest l l' :
  Forall2 (Selection.related deviceOf) l l' ->
  match Spec.earliest l, Spec.earliest l' with
  | Some e, Some e' => Selection.related deviceOf e e'
  | None, None => True
  | _, _ => False
  end.
Proof.
  intros H. induction H as [|r r' l l' Hr _ IH]; simpl; [exact I|].
  destruct (Spec.earliest l) as [e|], (Spec.earliest l') as [e'|];
    try contradiction; [|assumption].
  pose proof Hr as (_ & _ & Ht). pose proof IH as (_ & _ & Ht').
  rewrite <- Ht, <- Ht'.
  now destruct (_time r <=? _time e)%Z.
Qed.

Lemma related_latest l l' :
  Forall2 (Selection.related deviceOf) l l' ->
  match Spec.latest l, Spec.latest l' with
  | Some e, Some e' => Selection.related deviceOf e e'
  | None, None => True
  | _, _ => False
  end.
Proof.
  intros H. induction H as [|r r' l l' Hr _ IH]; simpl; [exact I|].
  destruct (Spec.latest l) as [e|], (Spec.latest l') as [e'|];
    try contradiction; [|assumption].
  pose proof Hr as (_ & _ & Ht). pose proof IH as (_ & _ & Ht').
  rewrite <- Ht, <- Ht'.
  now destruct (_time e <? _time r)%Z.
Qed.

Lemma related_delta l l' :
  Forall2 (Selection.related deviceOf) l l' -> Spec.delta l = Spec.delta l'.
Proof.
  intros H. unfold Spec.delta.
  rewrite <- (Forall2_length H).
  destruct (List.length l <? 2)%nat; [reflexivity|].
  pose proof (related_earliest _ _ H) as He.
  pose proof (related_latest _ _ H) as Hl.
  destruct (Spec.earliest l) as [e|], (Spec.earliest l') as [e'|];
    try contradiction; [|reflexivity].
  destruct (Spec.latest l) as [x|], (Spec.latest l') as [x'|];
    try contradiction; [|reflexivity].
  destruct He as (_ & Hv & _), Hl as (_ & Hv' & _). now rewrite Hv, Hv'.
Qed.

Lemma related_inheritedName data data' :
  Forall2 (Selection.related deviceOf) data data' ->
  Spec.inheritedName deviceOf data = Spec.inheritedName deviceOf data'.
Proof.
  intros H. unfold Spec.inheritedName.
  induction H as [|r r' l l' (Hd & _) _ IH]; simpl; [reflexivity|].
  now rewrite Hd, IH.
Qed.

Lemma related_aggregate data data' :
  Forall2 (Selection.related deviceOf) data data' ->
  Spec.aggregate deviceOf classify data = Spec.aggregate deviceOf classify data'.
Proof.
  intros H. unfold Spec.aggregate, Spec.sums.
  rewrite <- (related_devices _ _ H).
  rewrite (OrderFacts.fold_credit_ext classify
             (fun d => Spec.delta (Spec.readingsOf deviceOf d data))
             (fun d => Spec.delta (Spec.readingsOf deviceOf d data'))).
  - reflexivity.
  - intros d _. apply related_delta. now apply related_readingsOf.
Qed.

End Related.

Lemma sameReading_related data data' :
  Forall2 Selection.sameReading data data' ->
  Forall2 (Selection.related influxDevice) data data'.
Proof.
  intros H. induction H as [|r r' l l' (Hm & Hv & Ht) _ IH]; constructor;
    [|assumption].
  unfold Selection.related, influxDevice. now rewrite Hm.
Qed.

End SelectionFacts.

(** X10.  The consumption a bucket reports counts only the devices that the
    mapping selects: with a room requested, those mapped to that room;
    otherwise those that are mapped at all.  In each program the rows (or
    Elasticsearch buckets) of every other device, and the rows without a
    device, can be removed without changing the reported consumption. *)
Theorem consumption_counts_selected_devices
  (data : list Row) (mappingData : Influx.MappingData)
  (macToRoomMap : JS.jsobj scalar) (buckets : list Elastic.MacBucket)
  (room : option string) :
  (* part_000 *)
  returning consumption
    (Influx.calculateEnergyFromInfluxData data mappingData room)
  = (if Spec.inheritedName influxDevice data then Thrown TypeError
     else returning consumption
            (Influx.calculateEnergyFromInfluxData
               (rowsWhere influxDevice
                  (Selection.influx (Influx.macToRoomMap mappingData) room)
                  false data)
               mappingData room))
  (* part_001, InfluxDB *)
  /\ returning consumption
       (InfluxFlat.calculateEnergyFromInfluxData data macToRoomMap room)
     = (if Spec.inheritedName flatDevice data then Thrown TypeError
        else returning consumption
               (InfluxFlat.calculateEnergyFromInfluxData
                  (rowsWhere flatDevice (Selection.flat macToRoomMap room)
                     false data)
                  macToRoomMap room))
  (* part_001, Elasticsearch *)
  /\ consumption (Elastic.calculateEnergyFromBuckets buckets macToRoomMap room)
     = consumption
         (Elastic.calculateEnergyFromBuckets
            (filter (fun b => Selection.flat macToRoomMap room (Elastic.key b))
               buckets)
            macToRoomMap room).
Proof.
  split; [|split].
  - apply (SelectionFacts.selected_only influxDevice
             (Influx.classify (Influx.macToRoomMap mappingData) room)
             (Selection.influx (Influx.macToRoomMap mappingData) room))
      with (calculate :=
              fun d => Influx.calculateEnergyFromInfluxData d mappingData room).
    + intros d. apply SelectionFacts.influx_not_selected.
    + intros data0. apply Refinement.influx_refines.
  - apply (SelectionFacts.selected_only flatDevice
             (InfluxFlat.classify macToRoomMap room)
             (Selection.flat macToRoomMap room))
      with (calculate :=
              fun d => InfluxFlat.calculateEnergyFromInfluxData d macToRoomMap room).
    + intros d. apply SelectionFacts.flat_not_selected.
    + intros data0. apply Refinement.flat_refines.
  - rewrite !ClaimLemmas.elastic_unfold. unfold report. simpl.
    now rewrite <- SelectionFacts.elastic_selected.
Qed.

(** X11.  On the same rows (or buckets) the supply a bucket reports does
    not depend on the requested room: the three aggregators give the same
    supply for any two values of [room]. *)
Theorem supply_ignores_the_room
  (data : list Row) (mappingData : Influx.MappingData)
  (macToRoomMap : JS.jsobj scalar) (buckets : list Elastic.MacBucket)
  (room room' : option string) :
  returning supply
    (Influx.calculateEnergyFromInfluxData data mappingData room)
  = returning supply
      (Influx.calculateEnergyFromInfluxData data mappingData room')
  /\ returning supply
       (InfluxFlat.calculateEnergyFromInfluxData data macToRoomMap room)
     = returning supply
         (InfluxFlat.calculateEnergyFromInfluxData data macToRoomMap room')
  /\ supply (Elastic.calculateEnergyFromBuckets buckets macToRoomMap room)
     = supply (Elastic.calculateEnergyFromBuckets buckets macToRoomMap room').
Proof.
  rewrite !Refinement.influx_refines, !Refinement.flat_refines.
  split; [|split].
  - destruct (Spec.inheritedName influxDevice data); [reflexivity|].
    unfold returning, Spec.aggregate, report, Spec.sums. simpl. do 3 f_equal.
    apply SelectionFacts.snd_fold_credit; [|reflexivity].
    intros d. apply SelectionFacts.influx_supply_iff.
  - destruct (Spec.inheritedName flatDevice data); [reflexivity|].
    unfold returning, Spec.aggregate, report, Spec.sums. simpl. do 3 f_equal.
    apply SelectionFacts.snd_fold_credit; [|reflexivity].
    intros d. apply SelectionFacts.flat_supply_iff.
  - rewrite !ClaimLemmas.elastic_unfold. unfold report. simpl. do 2 f_equal.
    now apply SelectionFacts.elastic_supply_room.
Qed.

(** X12.  The Elasticsearch aggregator adds the deltas in the order of the
    response.  A permutation of the buckets credits the same deltas to
    each total, in another order, and the energy is the same when each
    total is credited in the same order; the binary64 sums can differ
    otherwise: buckets that gain 0.1, 0.2 and 0.5125 kWh are reported as
    0.813 in one order and as 0.812 in the opposite order. *)
Theorem bucket_order_reorders_the_additions
  (N : Numbers.arithmetic) (buckets buckets' : list Elastic.MacBucket)
  (macToRoomMap : JS.jsobj scalar) (room : option string) :
  Permutation buckets buckets' ->
  (forall t,
     Permutation (Generic.creditedBuckets N macToRoomMap room t buckets)
       (Generic.creditedBuckets N macToRoomMap room t buckets'))
  /\ (forall l,
        Generic.calculateEnergyFromBuckets N l macToRoomMap room
        = Generic.report N
            (Generic.total N
               (Generic.creditedBuckets N macToRoomMap room ToConsumption l))
            (Generic.total N
               (Generic.creditedBuckets N macToRoomMap room ToSupply l)))
  /\ ((forall t,
         Generic.creditedBuckets N macToRoomMap room t buckets
         = Generic.creditedBuckets N macToRoomMap room t buckets') ->
      Generic.calculateEnergyFromBuckets N buckets macToRoomMap room
      = Generic.calculateEnergyFromBuckets N buckets' macToRoomMap room)
  /\ Generic.consumption
       (Doubles.calculateEnergyFromBuckets Doubles.gainBuckets
          Doubles.threeMetersFlat None)
     = Binary64.ofQ (813 # 1000)
  /\ Generic.consumption
       (Doubles.calculateEnergyFromBuckets (rev Doubles.gainBuckets)
          Doubles.threeMetersFlat None)
     = Binary64.ofQ (812 # 1000).
Proof.
  intros Hperm. split; [|split; [|split]].
  - intros t. unfold Generic.creditedBuckets.
    now apply Permutation_flat_map.
  - intros l. apply GenericFacts.buckets_decomposed.
  - intros Hsame. rewrite !GenericFacts.buckets_decomposed.
    now rewrite !Hsame.
  - split; vm_compute; reflexivity.
Qed.

Lemma bucket_order_reorders_the_additions_witness :
  Permutation
    (Generic.creditedBuckets Binary64.arithmetic Doubles.threeMetersFlat None
       ToConsumption Doubles.gainBuckets)
    (Generic.creditedBuckets Binary64.arithmetic Doubles.threeMetersFlat None
       ToConsumption (rev Doubles.gainBuckets)).
Proof.
  exact (proj1
           (bucket_order_reorders_the_additions Binary64.arithmetic
              Doubles.gainBuckets (rev Doubles.gainBuckets)
              Doubles.threeMetersFlat None
              (Permutation_rev Doubles.gainBuckets))
           ToConsumption).
Defined.

(** X13.  The part_000 aggregator reads the address of a row through its
    normalization only: two row lists that agree, position by position, on
    the normalized address, the value and the timestamp give the same
    outcome, whatever the display forms of the addresses.  The part_001
    aggregator groups by the address as stored, and the same holds for it
    only for rows that agree on the stored address. *)
Theorem display_form_is_irrelevant
  (data data' : list Row) (mappingData : Influx.MappingData)
  (macToRoomMap : JS.jsobj scalar) (room : option string) :
  Forall2 Selection.sameReading data data' ->
  Influx.calculateEnergyFromInfluxData data mappingData room
  = Influx.calculateEnergyFromInfluxData data' mappingData room
  /\ (Forall2 (Selection.related flatDevice) data data' ->
      InfluxFlat.calculateEnergyFromInfluxData data macToRoomMap room
      = InfluxFlat.calculateEnergyFromInfluxData data' macToRoomMap room).
Proof.
  intros Hsame.
  rewrite !Refinement.influx_refines, !Refinement.flat_refines.
  apply SelectionFacts.sameReading_related in Hsame.
  split.
  - rewrite (SelectionFacts.related_inheritedName _ _ _ Hsame).
    now rewrite (SelectionFacts.related_aggregate influxDevice _ _ _ Hsame).
  - intros Hflat.
    rewrite (SelectionFacts.related_inheritedName _ _ _ Hflat).
    now rewrite (SelectionFacts.related_aggregate flatDevice _ _ _ Hflat).
Qed.

Lemma display_form_is_irrelevant_witness :
  Influx.calculateEnergyFromInfluxData AggExamples.scenario
    AggExamples.mapping None
  = Influx.calculateEnergyFromInfluxData Selection.restyled
      AggExamples.mapping None.
Proof.
  apply (display_form_is_irrelevant AggExamples.scenario Selection.restyled
           AggExamples.mapping AggExamples.flatMapping None).
  repeat (constructor;
          [split; [vm_compute; reflexivity|split; reflexivity]|]).
  constructor.
Defined.

Example stored_form_matters_in_the_flat_program :
  InfluxFlat.calculateEnergyFromInfluxData AggExamples.scenario
    AggExamples.flatMapping None
  = Returned {| consumption := 2500 # 1000; supply := 8000 # 1000 |}
  /\ InfluxFlat.calculateEnergyFromInfluxData Selection.restyled
       AggExamples.flatMapping None
     = Returned noEnergy.
Proof. split; vm_compute; reflexivity. Qed.

(* ------------------------------------------------------------------ *)
(** * Reading the buckets of a view *)

Module ReadFacts.

Import Periods.

Lemma collect_more (fuel : nat) :
  forall fuel' config current acc periods,
    collect fuel config current acc = Some periods ->
    (fuel <= fuel')%nat ->
    collect fuel' config current acc = Some periods.
Proof.
  induction fuel as [|fuel IH]; intros fuel' config current acc periods H Hle;
    [discriminate|].
  destruct fuel' as [|fuel']; [lia|].
  cbn [collect] in *.
  destruct (Dayjs.isBefore current (end_ config)
            || Dayjs.isSame current (end_ config) (unit config));
    [|assumption].
  apply (IH fuel'); [assumption|lia].
Qed.

Lemma getTimePeriods_more {R : Type} (fuel fuel' : nat) (period : string)
  (dateRange : R) (D : Dayjs.isoDate) (periods : list Period) :
  getTimePeriods fuel period dateRange D = Some (Returned periods) ->
  (fuel <= fuel')%nat ->
  getTimePeriods fuel' period dateRange D = Some (Returned periods).
Proof.
  unfold getTimePeriods. intros H Hle.
  destruct (JS.get (configs (Dayjs.tz D)) period) as [config| |];
    [|assumption|assumption].
  destruct (collect fuel config (start config) []) as [ps|] eqn:E;
    [|discriminate].
  now rewrite (collect_more _ _ _ _ _ _ E Hle).
Qed.

Ltac generated H :=
  match type of H with
  | Some (Returned ?l) = Some (Returned ?periods) =>
      assert (E : periods = l) by congruence; rewrite E;
      rewrite CoverageFacts.periods_of_buckets by reflexivity;
      apply SpanFacts.upFrom_ascending
  end.

(** The sort keys of the buckets of a view are ascending. *)
Lemma keys_ascending {R : Type} (fuel : nat) (period : string) (dateRange : R)
  (D : Dayjs.isoDate) (periods : list Period) :
  Dayjs.wellFormed D ->
  Request.validPeriod period = true ->
  getTimePeriods fuel period dateRange D = Some (Returned periods) ->
  Views.ascending (map Periods.period periods).
Proof.
  intros D_ok Hvalid Hrun.
  set (enough := (fuel + 32 + S (Spans.yearsShown D))%nat).
  apply (getTimePeriods_more fuel enough) in Hrun; [|unfold enough; lia].
  destruct (SpanClaims.valid_period_cases period Hvalid)
    as [->|[->|[->| ->]]].
  - rewrite (LoopFacts.getTimePeriods_hour D D_ok) in Hrun
      by (unfold enough; lia).
    generated Hrun.
  - rewrite (LoopFacts.getTimePeriods_day D D_ok) in Hrun
      by (unfold enough; lia).
    generated Hrun.
  - rewrite SpanFacts.getTimePeriods_month in Hrun by (unfold enough; lia).
    generated Hrun.
  - rewrite SpanFacts.getTimePeriods_year in Hrun by (unfold enough; lia).
    generated Hrun.
Qed.

(** Sorting a report whose keys are ascending leaves it as it is. *)
Lemma sortByPeriod_ascending (l : list Report.Entry) :
  Views.ascending (map Report.period l) -> Report.sortByPeriod l = l.
Proof.
  induction l as [|x l IH]; intros H; [reflexivity|].
  inversion H as [|? ? Hrest Hall]; subst.
  cbn [Report.sortByPeriod fold_right].
  fold (Report.sortByPeriod l). rewrite (IH Hrest).
  destruct l as [|y l']; [reflexivity|].
  cbn [Report.insertByPeriod].
  inversion Hall as [|? ? Hxy _]; subst.
  now apply Z.leb_le in Hxy as ->.
Qed.

Section Read.

Variable compute : Period -> outcome Energy.

Lemma readPeriods_loop (periods : list Period) :
  readPeriods compute periods
  = JS.bind (forEach (readStep compute) periods [])
      (fun results => Returned (Report.sortByPeriod results)).
Proof. reflexivity. Qed.

Lemma read_all (energyAt : Period -> Energy) (periods : list Period) :
  (forall p, In p periods -> compute p = Returned (energyAt p)) ->
  forall acc,
    forEach (readStep compute) periods acc
    = Returned (acc ++ map (fun p => Report.entry p (energyAt p)) periods).
Proof.
  induction periods as [|p periods IH]; intros Hall acc; simpl.
  - now rewrite app_nil_r.
  - unfold readStep at 1. rewrite (Hall p) by now left. cbn [JS.bind].
    rewrite IH by (intros; apply Hall; now right).
    now rewrite <- app_assoc.
Qed.

Lemma read_failure (periods : list Period) (p : Period) (e : JS.error) :
  In p periods -> compute p = Thrown e ->
  forall acc, exists e', forEach (readStep compute) periods acc = Thrown e'.
Proof.
  induction periods as [|q periods IH]; intros Hin Hp acc; [now destruct Hin|].
  simpl. unfold readStep at 1.
  destruct (compute q) as [x|e0] eqn:Hq; cbn [JS.bind]; [|now exists e0].
  destruct Hin as [->|Hin]; [congruence|].
  now apply IH.
Qed.

Lemma readPeriods_all (energyAt : Period -> Energy) (periods : list Period) :
  Views.ascending (map Periods.period periods) ->
  (forall p, In p periods -> compute p = Returned (energyAt p)) ->
  readPeriods compute periods
  = Returned (map (fun p => Report.entry p (energyAt p)) periods).
Proof.
  intros Hkeys Hall.
  rewrite readPeriods_loop, (read_all energyAt periods Hall []).
  cbn [JS.bind app].
  rewrite sortByPeriod_ascending; [reflexivity|].
  now rewrite map_map.
Qed.

Lemma readPeriods_failure (periods : list Period) (p : Period) (e : JS.error) :
  In p periods -> compute p = Thrown e ->
  exists e', readPeriods compute periods = Thrown e'.
Proof.
  intros Hin Hp. rewrite readPeriods_loop.
  destruct (read_failure periods p e Hin Hp []) as [e' ->].
  now exists e'.
Qed.

End Read.

Lemma cachedMapping_returns {M : Type} (empty : M)
  (build : list MeterRow -> outcome M) (now : Z)
  (query : outcome (list MeterRow)) (cache : Cache M) :
  exists m cache',
    cachedMapping empty build now query cache = (Returned m, cache').
Proof.
  unfold cachedMapping.
  destruct (cacheHit now cache); [now do 2 eexists|].
  destruct (JS.bind query build); now do 2 eexists.
Qed.

(** With enough iterations the view of a well-formed date is generated. *)
Lemma view_exists (fuel : nat) (period : string) (D : Dayjs.isoDate) :
  Dayjs.wellFormed D ->
  Request.validPeriod period = true ->
  (32 <= fuel)%nat ->
  (Spans.yearsShown D < fuel)%nat ->
  exists periods : list Periods.Period,
    getTimePeriods fuel period (buildDateRangeQuery period D) D
    = Some (Returned periods).
Proof.
  intros D_ok Hvalid Hfuel Hyears.
  destruct (SpanClaims.valid_period_cases period Hvalid)
    as [->|[->|[->| ->]]]; eexists.
  - apply (LoopFacts.getTimePeriods_hour D D_ok). lia.
  - apply (LoopFacts.getTimePeriods_day D D_ok). lia.
  - apply SpanFacts.getTimePeriods_month. lia.
  - now apply SpanFacts.getTimePeriods_year.
Qed.

End ReadFacts.

(** X14.  For a well-formed date, a valid granularity and enough loop
    iterations for the view, [getTimePeriods] generates the buckets of the
    view and, when the storage answers the query of every bucket (and, in
    the InfluxDB programs, no row carries a device name inherited from
    [Object.prototype]), [getEnergyReadings] returns one entry per bucket,
    in bucket order: the final sort by key changes nothing.  Each entry
    carries the label, the key and the bounds of its bucket and the energy
    aggregated from what the storage returned for exactly those bounds and
    the MAC filter, or zero energy when it returned nothing. *)
Theorem readings_follow_the_buckets
  (period : string) (D : Dayjs.isoDate) (fuel : nat)
  (macFilter : list string) (room : option string)
  (collectRows : Influx.Storage) (search : Elastic.Storage)
  (mappingData : Influx.MappingData) (macToRoomMap : JS.jsobj scalar)
  (rowsAt : Periods.Period -> list Row)
  (bucketsAt : Periods.Period -> option (list Elastic.MacBucket)) :
  Dayjs.wellFormed D ->
  Request.validPeriod period = true ->
  (32 <= fuel)%nat ->
  (Spans.yearsShown D < fuel)%nat ->
  exists periods : list Periods.Period,
  Periods.getTimePeriods fuel period (Periods.buildDateRangeQuery period D) D
  = Some (Returned periods)
  /\
  (* part_000 *)
  ((forall p, In p periods ->
      collectRows (Periods.utcStart p) (Periods.utcEnd p) macFilter
      = Returned (rowsAt p)
      /\ Spec.inheritedName influxDevice (rowsAt p) = false) ->
   Influx.getEnergyReadings fuel collectRows period
     (Periods.buildDateRangeQuery period D) macFilter D mappingData room
   = Some (Returned
             (map (fun p =>
                     Report.entry p
                       match rowsAt p with
                       | [] => noEnergy
                       | _ :: _ =>
                           Spec.aggregate influxDevice
                             (Influx.classify
                                (Influx.macToRoomMap mappingData) room)
                             (rowsAt p)
                       end) periods)))
  (* part_001, InfluxDB *)
  /\ ((forall p, In p periods ->
         collectRows (Periods.utcStart p) (Periods.utcEnd p) macFilter
         = Returned (rowsAt p)
         /\ Spec.inheritedName flatDevice (rowsAt p) = false) ->
      InfluxFlat.getEnergyReadings fuel collectRows period
        (Periods.buildDateRangeQuery period D) macFilter D macToRoomMap room
      = Some (Returned
                (map (fun p =>
                        Report.entry p
                          match rowsAt p with
                          | [] => noEnergy
                          | _ :: _ =>
                              Spec.aggregate flatDevice
                                (InfluxFlat.classify macToRoomMap room)
                                (rowsAt p)
                          end) periods)))
  (* part_001, Elasticsearch *)
  /\ ((forall p, In p periods ->
         search (Periods.utcStart p) (Periods.utcEnd p) macFilter
         = Returned (bucketsAt p)) ->
      Elastic.getEnergyReadings fuel search period
        (Periods.buildDateRangeQuery period D) macFilter D macToRoomMap room
      = Some (Returned
                (map (fun p =>
                        Report.entry p
                          match bucketsAt p with
                          | Some (b :: bs) =>
                              Elastic.calculateEnergyFromBuckets (b :: bs)
                                macToRoomMap room
                          | _ => noEnergy
                          end) periods))).
Proof.
  intros D_ok Hvalid Hfuel Hyears.
  destruct (ReadFacts.view_exists fuel period D D_ok Hvalid Hfuel Hyears)
    as [periods Hrun].
  exists periods. split; [exact Hrun|].
  pose proof (ReadFacts.keys_ascending _ _ _ _ _ D_ok Hvalid Hrun) as Hkeys.
  unfold Influx.getEnergyReadings, InfluxFlat.getEnergyReadings,
    Elastic.getEnergyReadings.
  rewrite Hrun. cbn [option_map JS.bind].
  split; [|split]; intros Hall; f_equal;
    apply ReadFacts.readPeriods_all; try assumption; intros p Hp.
  - destruct (Hall p Hp) as [-> Hplain]. cbn [JS.bind].
    destruct (rowsAt p) as [|r rs]; [reflexivity|]. cbn [List.length Nat.ltb Nat.leb].
    now rewrite Refinement.influx_refines, Hplain.
  - destruct (Hall p Hp) as [-> Hplain]. cbn [JS.bind].
    destruct (rowsAt p) as [|r rs]; [reflexivity|]. cbn [List.length Nat.ltb Nat.leb].
    now rewrite Refinement.flat_refines, Hplain.
  - rewrite (Hall p Hp). cbn [JS.bind].
    now destruct (bucketsAt p) as [[|b bs]|].
Qed.

Lemma readings_follow_the_buckets_witness :
  exists periods : list Periods.Period,
    Periods.getTimePeriods 32 "hour"
      (Periods.buildDateRangeQuery "hour" someDate) someDate
    = Some (Returned periods)
    /\ Influx.getEnergyReadings 32 RoomExamples.noRows "hour"
         (Periods.buildDateRangeQuery "hour" someDate) [] someDate
         Meters.sampleTables None
       = Some (Returned (map (fun p => Report.entry p noEnergy) periods)).
Proof.
  assert (Hdate : Dayjs.wellFormed someDate)
    by (vm_compute; intuition discriminate).
  assert (Hyears : (Spans.yearsShown someDate < 32)%nat)
    by (vm_compute; lia).
  destruct
    (readings_follow_the_buckets "hour" someDate 32 [] None
       RoomExamples.noRows RoomExamples.noBuckets Meters.sampleTables
       Meters.sampleFlat (fun _ => []) (fun _ => None) Hdate eq_refl
       (le_n 32) Hyears)
    as (periods & Hrun & Hinflux & _).
  exists periods. split; [exact Hrun|].
  exact (Hinflux (fun p _ => conj eq_refl eq_refl)).
Defined.

(** X15.  No partial report: for a well-formed date, a valid granularity
    and enough loop iterations for the view, the buckets of the view are
    generated and, when the room block of the handler has produced a MAC
    filter and the storage fails on the query of any one of these buckets,
    [getEnergyReadings] throws and the handler answers 500 "API request
    failed", in each of the three programs; the mapping cache keeps what
    the mapping lookup left in it. *)
Theorem failing_bucket_fails_the_request
  (period : string) (room : option string) (D today : Dayjs.isoDate)
  (fuel : nat) (now : Z) (meters : outcome (list MeterRow))
  (collectRows : Influx.Storage) (search : Elastic.Storage)
  (cache cache' : Cache Influx.MappingData) (mappingData : Influx.MappingData)
  (flatCache flatCache' : Cache (JS.jsobj scalar))
  (macToRoomMap : JS.jsobj scalar) (macFilter flatFilter : list string) :
  Dayjs.wellFormed D ->
  Request.validPeriod period = true ->
  (32 <= fuel)%nat ->
  (Spans.yearsShown D < fuel)%nat ->
  let request :=
    Request.mk (Some period) room (Some (Request.Wellformed D)) in
  exists periods : list Periods.Period,
  Periods.getTimePeriods fuel period (Periods.buildDateRangeQuery period D) D
  = Some (Returned periods)
  /\
  forall (p : Periods.Period) (e : JS.error),
  In p periods ->
  (* part_000 *)
  (Influx.getMetersMapping now meters cache = (Returned mappingData, cache') ->
   Influx.roomFilter period room D mappingData = Returned (inl macFilter) ->
   collectRows (Periods.utcStart p) (Periods.utcEnd p) macFilter = Thrown e ->
   exists e',
     Influx.getEnergyReadings fuel collectRows period
       (Periods.buildDateRangeQuery period D) macFilter D mappingData room
     = Some (Thrown e')
     /\ Influx.handleData fuel now today meters collectRows cache request
        = Some (Report.mkResponse 500
                  (Report.Failure "API request failed" (Some e')), cache'))
  (* part_001, both programs *)
  /\ (getMetersMappingFlat now meters flatCache
      = (Returned macToRoomMap, flatCache') ->
      roomFilterFlat macToRoomMap room = inl flatFilter ->
      (collectRows (Periods.utcStart p) (Periods.utcEnd p) flatFilter
       = Thrown e ->
       exists e',
         InfluxFlat.handleData fuel now today meters collectRows flatCache
           request
         = Some (Report.mkResponse 500
                   (Report.Failure "API request failed" (Some e')),
                 flatCache'))
      /\ (search (Periods.utcStart p) (Periods.utcEnd p) flatFilter
          = Thrown e ->
          exists e',
            Elastic.handleData fuel now today meters search flatCache request
            = Some (Report.mkResponse 500
                      (Report.Failure "API request failed" (Some e')),
                    flatCache'))).
Proof.
  intros D_ok Hvalid Hfuel Hyears request.
  destruct (ReadFacts.view_exists fuel period D D_ok Hvalid Hfuel Hyears)
    as [periods Hrun].
  exists periods. split; [exact Hrun|]. intros p e Hin.
  assert (Hfail : forall compute,
            compute p = Thrown e ->
            exists e', readPeriods compute periods = Thrown e').
  { intros compute Hp.
    exact (ReadFacts.readPeriods_failure compute periods p e Hin Hp). }
  unfold Influx.handleData, InfluxFlat.handleData, Elastic.handleData,
    handleDataFlat, request.
  cbn [Request.period Request.room Request.date].
  rewrite Hvalid. cbn [negb].
  unfold Influx.getEnergyReadings, InfluxFlat.getEnergyReadings,
    Elastic.getEnergyReadings.
  rewrite Hrun. cbn [option_map JS.bind].
  split.
  - intros Hload Hfilter Hq. rewrite Hload, Hfilter.
    match goal with
    | |- context [readPeriods ?c periods] =>
        destruct (Hfail c) as [e' ->]; [now rewrite Hq|]
    end.
    now exists e'.
  - intros Hload Hfilter. rewrite Hload, Hfilter. split; intros Hq.
    + match goal with
      | |- context [readPeriods ?c periods] =>
          destruct (Hfail c) as [e' ->]; [now rewrite Hq|]
      end.
      now exists e'.
    + match goal with
      | |- context [readPeriods ?c periods] =>
          destruct (Hfail c) as [e' ->]; [now rewrite Hq|]
      end.
      now exists e'.
Qed.

Lemma failing_bucket_fails_the_request_witness :
  exists e',
    Influx.getEnergyReadings 32 Views.failsAtThree "hour"
      (Periods.buildDateRangeQuery "hour" someDate) [] someDate
      Meters.sampleTables None
    = Some (Thrown e')
    /\ Influx.handleData 32 0 someDate (Returned Meters.sample)
         Views.failsAtThree emptyCache Views.allRooms
       = Some (Report.mkResponse 500
                 (Report.Failure "API request failed" (Some e')),
               mkCache (Some Meters.sampleTables) (Some 0%Z)).
Proof.
  assert (Hdate : Dayjs.wellFormed someDate)
    by (vm_compute; intuition discriminate).
  assert (Hyears : (Spans.yearsShown someDate < 32)%nat)
    by (vm_compute; lia).
  destruct
    (failing_bucket_fails_the_request "hour" None someDate someDate 32 0
       (Returned Meters.sample) Views.failsAtThree RoomExamples.noBuckets
       emptyCache (mkCache (Some Meters.sampleTables) (Some 0%Z))
       Meters.sampleTables emptyCache emptyCache [] [] [] Hdate eq_refl
       (le_n 32) Hyears)
    as (periods & Hrun & Hfails).
  assert (E : periods = Views.hoursOfSomeDate)
    by (vm_compute in Hrun; vm_compute; congruence).
  subst periods.
  exact
    (proj1
       (Hfails
          (Periods.bucket (Coverage.hourConfig someDate)
             (Coverage.atHour someDate 3))
          StorageError
          (or_intror (or_intror (or_intror (or_introl eq_refl)))))
       eq_refl eq_refl eq_refl).
Defined.

(** X16.  The empty store: for a well-formed date, a valid granularity and
    enough loop iterations for the view, the buckets of the view are
    generated and, when the room block has produced a MAC filter and the
    storage returns nothing for every one of these buckets, the handler
    answers 200 with one all-zero entry per bucket, in bucket order, and
    [meta.totalRecords] is the number of buckets; part_000 adds the known
    rooms and the size of the mapping. *)
Theorem empty_store_reports_zero
  (period : string) (room : option string) (D today : Dayjs.isoDate)
  (fuel : nat) (now : Z) (meters : outcome (list MeterRow))
  (collectRows : Influx.Storage) (search : Elastic.Storage)
  (cache cache' : Cache Influx.MappingData) (mappingData : Influx.MappingData)
  (flatCache flatCache' : Cache (JS.jsobj scalar))
  (macToRoomMap : JS.jsobj scalar) (macFilter flatFilter : list string) :
  Dayjs.wellFormed D ->
  Request.validPeriod period = true ->
  (32 <= fuel)%nat ->
  (Spans.yearsShown D < fuel)%nat ->
  let request :=
    Request.mk (Some period) room (Some (Request.Wellformed D)) in
  exists periods : list Periods.Period,
  Periods.getTimePeriods fuel period (Periods.buildDateRangeQuery period D) D
  = Some (Returned periods)
  /\
  let zeros := map (fun p => Report.entry p noEnergy) periods in
  (* part_000 *)
  (Influx.getMetersMapping now meters cache = (Returned mappingData, cache') ->
   Influx.roomFilter period room D mappingData = Returned (inl macFilter) ->
   (forall p, In p periods ->
      collectRows (Periods.utcStart p) (Periods.utcEnd p) macFilter
      = Returned []) ->
   Influx.handleData fuel now today meters collectRows cache request
   = Some
       (Report.mkResponse 200
          (Report.Data zeros None
             (Some {| Report.metaPeriod := period;
                      Report.metaRoom := room;
                      Report.metaDate := D;
                      Report.metaTimezone := TIMEZONE;
                      Report.totalRecords := List.length periods;
                      Report.availableRooms :=
                        Some (JS.keys (Influx.roomToMacsMap mappingData));
                      Report.macMappingCount :=
                        Some (List.length
                                (JS.keys (Influx.macToRoomMap mappingData)))
                   |})),
        cache'))
  (* part_001, both programs *)
  /\ (getMetersMappingFlat now meters flatCache
      = (Returned macToRoomMap, flatCache') ->
      roomFilterFlat macToRoomMap room = inl flatFilter ->
      let flatReport :=
        Report.mkResponse 200
          (Report.Data zeros None
             (Some {| Report.metaPeriod := period;
                      Report.metaRoom := room;
                      Report.metaDate := D;
                      Report.metaTimezone := TIMEZONE;
                      Report.totalRecords := List.length periods;
                      Report.availableRooms := None;
                      Report.macMappingCount := None |})) in
      ((forall p, In p periods ->
          collectRows (Periods.utcStart p) (Periods.utcEnd p) flatFilter
          = Returned []) ->
       InfluxFlat.handleData fuel now today meters collectRows flatCache
         request
       = Some (flatReport, flatCache'))
      /\ ((forall p, In p periods ->
             search (Periods.utcStart p) (Periods.utcEnd p) flatFilter
             = Returned None
             \/ search (Periods.utcStart p) (Periods.utcEnd p) flatFilter
                = Returned (Some [])) ->
          Elastic.handleData fuel now today meters search flatCache request
          = Some (flatReport, flatCache'))).
Proof.
  intros D_ok Hvalid Hfuel Hyears request.
  destruct (ReadFacts.view_exists fuel period D D_ok Hvalid Hfuel Hyears)
    as [periods Hrun].
  exists periods. split; [exact Hrun|]. intros zeros.
  pose proof (ReadFacts.keys_ascending _ _ _ _ _ D_ok Hvalid Hrun) as Hkeys.
  assert (Hzero : forall compute,
            (forall p, In p periods -> compute p = Returned noEnergy) ->
            readPeriods compute periods = Returned zeros).
  { intros compute Hall.
    exact (ReadFacts.readPeriods_all compute (fun _ => noEnergy) periods
             Hkeys Hall). }
  assert (Hcount : List.length zeros = List.length periods)
    by apply length_map.
  unfold Influx.handleData, InfluxFlat.handleData, Elastic.handleData,
    handleDataFlat, reportFlat, request.
  cbn [Request.period Request.room Request.date].
  rewrite Hvalid. cbn [negb].
  unfold Influx.getEnergyReadings, InfluxFlat.getEnergyReadings,
    Elastic.getEnergyReadings.
  rewrite Hrun. cbn [option_map JS.bind].
  split.
  - intros Hload Hfilter Hq. rewrite Hload, Hfilter.
    rewrite Hzero by (intros p Hp; now rewrite (Hq p Hp)).
    unfold Report.json. now rewrite Hcount.
  - intros Hload Hfilter. rewrite Hload, Hfilter. split; intros Hq.
    + rewrite Hzero by (intros p Hp; now rewrite (Hq p Hp)).
      unfold Report.json. now rewrite Hcount.
    + rewrite Hzero by (intros p Hp; now destruct (Hq p Hp) as [-> | ->]).
      unfold Report.json. now rewrite Hcount.
Qed.

Lemma empty_store_reports_zero_witness :
  option_map (fun answer => Report.status (fst answer))
    (Influx.handleData 32 0 someDate (Returned Meters.sample)
       RoomExamples.noRows emptyCache Views.allRooms)
  = Some 200%Z.
Proof.
  assert (Hdate : Dayjs.wellFormed someDate)
    by (vm_compute; intuition discriminate).
  assert (Hyears : (Spans.yearsShown someDate < 32)%nat)
    by (vm_compute; lia).
  destruct
    (empty_store_reports_zero "hour" None someDate someDate 32 0
       (Returned Meters.sample) RoomExamples.noRows RoomExamples.noBuckets
       emptyCache (mkCache (Some Meters.sampleTables) (Some 0%Z))
       Meters.sampleTables emptyCache emptyCache [] [] [] Hdate eq_refl
       (le_n 32) Hyears)
    as (periods & _ & Hinflux & _).
  pose proof (Hinflux eq_refl eq_refl (fun _ _ => eq_refl)) as H.
  unfold Views.allRooms. now rewrite H.
Defined.

(** X22.  An empty [room] parameter means all rooms: in each program the
    room block then builds the empty MAC filter instead of an early answer,
    and the aggregator and [getEnergyReadings] return what they return
    without a room. *)
Theorem empty_room_means_all_rooms
  (period : string) (D : Dayjs.isoDate) (fuel : nat)
  (collectRows : Influx.Storage) (search : Elastic.Storage)
  (macFilter : list string) (data : list Row)
  (buckets : list Elastic.MacBucket)
  (mappingData : Influx.MappingData) (macToRoomMap : JS.jsobj scalar) :
  let empty := Some EmptyString in
  let dateRange := Periods.buildDateRangeQuery period D in
  (Influx.roomFilter period empty D mappingData = Returned (inl [])
   /\ Influx.calculateEnergyFromInfluxData data mappingData empty
      = Influx.calculateEnergyFromInfluxData data mappingData None
   /\ Influx.getEnergyReadings fuel collectRows period dateRange macFilter D
        mappingData empty
      = Influx.getEnergyReadings fuel collectRows period dateRange macFilter D
          mappingData None)
  /\ (roomFilterFlat macToRoomMap empty = inl []
      /\ InfluxFlat.calculateEnergyFromInfluxData data macToRoomMap empty
         = InfluxFlat.calculateEnergyFromInfluxData data macToRoomMap None
      /\ InfluxFlat.getEnergyReadings fuel collectRows period dateRange
           macFilter D macToRoomMap empty
         = InfluxFlat.getEnergyReadings fuel collectRows period dateRange
             macFilter D macToRoomMap None
      /\ Elastic.calculateEnergyFromBuckets buckets macToRoomMap empty
         = Elastic.calculateEnergyFromBuckets buckets macToRoomMap None
      /\ Elastic.getEnergyReadings fuel search period dateRange macFilter D
           macToRoomMap empty
         = Elastic.getEnergyReadings fuel search period dateRange macFilter D
             macToRoomMap None).
Proof.
  cbv zeta. repeat split.
Qed.

(** X23.  A reading whose device name is a member of [Object.prototype]
    fails the whole request in the two InfluxDB programs: for a well-formed
    date, a valid granularity and enough loop iterations for the view, the
    buckets of the view are generated and, when the room block has produced
    a MAC filter and the rows that the storage returns for any one of these
    buckets hold such a name (in part_000 after normalization, as
    ["constructor"]; in part_001 as stored), the grouping throws and the
    handler answers 500 "API request failed". *)
Theorem inherited_device_name_fails_the_request
  (period : string) (room : option string) (D today : Dayjs.isoDate)
  (fuel : nat) (now : Z) (meters : outcome (list MeterRow))
  (collectRows : Influx.Storage)
  (cache cache' : Cache Influx.MappingData) (mappingData : Influx.MappingData)
  (flatCache flatCache' : Cache (JS.jsobj scalar))
  (macToRoomMap : JS.jsobj scalar) (macFilter flatFilter : list string) :
  Dayjs.wellFormed D ->
  Request.validPeriod period = true ->
  (32 <= fuel)%nat ->
  (Spans.yearsShown D < fuel)%nat ->
  let request :=
    Request.mk (Some period) room (Some (Request.Wellformed D)) in
  exists periods : list Periods.Period,
  Periods.getTimePeriods fuel period (Periods.buildDateRangeQuery period D) D
  = Some (Returned periods)
  /\
  forall (p : Periods.Period) (rows : list Row),
  In p periods ->
  (* part_000 *)
  (Influx.getMetersMapping now meters cache = (Returned mappingData, cache') ->
   Influx.roomFilter period room D mappingData = Returned (inl macFilter) ->
   collectRows (Periods.utcStart p) (Periods.utcEnd p) macFilter
   = Returned rows ->
   Spec.inheritedName influxDevice rows = true ->
   exists e',
     Influx.handleData fuel now today meters collectRows cache request
     = Some (Report.mkResponse 500
               (Report.Failure "API request failed" (Some e')), cache'))
  (* part_001, InfluxDB *)
  /\ (getMetersMappingFlat now meters flatCache
      = (Returned macToRoomMap, flatCache') ->
      roomFilterFlat macToRoomMap room = inl flatFilter ->
      collectRows (Periods.utcStart p) (Periods.utcEnd p) flatFilter
      = Returned rows ->
      Spec.inheritedName flatDevice rows = true ->
      exists e',
        InfluxFlat.handleData fuel now today meters collectRows flatCache
          request
        = Some (Report.mkResponse 500
                  (Report.Failure "API request failed" (Some e')),
                flatCache')).
Proof.
  intros D_ok Hvalid Hfuel Hyears request.
  destruct (ReadFacts.view_exists fuel period D D_ok Hvalid Hfuel Hyears)
    as [periods Hrun].
  exists periods. split; [exact Hrun|]. intros p rows Hin.
  assert (Hfail : forall compute,
            compute p = Thrown TypeError ->
            exists e', readPeriods compute periods = Thrown e').
  { intros compute Hp.
    exact (ReadFacts.readPeriods_failure compute periods p TypeError Hin Hp). }
  assert (Hrows : forall deviceOf,
            Spec.inheritedName deviceOf rows = true ->
            (0 <? List.length rows)%nat = true).
  { intros deviceOf H. destruct rows; [discriminate H|reflexivity]. }
  unfold Influx.handleData, InfluxFlat.handleData, handleDataFlat, request.
  cbn [Request.period Request.room Request.date].
  rewrite Hvalid. cbn [negb].
  unfold Influx.getEnergyReadings, InfluxFlat.getEnergyReadings.
  rewrite Hrun. cbn [option_map JS.bind].
  split.
  - intros Hload Hfilter Hq Hname. rewrite Hload, Hfilter.
    match goal with
    | |- context [readPeriods ?c periods] => destruct (Hfail c) as [e' ->]
    end.
    + rewrite Hq. cbn [JS.bind]. rewrite (Hrows _ Hname).
      now rewrite Refinement.influx_refines, Hname.
    + now exists e'.
  - intros Hload Hfilter Hq Hname. rewrite Hload, Hfilter.
    match goal with
    | |- context [readPeriods ?c periods] => destruct (Hfail c) as [e' ->]
    end.
    + rewrite Hq. cbn [JS.bind]. rewrite (Hrows _ Hname).
      now rewrite Refinement.flat_refines, Hname.
    + now exists e'.
Qed.

Lemma inherited_device_name_fails_the_request_witness :
  exists e',
    Influx.handleData 32 0 someDate (Returned Meters.sample) Views.poisonedAtThree
      emptyCache Views.allRooms
    = Some (Report.mkResponse 500
              (Report.Failure "API request failed" (Some e')),
            mkCache (Some Meters.sampleTables) (Some 0%Z)).
Proof.
  assert (Hdate : Dayjs.wellFormed someDate)
    by (vm_compute; intuition discriminate).
  assert (Hyears : (Spans.yearsShown someDate < 32)%nat)
    by (vm_compute; lia).
  destruct
    (inherited_device_name_fails_the_request "hour" None someDate someDate
       32 0 (Returned Meters.sample) Views.poisonedAtThree
       emptyCache (mkCache (Some Meters.sampleTables) (Some 0%Z))
       Meters.sampleTables emptyCache emptyCache [] [] [] Hdate eq_refl
       (le_n 32) Hyears)
    as (periods & Hrun & Hfails).
  assert (E : periods = Views.hoursOfSomeDate)
    by (vm_compute in Hrun; vm_compute; congruence).
  subst periods.
  exact
    (proj1
       (Hfails
          (Periods.bucket (Coverage.hourConfig someDate)
             (Coverage.atHour someDate 3))
          [mkRow (Some "constructor"%string) 1 1750014000000]
          (or_intror (or_intror (or_intror (or_introl eq_refl)))))
       eq_refl eq_refl eq_refl eq_refl).
Defined.

Module ViewFacts.

Import Dayjs Periods.

Local Open Scope Z_scope.

(** Contiguous non-empty buckets follow one another. *)
Lemma contiguous_ordered (ps : list Period) :
  Coverage.contiguous ps ->
  (forall p, In p ps -> utcStart p < utcEnd p) ->
  forall (n i : nat) p q,
    nth_error ps i = Some p -> nth_error ps (i + S n) = Some q ->
    utcEnd p < utcStart q.
Proof.
  intros Hcont Hpos. induction n as [|n IH]; intros i p q Hp Hq.
  - replace (i + 1)%nat with (S i) in Hq by lia.
    pose proof (Hcont i p q Hp Hq). lia.
  - destruct (nth_error ps (i + S n)) as [r|] eqn:Hr.
    + pose proof (IH i p r Hp Hr) as H1.
      replace (i + S (S n))%nat with (S (i + S n)) in Hq by lia.
      pose proof (Hcont _ r q Hr Hq) as H2.
      pose proof (Hpos r (nth_error_In _ _ Hr)). lia.
    + apply nth_error_None in Hr.
      assert (Hsome : nth_error ps (i + S (S n)) <> None) by congruence.
      apply nth_error_Some in Hsome. lia.
Qed.

Lemma buckets_shape (f : Z -> Period) (from : Z) (count : nat) :
  (forall k, fullTimestamp (f k) = utcStart (f k)) ->
  (forall k, from <= k < from + Z.of_nat count -> utcStart (f k) < utcEnd (f k)) ->
  forall p, In p (map f (Coverage.upFrom from count)) ->
            fullTimestamp p = utcStart p /\ utcStart p < utcEnd p.
Proof.
  intros Hfull Hpos p Hin. apply in_map_iff in Hin as (k & <- & Hk).
  unfold Coverage.upFrom in Hk. apply in_map_iff in Hk as (i & <- & Hi).
  apply in_seq in Hi. split; [apply Hfull|apply Hpos; lia].
Qed.

Lemma view_shape (fuel : nat) (period : string) (D : isoDate)
  (periods : list Period) :
  wellFormed D ->
  Request.validPeriod period = true ->
  getTimePeriods fuel period (buildDateRangeQuery period D) D
  = Some (Returned periods) ->
  Coverage.contiguous periods
  /\ forall p, In p periods ->
               fullTimestamp p = utcStart p /\ utcStart p < utcEnd p.
Proof.
  intros D_ok Hvalid Hrun.
  set (enough := (fuel + 32 + S (Spans.yearsShown D))%nat).
  apply (ReadFacts.getTimePeriods_more fuel enough) in Hrun;
    [|unfold enough; lia].
  pose proof (LoopFacts.lengthOfMonth_bounds D) as Hdim.
  destruct (SpanClaims.valid_period_cases period Hvalid)
    as [->|[->|[->| ->]]].
  - rewrite (LoopFacts.getTimePeriods_hour D D_ok) in Hrun
      by (unfold enough; lia).
    assert (E : periods = map (fun k => bucket (Coverage.hourConfig D)
                                          (Coverage.atHour D k))
                            (Coverage.upFrom 0 24)) by congruence.
    rewrite E. split.
    + apply (CoverageFacts.covers_by_steps _ 0 24
               (Coverage.localMidnight D) MS_PER_HOUR); [lia| |];
        intros k; CoverageFacts.instants.
    + apply buckets_shape; [reflexivity|].
      intros k _. CoverageFacts.instants.
  - rewrite (LoopFacts.getTimePeriods_day D D_ok) in Hrun
      by (unfold enough; lia).
    assert (E : periods = map (fun k => bucket (Coverage.dayConfig D)
                                          (Coverage.atDay D k))
                            (Coverage.upFrom 1
                               (Z.to_nat (Coverage.lengthOfMonth D))))
      by congruence.
    rewrite E. split.
    + apply (CoverageFacts.covers_by_steps _ 1 _
               (valueOf (Coverage.atDay D 1)) MS_PER_DAY); [lia| |].
      * intros k. cbn. unfold valueOf. cbn.
        replace k with (1 + (k - 1)) at 1 by lia.
        rewrite CalendarFacts.daysFromCivil_day. CoverageFacts.instants.
      * intros k. cbn. unfold valueOf. cbn.
        replace k with (1 + (k - 1)) at 1 by lia.
        rewrite CalendarFacts.daysFromCivil_day. CoverageFacts.instants.
    + apply buckets_shape; [reflexivity|].
      intros k _. CoverageFacts.instants.
  - rewrite SpanFacts.getTimePeriods_month in Hrun by (unfold enough; lia).
    assert (E : periods = map (fun k => bucket (Spans.monthConfig D)
                                          (Spans.firstOf (isoYear D) k))
                            (Coverage.upFrom 0 12)) by congruence.
    rewrite E. split; [apply SpanClaims.months_cover|].
    apply buckets_shape; [reflexivity|].
    intros k _. cbn. unfold valueOf. cbn.
    pose proof (CalendarFacts.daysInMonth_bounds (isoYear D) k) as Hk.
    replace (daysInMonth (isoYear D) k)
      with (1 + (daysInMonth (isoYear D) k - 1)) at 1 by lia.
    rewrite CalendarFacts.daysFromCivil_day.
    unfold MS_PER_DAY, MS_PER_HOUR, utcOffset. lia.
  - rewrite SpanFacts.getTimePeriods_year in Hrun by (unfold enough; lia).
    assert (E : periods = map (fun k => bucket (Spans.yearConfig D)
                                          (Spans.firstOf k 0))
                            (Coverage.upFrom Spans.FIRST_YEAR
                               (Spans.yearsShown D))) by congruence.
    rewrite E. split.
    + intros i p q Hp Hq.
      apply CoverageFacts.nth_error_buckets in Hp as [Hi ->], Hq as [Hi' ->].
      replace (Spans.FIRST_YEAR + Z.of_nat (S i))
        with (Spans.FIRST_YEAR + Z.of_nat i + 1) by lia.
      rewrite (proj2 (SpanClaims.year_bounds D _)).
      now rewrite (proj1 (SpanClaims.year_bounds D _)).
    + apply buckets_shape; [reflexivity|].
      intros k _.
      pose proof (SpanClaims.year_bounds D k) as [Hs He].
      pose proof (SpanFacts.newYear_lt k (k + 1) ltac:(lia)).
      unfold MS_PER_DAY in *. lia.
Qed.

End ViewFacts.

(** X18.  In every view the buckets are intervals that do not overlap: a
    bucket starts before it ends, its [fullTimestamp] is its start, each
    bucket ends on the millisecond before the next one starts, and an
    earlier bucket ends before any later one starts, so that no instant is
    counted in two buckets. *)
Theorem buckets_never_overlap
  (fuel : nat) (period : string) (D : Dayjs.isoDate)
  (periods : list Periods.Period) :
  Dayjs.wellFormed D ->
  Request.validPeriod period = true ->
  Periods.getTimePeriods fuel period (Periods.buildDateRangeQuery period D) D
  = Some (Returned periods) ->
  Coverage.contiguous periods
  /\ (forall p, In p periods ->
        Periods.fullTimestamp p = Periods.utcStart p
        /\ (Periods.utcStart p < Periods.utcEnd p)%Z)
  /\ (forall i j p q,
        (i < j)%nat ->
        nth_error periods i = Some p -> nth_error periods j = Some q ->
        (Periods.utcEnd p < Periods.utcStart q)%Z)
  /\ (forall i j p q t,
        nth_error periods i = Some p -> nth_error periods j = Some q ->
        (Periods.utcStart p <= t <= Periods.utcEnd p)%Z ->
        (Periods.utcStart q <= t <= Periods.utcEnd q)%Z ->
        i = j).
Proof.
  intros D_ok Hvalid Hrun.
  destruct (ViewFacts.view_shape fuel period D periods D_ok Hvalid Hrun)
    as [Hcont Hshape].
  assert (Hordered : forall i j p q,
            (i < j)%nat ->
            nth_error periods i = Some p -> nth_error periods j = Some q ->
            (Periods.utcEnd p < Periods.utcStart q)%Z).
  { intros i j p q Hij Hp Hq.
    replace j with (i + S (j - i - 1))%nat in Hq by lia.
    apply (ViewFacts.contiguous_ordered periods Hcont
             (fun r Hr => proj2 (Hshape r Hr)) _ i p q Hp Hq). }
  split; [exact Hcont|]. split; [exact Hshape|]. split; [exact Hordered|].
  intros i j p q t Hp Hq Htp Htq.
  destruct (Nat.lt_trichotomy i j) as [Hlt|[Heq|Hgt]]; [|assumption|].
  - pose proof (Hordered i j p q Hlt Hp Hq). lia.
  - pose proof (Hordered j i q p Hgt Hq Hp). lia.
Qed.

Lemma buckets_never_overlap_witness :
  Coverage.contiguous Views.hoursOfSomeDate
  /\ forall p, In p Views.hoursOfSomeDate ->
       Periods.fullTimestamp p = Periods.utcStart p
       /\ (Periods.utcStart p < Periods.utcEnd p)%Z.
Proof.
  assert (Hdate : Dayjs.wellFormed someDate)
    by (vm_compute; intuition discriminate).
  destruct (buckets_never_overlap 32 "hour" someDate Views.hoursOfSomeDate
              Hdate eq_refl eq_refl) as (H1 & H2 & _).
  split; assumption.
Defined.

Module AnswerFacts.

Lemma roomFilter_early period room D m early :
  Influx.roomFilter period room D m = Returned (inr early) ->
  exists r, early = Influx.noMeters period r D m.
Proof.
  unfold Influx.roomFilter.
  destruct room as [r|]; [|discriminate].
  destruct (JS.truthy r); [|discriminate].
  destruct (JS.get (Influx.roomToMacsMap m) r) as [macs| |].
  - destruct (0 <? List.length macs)%nat; [discriminate|].
    intros [= <-]. now exists r.
  - destruct (JS.inheritedLength r) as [n|].
    + destruct (0 <? n)%Z; [discriminate|]. intros [= <-]. now exists r.
    + intros [= <-]. now exists r.
  - intros [= <-]. now exists r.
Qed.

Lemma roomFilterFlat_early m room early :
  roomFilterFlat m room = inr early -> early = noMetersFlat.
Proof.
  unfold roomFilterFlat.
  destruct room as [r|]; [|discriminate].
  destruct (JS.truthy r); [|discriminate].
  destruct (0 <? List.length (macsForRoomFlat m r))%nat; [discriminate|].
  now intros [= <-].
Qed.

Lemma handleDataFlat_shape getEnergyReadings now today meters cache query
  response cache' :
  handleDataFlat getEnergyReadings now today meters cache query
  = Some (response, cache') ->
  Answers.wellShaped response
  /\ (Report.status response = 400%Z -> cache' = cache).
Proof.
  unfold handleDataFlat.
  destruct (negb (Request.validPeriod _)).
  { intros [= <- <-]. split; [reflexivity|reflexivity]. }
  destruct (match Request.date query with
            | Some d => d
            | None => Request.Wellformed today
            end) as [|D].
  { intros [= <- <-]. split; reflexivity. }
  destruct (getMetersMappingFlat now meters cache) as [loaded cache1].
  destruct loaded as [m|e].
  - destruct (roomFilterFlat m (Request.room query)) as [macFilter|early] eqn:Hf.
    + destruct (getEnergyReadings _ _ _ _ _ _) as [[result|e]|];
        [| |discriminate].
      * intros [= <- <-]. split; [now split|discriminate].
      * intros [= <- <-]. split; [now split|discriminate].
    + apply roomFilterFlat_early in Hf. subst early.
      intros [= <- <-]. split; [now split|discriminate].
  - intros [= <- <-]. split; [now split|discriminate].
Qed.

Lemma view_generated (fuel : nat) (period : string) (D : Dayjs.isoDate) :
  Request.validPeriod period = true ->
  Dayjs.wellFormed D /\ (32 <= fuel)%nat /\ (Spans.yearsShown D < fuel)%nat ->
  exists periods,
    Periods.getTimePeriods fuel period (Periods.buildDateRangeQuery period D) D
    = Some (Returned periods).
Proof.
  intros Hvalid (D_ok & Hfuel & Hyears).
  now apply ReadFacts.view_exists.
Qed.

Lemma influx_shape fuel now today meters collectRows cache query
  response cache' :
  Influx.handleData fuel now today meters collectRows cache query
  = Some (response, cache') ->
  Answers.wellShaped response
  /\ (Report.status response = 400%Z -> cache' = cache).
Proof.
  unfold Influx.handleData.
  destruct (negb (Request.validPeriod _)).
  { intros [= <- <-]. split; reflexivity. }
  destruct (match Request.date query with
            | Some d => d
            | None => Request.Wellformed today
            end) as [|D].
  { intros [= <- <-]. split; reflexivity. }
  destruct (Influx.getMetersMapping now meters cache) as [loaded cache1].
  destruct loaded as [m|e].
  - destruct (Influx.roomFilter _ (Request.room query) D m)
      as [[macFilter|early]|e] eqn:Hf.
    + destruct (Influx.getEnergyReadings _ _ _ _ _ _ _ _) as [[result|e]|];
        [| |discriminate].
      * intros [= <- <-]. split; [now split|discriminate].
      * intros [= <- <-]. split; [now split|discriminate].
    + apply roomFilter_early in Hf as [r ->].
      intros [= <- <-]. split; [now split|discriminate].
    + intros [= <- <-]. split; [now split|discriminate].
  - intros [= <- <-]. split; [now split|discriminate].
Qed.

Lemma effective_date today query D :
  match Request.date query with
  | Some d => d
  | None => Request.Wellformed today
  end = Request.Wellformed D ->
  Answers.dateOf today query = Some D.
Proof.
  unfold Answers.dateOf.
  destruct (Request.date query) as [[|D']|]; [discriminate| |]; now intros [= ->].
Qed.

Lemma influx_answers fuel now today meters collectRows cache query :
  Answers.answerable fuel today query ->
  exists answer,
    Influx.handleData fuel now today meters collectRows cache query
    = Some answer.
Proof.
  intros Hfuel. unfold Influx.handleData.
  destruct (negb (Request.validPeriod _)) eqn:Hvalid; [now eexists|].
  apply negb_false_iff in Hvalid.
  destruct (match Request.date query with
            | Some d => d
            | None => Request.Wellformed today
            end) as [|D] eqn:Hdate; [now eexists|].
  apply effective_date in Hdate. specialize (Hfuel D Hdate).
  destruct (Influx.getMetersMapping now meters cache) as [loaded cache1].
  destruct loaded as [m|e]; [|now eexists].
  destruct (Influx.roomFilter _ (Request.room query) D m)
    as [[macFilter|early]|e]; [|now eexists|now eexists].
  unfold Influx.getEnergyReadings.
  destruct (view_generated fuel _ D Hvalid Hfuel) as [periods ->].
  cbn [option_map JS.bind].
  destruct (readPeriods _ periods); now eexists.
Qed.

Lemma flat_answers getEnergyReadings fuel now today meters cache query :
  Answers.answerable fuel today query ->
  (forall period D macFilter m room,
      Request.validPeriod period = true ->
      Dayjs.wellFormed D /\ (32 <= fuel)%nat /\ (Spans.yearsShown D < fuel)%nat ->
      exists readings,
        getEnergyReadings period (Periods.buildDateRangeQuery period D)
          macFilter D m room = Some readings) ->
  exists answer,
    handleDataFlat getEnergyReadings now today meters cache query
    = Some answer.
Proof.
  intros Hfuel Hread. unfold handleDataFlat.
  destruct (negb (Request.validPeriod _)) eqn:Hvalid; [now eexists|].
  apply negb_false_iff in Hvalid.
  destruct (match Request.date query with
            | Some d => d
            | None => Request.Wellformed today
            end) as [|D] eqn:Hdate; [now eexists|].
  apply effective_date in Hdate. specialize (Hfuel D Hdate).
  destruct (getMetersMappingFlat now meters cache) as [loaded cache1].
  destruct loaded as [m|e]; [|now eexists].
  destruct (roomFilterFlat m (Request.room query)) as [macFilter|early];
    [|now eexists].
  destruct (Hread _ D macFilter m (Request.room query) Hvalid Hfuel)
    as [[result|e] ->]; now eexists.
Qed.

End AnswerFacts.

(** X17.  Given enough iterations for the view of a well-formed date, the
    handler of [/api/data] answers every request, whatever the clock, the
    cache and the storage do, and the answer has one of three shapes: 400
    with an error and no details, 500 with the error "API request failed"
    and details, or 200 with data; [meta.totalRecords] always counts the
    entries of [data]; and a 400 leaves the mapping cache as it was.  The
    same holds in the three programs. *)
Theorem answers_are_well_shaped
  (fuel : nat) (now : Z) (today : Dayjs.isoDate)
  (meters : outcome (list MeterRow))
  (collectRows : Influx.Storage) (search : Elastic.Storage)
  (cache : Cache Influx.MappingData) (flatCache : Cache (JS.jsobj scalar))
  (query : Request.t) :
  Answers.answerable fuel today query ->
  (exists response cache',
      Influx.handleData fuel now today meters collectRows cache query
      = Some (response, cache')
      /\ Answers.wellShaped response
      /\ (Report.status response = 400%Z -> cache' = cache))
  /\ (exists response cache',
         InfluxFlat.handleData fuel now today meters collectRows flatCache
           query
         = Some (response, cache')
         /\ Answers.wellShaped response
         /\ (Report.status response = 400%Z -> cache' = flatCache))
  /\ (exists response cache',
         Elastic.handleData fuel now today meters search flatCache query
         = Some (response, cache')
         /\ Answers.wellShaped response
         /\ (Report.status response = 400%Z -> cache' = flatCache)).
Proof.
  intros Hfuel.
  split; [|split].
  - destruct (AnswerFacts.influx_answers fuel now today meters collectRows
                cache query Hfuel) as [[response cache'] Hrun].
    exists response, cache'. split; [exact Hrun|].
    exact (AnswerFacts.influx_shape _ _ _ _ _ _ _ _ _ Hrun).
  - destruct (AnswerFacts.flat_answers
                (InfluxFlat.getEnergyReadings fuel collectRows) fuel now today
                meters flatCache query Hfuel) as [[response cache'] Hrun].
    + intros period D macFilter m room Hvalid Hdate.
      unfold InfluxFlat.getEnergyReadings.
      destruct (AnswerFacts.view_generated fuel period D Hvalid Hdate)
        as [periods ->].
      now eexists.
    + exists response, cache'. split; [exact Hrun|].
      exact (AnswerFacts.handleDataFlat_shape _ _ _ _ _ _ _ _ Hrun).
  - destruct (AnswerFacts.flat_answers
                (Elastic.getEnergyReadings fuel search) fuel now today
                meters flatCache query Hfuel) as [[response cache'] Hrun].
    + intros period D macFilter m room Hvalid Hdate.
      unfold Elastic.getEnergyReadings.
      destruct (AnswerFacts.view_generated fuel period D Hvalid Hdate)
        as [periods ->].
      now eexists.
    + exists response, cache'. split; [exact Hrun|].
      exact (AnswerFacts.handleDataFlat_shape _ _ _ _ _ _ _ _ Hrun).
Qed.

Lemma answers_are_well_shaped_witness :
  exists response cache',
    Influx.handleData 32 0 someDate (Returned Meters.sample)
      Views.failsAtThree emptyCache Views.allRooms
    = Some (response, cache')
    /\ Answers.wellShaped response.
Proof.
  assert (Hfuel : Answers.answerable 32 someDate Views.allRooms).
  { intros D [= <-]. split; [vm_compute; intuition discriminate|].
    split; [lia|vm_compute; lia]. }
  destruct (proj1
    (answers_are_well_shaped 32 0 someDate (Returned Meters.sample)
       Views.failsAtThree RoomExamples.noBuckets emptyCache emptyCache
       Views.allRooms Hfuel)) as (response & cache' & Hrun & Hshape & _).
  exists response, cache'. split; assumption.
Defined.

